(** * LEMON: the XML persistence layer and the catalog model

    A shallow embedding of [xmlparse.py] (classes [XMLOffset],
    [XMLOffsetFile] and [CandidateAnnuli]) and of the catalog model that the
    test-suite of [astromatic.py] exercises, together with the properties
    stated about them.

    Conventions.
    - Python exceptions are values of [exn]; a computation that may raise
      returns a [result].
    - The file system is a finite map from paths to XML documents.
    - Python integers are [Z]; floats and photometric filters are used
      through the interfaces [PyFloat] and [PassbandAPI]. *)

From Stdlib Require Import ZArith QArith Qcanon Lia String Ascii List.
From stdpp Require Import base option list gmap strings sorting.

#[local] Open Scope string_scope.
#[local] Open Scope list_scope.
#[local] Open Scope stdpp_scope.
#[local] Open Scope Z_scope.

(** ** Exceptions and results *)

Inductive exn : Type :=
| IOError          (* open() of a missing or unreadable path *)
| ValueError       (* float(), int(), strptime(), min() of an empty list *)
| TypeError        (* float(None), int(None), strptime(None, ...) *)
| IndexError       (* element[index] out of range *)
| KeyError         (* dict[key] of a missing key *)
| XMLSyntaxError.  (* lxml: the document does not follow its DTD *)

Inductive result (A : Type) : Type :=
| Ok (a : A)
| Raise (e : exn).
Arguments Ok {A} a.
Arguments Raise {A} e.

#[export] Instance result_ret : MRet result := fun A a => Ok a.
#[export] Instance result_bind : MBind result := fun A B f r =>
  match r with
  | Ok a => f a
  | Raise e => Raise e
  end.

Definition of_option {A} (e : exn) (o : option A) : result A :=
  match o with
  | Some a => Ok a
  | None => Raise e
  end.

(** ** Decimal text of integers: [str(n)] and [int(s)] *)

Definition digit_char (d : Z) : ascii := ascii_of_nat (48 + Z.to_nat d).

Definition digit_of (c : ascii) : option Z :=
  let v := Z.of_nat (nat_of_ascii c) - 48 in
  if (0 <=? v) && (v <=? 9) then Some v else None.

(** the [k] low decimal digits of [n], the most significant first *)
Fixpoint fixed_digits (k : nat) (n : Z) : string :=
  match k with
  | O => EmptyString
  | S k' => String (digit_char (n / 10 ^ Z.of_nat k' mod 10)) (fixed_digits k' n)
  end.

(** drop leading zeros, keeping the last digit *)
Fixpoint strip_zeros (s : string) : string :=
  match s with
  | String a s' =>
      if Ascii.eqb a "0" && negb (String.eqb s' "") then strip_zeros s' else s
  | EmptyString => s
  end.

(** the decimal numeral of [0 <= n] *)
Definition str_nat (n : Z) : string :=
  strip_zeros (fixed_digits (S (Z.to_nat (Z.log2 n))) n).

(** [str(n)] *)
Definition str_int (n : Z) : string :=
  if n <? 0 then String "-" (str_nat (- n)) else str_nat n.

Fixpoint digits_acc (acc : Z) (s : string) : option Z :=
  match s with
  | EmptyString => Some acc
  | String c s' => d ← digit_of c; digits_acc (10 * acc + d) s'
  end.

(** the value of a non-empty string of digits *)
Definition digits_value (s : string) : option Z :=
  if String.eqb s "" then None else digits_acc 0 s.

(** [int(s)] for numerals [[-]digits] *)
Definition int_of_str (s : string) : option Z :=
  match s with
  | String a s' =>
      if Ascii.eqb a "-" then Z.opp <$> digits_value s' else digits_value s
  | EmptyString => None
  end.

Definition newline : string := String (ascii_of_nat 10) "".

(** ** The time functions used by [XMLOffsetFile] *)

Module Time.

Record struct_time : Type := {
  tm_year : Z; tm_mon : Z; tm_mday : Z;
  tm_hour : Z; tm_min : Z; tm_sec : Z;
  tm_wday : Z;      (* Monday is 0 *)
  tm_yday : Z;
  tm_isdst : Z }.   (* 1, 0, or -1 when not known *)

(** [datetime.date]: the proleptic Gregorian ordinal of a date. *)

Definition is_leap (y : Z) : bool :=
  (y mod 4 =? 0) && (negb (y mod 100 =? 0) || (y mod 400 =? 0)).

Definition days_before_year (y : Z) : Z :=
  let y1 := y - 1 in y1 * 365 + y1 / 4 - y1 / 100 + y1 / 400.

Definition days_in_month (y m : Z) : Z :=
  if m =? 2 then (if is_leap y then 29 else 28)
  else if (m =? 4) || (m =? 6) || (m =? 9) || (m =? 11) then 30
  else 31.

Definition days_before_month (y m : Z) : Z :=
  nth (Z.to_nat m) [0; 0; 31; 59; 90; 120; 151; 181; 212; 243; 273; 304; 334] 0
  + (if (2 <? m) && is_leap y then 1 else 0).

Definition ymd2ord (y m d : Z) : Z :=
  days_before_year y + days_before_month y m + d.

(** [datetime.date(y, m, d).toordinal()]; the constructor raises
    [ValueError] outside [MINYEAR..MAXYEAR] or for a day the month lacks. *)
Definition date_toordinal (y m d : Z) : result Z :=
  if (1 <=? y) && (y <=? 9999) && (1 <=? m) && (m <=? 12)
     && (1 <=? d) && (d <=? days_in_month y m)
  then Ok (ymd2ord y m d)
  else Raise ValueError.

Definition EPOCH_ORD : Z := 719163.   (* date(1970, 1, 1).toordinal() *)

(** [calendar.timegm]. *)
Definition timegm (tm : struct_time) : result Z :=
  ord ← date_toordinal (tm_year tm) (tm_mon tm) 1;
  let days := ord - EPOCH_ORD + tm_mday tm - 1 in
  let hours := days * 24 + tm_hour tm in
  let minutes := hours * 60 + tm_min tm in
  Ok (minutes * 60 + tm_sec tm).

(** [time.gmtime]: the civil date of a day count, years starting in March. *)
Definition civil_from_days (z : Z) : Z * Z * Z :=
  let z := z + 719468 in
  let era := z / 146097 in
  let doe := z mod 146097 in
  let yoe := (doe - doe / 1460 + doe / 36524 - doe / 146096) / 365 in
  let doy := doe - (365 * yoe + yoe / 4 - yoe / 100) in
  let mp := (5 * doy + 2) / 153 in
  let d := doy - (153 * mp + 2) / 5 + 1 in
  let m := if mp <? 10 then mp + 3 else mp - 9 in
  let y := yoe + era * 400 + (if m <=? 2 then 1 else 0) in
  (y, m, d).

Definition gmtime (t : Z) : struct_time :=
  let days := t / 86400 in
  let rem := t mod 86400 in
  let '(y, m, d) := civil_from_days days in
  {| tm_year := y; tm_mon := m; tm_mday := d;
     tm_hour := rem / 3600; tm_min := (rem mod 3600) / 60; tm_sec := rem mod 60;
     tm_wday := (days + 3) mod 7;
     tm_yday := ymd2ord y m d - ymd2ord y 1 1 + 1;
     tm_isdst := 0 |}.

(** [time.asctime]: the C library prints
    ["%.3s %.3s%3d %.2d:%.2d:%.2d %d\n"]. *)

Definition day_abbr : list string :=
  ["Mon"; "Tue"; "Wed"; "Thu"; "Fri"; "Sat"; "Sun"].

Definition month_abbr : list string :=
  ["Jan"; "Feb"; "Mar"; "Apr"; "May"; "Jun";
   "Jul"; "Aug"; "Sep"; "Oct"; "Nov"; "Dec"].

Definition pad_left (width : nat) (c : ascii) (s : string) : string :=
  string_of_list_ascii (repeat c (width - String.length s)) +:+ s.

Definition fmt_02d (n : Z) : string := pad_left 2 "0"%char (str_int n).
Definition fmt_3d (n : Z) : string := pad_left 3 " "%char (str_int n).

Definition c_asctime (tm : struct_time) : string :=
  nth (Z.to_nat (tm_wday tm)) day_abbr "???" +:+ " "
  +:+ nth (Z.to_nat (tm_mon tm - 1)) month_abbr "???"
  +:+ fmt_3d (tm_mday tm) +:+ " "
  +:+ fmt_02d (tm_hour tm) +:+ ":" +:+ fmt_02d (tm_min tm) +:+ ":"
  +:+ fmt_02d (tm_sec tm) +:+ " " +:+ str_int (tm_year tm).

(** Python 2 keeps the C string, dropping the final newline only when it is
    the character at index 24. The text before the newline is then exactly
    24 characters long; any other length keeps its newline. *)
Definition asctime_text (tm : struct_time) : string :=
  let s := c_asctime tm in
  if (String.length s =? 24)%nat then s else s +:+ newline.

(** Before it prints, Python 2 reads the year of the tuple: a year from
    1900 on is taken as it is; with [time.accept2dyear] as it is by
    default, the two-digit years 69 to 99 and 0 to 68 stand for 1969 to
    1999 and 2000 to 2068; any other year is refused with [ValueError]. *)
Definition asctime_year (y : Z) : result Z :=
  if 1900 <=? y then Ok y
  else if (69 <=? y) && (y <=? 99) then Ok (y + 1900)
  else if (0 <=? y) && (y <=? 68) then Ok (y + 2000)
  else Raise ValueError.

Definition with_year (tm : struct_time) (y : Z) : struct_time :=
  {| tm_year := y; tm_mon := tm_mon tm; tm_mday := tm_mday tm;
     tm_hour := tm_hour tm; tm_min := tm_min tm; tm_sec := tm_sec tm;
     tm_wday := tm_wday tm; tm_yday := tm_yday tm; tm_isdst := tm_isdst tm |}.

(** [time.asctime(tm)] *)
Definition asctime (tm : struct_time) : result string :=
  y ← asctime_year (tm_year tm);
  Ok (asctime_text (with_year tm y)).

(** [time.strptime]: [_strptime] turns the format into a regular
    expression, matches it at the start of the text with backtracking and
    ignoring case, and rejects text left over after the first match. The
    parsers below return every way to match, in the order the regular
    expression engine tries them. *)

Definition parser (A : Type) : Type := string → list (A * string).

Definition p_ret {A} (a : A) : parser A := λ s, [(a, s)].

Definition p_bind {A B} (p : parser A) (k : A → parser B) : parser B :=
  λ s, '(a, s') ← p s; k a s'.

Definition p_alt {A} (p q : parser A) : parser A := λ s, p s ++ q s.

Definition lower (c : ascii) : ascii :=
  let n := nat_of_ascii c in
  if (65 <=? n)%nat && (n <=? 90)%nat then ascii_of_nat (n + 32) else c.

(** a literal, compared ignoring case *)
Fixpoint p_lit (lit : string) : parser unit :=
  match lit with
  | EmptyString => p_ret tt
  | String c lit' => λ s,
      match s with
      | String c' s' =>
          if Ascii.eqb (lower c) (lower c') then p_lit lit' s' else []
      | EmptyString => []
      end
  end.

(** [(mon|tue|...)]: the index of the first name that matches *)
Fixpoint p_names (names : list string) (i : Z) : parser Z :=
  match names with
  | [] => λ _, []
  | n :: names' => p_alt (p_bind (p_lit n) (λ _, p_ret i)) (p_names names' (i + 1))
  end.

Definition is_space (c : ascii) : bool :=
  let n := nat_of_ascii c in
  (n =? 32)%nat || ((9 <=? n)%nat && (n <=? 13)%nat).

(** [\s*] and [\s+], greedy: the longest run first *)
Fixpoint p_ws_star (s : string) : list (unit * string) :=
  match s with
  | String c s' => if is_space c then p_ws_star s' ++ [(tt, s)] else [(tt, s)]
  | EmptyString => [(tt, s)]
  end.

Definition p_ws : parser unit := λ s,
  match s with
  | String c s' => if is_space c then p_ws_star s' else []
  | EmptyString => []
  end.

(** a character class [[lo-hi]] of digits, giving the digit's value *)
Definition p_range (lo hi : Z) : parser Z := λ s,
  match s with
  | String c s' =>
      let v := Z.of_nat (nat_of_ascii c) - 48 in
      if (lo <=? v) && (v <=? hi) then [(v, s')] else []
  | EmptyString => []
  end.

Definition p_digit : parser Z := p_range 0 9.

Definition p_two (hi : parser Z) (lo : parser Z) : parser Z :=
  p_bind hi (λ a, p_bind lo (λ b, p_ret (10 * a + b))).

(** [%d]: [3[0-1]|[1-2]\d|0[1-9]|[1-9]| [1-9]] *)
Definition p_d : parser Z :=
  p_alt (p_two (p_range 3 3) (p_range 0 1))
 (p_alt (p_two (p_range 1 2) p_digit)
 (p_alt (p_two (p_range 0 0) (p_range 1 9))
 (p_alt (p_range 1 9)
        (p_bind (p_lit " ") (λ _, p_range 1 9))))).

(** [%H]: [2[0-3]|[0-1]\d|\d] *)
Definition p_H : parser Z :=
  p_alt (p_two (p_range 2 2) (p_range 0 3))
 (p_alt (p_two (p_range 0 1) p_digit) p_digit).

(** [%M]: [[0-5]\d|\d] *)
Definition p_M : parser Z := p_alt (p_two (p_range 0 5) p_digit) p_digit.

(** [%S]: [6[0-1]|[0-5]\d|\d] *)
Definition p_S : parser Z :=
  p_alt (p_two (p_range 6 6) (p_range 0 1))
 (p_alt (p_two (p_range 0 5) p_digit) p_digit).

(** [%Y]: [\d\d\d\d] *)
Definition p_Y : parser Z :=
  p_bind p_digit (λ a, p_bind p_digit (λ b, p_bind p_digit (λ c,
  p_bind p_digit (λ d, p_ret (1000 * a + 100 * b + 10 * c + d))))).

(** the regular expression of ["%a %b %d %H:%M:%S %Y UTC"] *)
Definition STRPTIME_FORMAT : parser (Z * Z * Z * Z * Z * Z * Z) :=
  p_bind (p_names day_abbr 0) (λ wd, p_bind p_ws (λ _,
  p_bind (p_names month_abbr 1) (λ mon, p_bind p_ws (λ _,
  p_bind p_d (λ d, p_bind p_ws (λ _,
  p_bind p_H (λ hh, p_bind (p_lit ":") (λ _,
  p_bind p_M (λ mm, p_bind (p_lit ":") (λ _,
  p_bind p_S (λ ss, p_bind p_ws (λ _,
  p_bind p_Y (λ y, p_bind p_ws (λ _,
  p_bind (p_lit "UTC") (λ _,
  p_ret (y, mon, d, hh, mm, ss, wd)))))))))))))))).

Definition strptime (s : string) : result struct_time :=
  match STRPTIME_FORMAT s with
  | [] => Raise ValueError            (* does not match the format *)
  | ((y, mon, d, hh, mm, ss, wd), rest) :: _ =>
      match rest with
      | EmptyString =>
          (* the day of the year is taken from datetime.date *)
          ord ← date_toordinal y mon d;
          first ← date_toordinal y 1 1;
          Ok {| tm_year := y; tm_mon := mon; tm_mday := d;
                tm_hour := hh; tm_min := mm; tm_sec := ss;
                tm_wday := wd; tm_yday := ord - first + 1;
                tm_isdst := -1 |}       (* the format has no [%Z] *)
      | _ => Raise ValueError         (* unconverted data remains *)
      end
  end.

End Time.

(** ** Interfaces of what [xmlparse.py] imports

    Python floats are used through their comparison, the two ways the
    module prints them and [float()]. The module [passband] is used through
    the constructor [Passband(name)], the attribute [name], [str()] and the
    ordering that [sorted] relies on. *)

Class PyFloat : Type := {
  float : Type;
  float_eq_dec :: EqDecision float;
  float_ltb : float → float → bool;        (* x < y *)
  fmt_f : nat → float → string;            (* '%.<k>f' % x *)
  float_str : float → string;              (* str(x) *)
  float_of_str : string → option float;    (* float(s), None for ValueError *)
}.

(** What the properties below need of floats: [<] is a strict total order
    (no NaN), text printed by ['%.kf'] is accepted by [float()], and
    printing with [k] decimals then reading back preserves [<=]. *)
Record PyFloatLaws `{PyFloat} : Prop := {
  float_lt_irrefl : ∀ x, float_ltb x x = false;
  float_lt_trans : ∀ x y z,
    float_ltb x y = true → float_ltb y z = true → float_ltb x z = true;
  float_lt_total : ∀ x y, float_ltb x y = true ∨ x = y ∨ float_ltb y x = true;
  float_fmt_parse : ∀ k x, is_Some (float_of_str (fmt_f k x));
  float_round_mono : ∀ k x y x' y',
    float_of_str (fmt_f k x) = Some x' → float_of_str (fmt_f k y) = Some y' →
    float_ltb y x = false → float_ltb y' x' = false;
}.

Class PassbandAPI : Type := {
  Passband : Type;
  Passband_eq_dec :: EqDecision Passband;
  Passband_countable :: Countable Passband;
  Passband_new : string → result Passband; (* passband.Passband(name) *)
  Passband_name : Passband → string;       (* pfilter.name *)
  Passband_str : Passband → string;        (* str(pfilter) *)
  Passband_ltb : Passband → Passband → bool;
}.

(** ** Python built-ins on lists *)

Section builtins.
Context {A K : Type} (key : A → K) (ltb : K → K → bool).

(** [min(l, key=key)]: the first element whose key no other element's key
    is below; [None] stands for the [ValueError] on an empty list. *)
Definition py_min (l : list A) : option A :=
  match l with
  | [] => None
  | a :: l' =>
      Some (fold_left (λ best c, if ltb (key c) (key best) then c else best) l' a)
  end.

(** [l.sort(key=key)] and [sorted(l, key=key)]: a stable sort that only
    asks whether one key is below another. *)
Fixpoint sort_insert (a : A) (l : list A) : list A :=
  match l with
  | [] => [a]
  | b :: l' => if ltb (key b) (key a) then b :: sort_insert a l' else a :: b :: l'
  end.

Definition py_sorted (l : list A) : list A := foldr sort_insert [] l.

(** the key of [a] is not above the key of [b] *)
Definition key_le (a b : A) : Prop := ltb (key b) (key a) = false.

End builtins.

(** ** [lxml.etree] elements *)

#[local] Set Warnings "-register-all".

Inductive Element : Type :=
| Elem (tag : string) (attrib : list (string * string))
       (text : option string) (children : list Element).

Definition tag (e : Element) : string := let 'Elem t _ _ _ := e in t.
Definition attrib (e : Element) : list (string * string) :=
  let 'Elem _ a _ _ := e in a.
Definition text (e : Element) : option string := let 'Elem _ _ t _ := e in t.
Definition children (e : Element) : list Element := let 'Elem _ _ _ c := e in c.

(** [lxml.etree.Element(tag, **kwargs)] *)
Definition Element_new (t : string) (kwargs : list (string * string)) : Element :=
  Elem t kwargs None [].

(** [element.get(name)] *)
Fixpoint assoc (k : string) (l : list (string * string)) : option string :=
  match l with
  | [] => None
  | (k', v) :: l' => if String.eqb k k' then Some v else assoc k l'
  end.

Definition Element_get (e : Element) (k : string) : option string :=
  assoc k (attrib e).

(** [element.set(name, value)] *)
Fixpoint assoc_set (k v : string) (l : list (string * string)) :
    list (string * string) :=
  match l with
  | [] => [(k, v)]
  | (k', v') :: l' =>
      if String.eqb k k' then (k, v) :: l' else (k', v') :: assoc_set k v l'
  end.

Definition Element_set (e : Element) (k v : string) : Element :=
  Elem (tag e) (assoc_set k v (attrib e)) (text e) (children e).

(** What lxml takes as a text or as the value of an attribute: a Python 2
    byte string is XML compatible when each of its bytes is a tab, a line
    feed, a carriage return or from 32 to 127; for any other string lxml
    raises [ValueError]. [None] as a text stands for no text. *)
Definition xml_char (c : ascii) : bool :=
  let n := nat_of_ascii c in
  (n =? 9)%nat || (n =? 10)%nat || (n =? 13)%nat
  || ((32 <=? n)%nat && (n <=? 127)%nat).

Definition xml_compatible (s : string) : bool :=
  forallb xml_char (list_ascii_of_string s).

Definition lxml_str (s : string) : result string :=
  if xml_compatible s then Ok s else Raise ValueError.

Definition lxml_text (s : option string) : result (option string) :=
  match s with
  | None => Ok None
  | Some s => s ← lxml_str s; Ok (Some s)
  end.

(** [element.text = s], [s] being a compatible string or [None] *)
Definition Element_set_text (e : Element) (s : option string) : Element :=
  Elem (tag e) (attrib e) s (children e).

(** [element.append(child)] *)
Definition Element_append (e child : Element) : Element :=
  Elem (tag e) (attrib e) (text e) (children e ++ [child]).

(** [element[index]], negative indices counting from the end *)
Definition Element_index (e : Element) (index : Z) : result Element :=
  let n := Z.of_nat (length (children e)) in
  let i := if index <? 0 then index + n else index in
  if (0 <=? i) && (i <? n)
  then of_option IndexError (children e !! Z.to_nat i)
  else Raise IndexError.

(** ** Document type definitions and validation *)

Inductive particle : Type :=
| P_eps | P_fail                      (* only arise while matching *)
| P_name (n : string)
| P_seq (a b : particle)
| P_alt (a b : particle)
| P_star (a : particle)
| P_plus (a : particle).

Inductive content_spec : Type :=
| EMPTY
| PCDATA
| Children (p : particle).

Record DTD : Type := {
  doctype : string;                         (* <!DOCTYPE name [ *)
  element_decls : list (string * content_spec);  (* <!ELEMENT name spec> *)
  attlist_decls : list (string * string);   (* <!ATTLIST element attr CDATA #REQUIRED> *)
}.

Fixpoint nullable (p : particle) : bool :=
  match p with
  | P_eps => true
  | P_fail => false
  | P_name _ => false
  | P_seq a b => nullable a && nullable b
  | P_alt a b => nullable a || nullable b
  | P_star _ => true
  | P_plus a => nullable a
  end.

Fixpoint deriv (x : string) (p : particle) : particle :=
  match p with
  | P_eps | P_fail => P_fail
  | P_name n => if String.eqb x n then P_eps else P_fail
  | P_seq a b =>
      if nullable a then P_alt (P_seq (deriv x a) b) (deriv x b)
      else P_seq (deriv x a) b
  | P_alt a b => P_alt (deriv x a) (deriv x b)
  | P_star a => P_seq (deriv x a) (P_star a)
  | P_plus a => P_seq (deriv x a) (P_star a)
  end.

(** does the sequence of child names follow the content model? *)
Fixpoint matches (p : particle) (names : list string) : bool :=
  match names with
  | [] => nullable p
  | x :: names' => matches (deriv x p) names'
  end.

Fixpoint find_decl {B} (k : string) (l : list (string * B)) : option B :=
  match l with
  | [] => None
  | (k', v) :: l' => if String.eqb k k' then Some v else find_decl k l'
  end.

Definition blank (t : option string) : bool :=
  match t with
  | None => true
  | Some s => forallb Time.is_space (list_ascii_of_string s)
  end.

Definition content_ok (spec : content_spec) (t : option string)
    (names : list string) : bool :=
  match spec with
  | EMPTY => match names, t with [], None => true | _, _ => false end
  | PCDATA => match names with [] => true | _ => false end
  | Children p => blank t && matches p names
  end.

(** every attribute is declared for the element, every declared attribute
    (all are [#REQUIRED]) is present *)
Definition attributes_ok (dtd : DTD) (t : string)
    (attrs : list (string * string)) : bool :=
  forallb (λ kv, existsb (λ d, String.eqb d.1 t && String.eqb d.2 kv.1)
                         (attlist_decls dtd)) attrs
  && forallb (λ d, negb (String.eqb d.1 t) || bool_decide (is_Some (assoc d.2 attrs)))
             (attlist_decls dtd).

Fixpoint valid_element (dtd : DTD) (e : Element) : bool :=
  match e with
  | Elem t attrs txt kids =>
      match find_decl t (element_decls dtd) with
      | None => false
      | Some spec =>
          content_ok spec txt (map tag kids)
          && attributes_ok dtd t attrs
          && forallb (valid_element dtd) kids
      end
  end.

(** A standalone document as the module writes it: the XML declaration, a
    comment with the time of writing, the DTD, the root element. *)
Record XMLFile : Type := {
  xml_comment : string;
  xml_dtd : DTD;
  xml_root : Element;
}.

Definition valid_document (doc : XMLFile) : bool :=
  String.eqb (tag (xml_root doc)) (doctype (xml_dtd doc))
  && valid_element (xml_dtd doc) (xml_root doc).

Abbreviation filesystem := (gmap string XMLFile).

(** [validate_dtd(path)] *)
Definition validate_dtd (path : string) (fs : filesystem) : result unit :=
  doc ← of_option IOError (fs !! path);
  if valid_document doc then Ok tt else Raise XMLSyntaxError.

(** the comment that [_toxml] and [xml_dump] insert, [now] being the
    reading of the clock: a time of the present, whose year [asctime]
    accepts and prints *)
Definition generated_comment (now : Z) : string :=
  "<!-- File generated by LEMON on "
  +:+ Time.asctime_text (Time.gmtime now) +:+ " UTC -->".

(** ** [xmlparse.py] *)

Section xmlparse.
Context `{PyFloat} `{PassbandAPI}.

(** *** class XMLOffset *)

Record XMLOffset : Type := {
  offset_reference : option string;   (* a path; [None] is stored as no text *)
  offset_shifted : option string;
  offset_filter : Passband;
  offset_date : Z;            (* seconds after the Unix epoch *)
  offset_x : float;
  offset_y : float;
  offset_x_overlap : Z;
  offset_y_overlap : Z;
}.

(** *** class XMLOffsetFile *)

Record XMLOffsetFile : Type := { root : Element }.

Definition XMLOffsetFile_XML_DTD : DTD := {|
  doctype := "offsets";
  element_decls :=
    [("offsets", Children (P_plus (P_name "offset")));
     ("offset", Children (P_seq (P_name "reference") (P_seq (P_name "shifted")
                         (P_seq (P_name "x_offset") (P_name "y_offset")))));
     ("reference", PCDATA);
     ("shifted", PCDATA);
     ("x_offset", PCDATA);
     ("y_offset", PCDATA)];
  attlist_decls :=
    [("offsets", "size");
     ("shifted", "date");
     ("shifted", "filter");
     ("x_offset", "overlap");
     ("y_offset", "overlap")];
|}.

(** [XMLOffsetFile(path = None)] *)
Definition XMLOffsetFile_init (path : option string) (fs : filesystem) :
    result XMLOffsetFile :=
  match path with
  | None | Some EmptyString =>
      Ok {| root := Element_new "offsets" [("size", "0")] |}
  | Some p =>
      doc ← of_option IOError (fs !! p);
      Ok {| root := xml_root doc |}
  end.

(** [__len__] *)
Definition XMLOffsetFile_len (self : XMLOffsetFile) : Z :=
  Z.of_nat (length (children (root self))).

(** The element that [add] builds for an offset (lines 147 to 164). The
    paths and the text of the filter come from the caller and lxml checks
    them; [time.asctime] checks the year. What the module formats itself,
    the date and [str()] of a number, is compatible text. *)
Definition add_element (offset : XMLOffset) : result Element :=
  let element := Element_new "offset" [] in
  let reference := Element_new "reference" [] in
  reference_text ← lxml_text (offset_reference offset);
  let reference := Element_set_text reference reference_text in
  let element := Element_append element reference in
  date ← Time.asctime (Time.gmtime (offset_date offset));
  let shifted_date_str := date +:+ " UTC" in
  filter ← lxml_str (Passband_str (offset_filter offset));
  let kwargs := [("date", shifted_date_str); ("filter", filter)] in
  let shifted := Element_new "shifted" kwargs in
  shifted_text ← lxml_text (offset_shifted offset);
  let shifted := Element_set_text shifted shifted_text in
  let element := Element_append element shifted in
  let x := Element_new "x_offset" [("overlap", str_int (offset_x_overlap offset))] in
  let x := Element_set_text x (Some (float_str (offset_x offset))) in
  let element := Element_append element x in
  let y := Element_new "y_offset" [("overlap", str_int (offset_y_overlap offset))] in
  let y := Element_set_text y (Some (float_str (offset_y offset))) in
  let element := Element_append element y in
  Ok element.

(** [add(offset)]: the file after the call, and whether the call raised.
    Every exception comes before the element is appended to the root
    (line 166), so a call that raises leaves the file as it was. *)
Definition XMLOffsetFile_add (self : XMLOffsetFile) (offset : XMLOffset) :
    XMLOffsetFile * result unit :=
  match add_element offset with
  | Raise e => (self, Raise e)
  | Ok element =>
      let self := {| root := Element_append (root self) element |} in
      ({| root := Element_set (root self) "size"
                    (str_int (XMLOffsetFile_len self)) |}, Ok tt)
  end.

(** [float(s)] and [int(s)], [s] possibly [None] *)
Definition py_float (s : option string) : result float :=
  s ← of_option TypeError s; of_option ValueError (float_of_str s).

Definition py_int (s : option string) : result Z :=
  s ← of_option TypeError s; of_option ValueError (int_of_str s).

(** [__getitem__(index)]. A text that is absent reads as [None] and is
    returned as such; an attribute that is absent reads as [None] too, for
    which [strptime], [float] and [int] raise [TypeError], as [Passband]
    is taken to do. *)
Definition XMLOffsetFile_getitem (self : XMLOffsetFile) (index : Z) :
    result XMLOffset :=
  offset ← Element_index (root self) index;
  e0 ← Element_index offset 0;
  let reference_path := text e0 in
  element ← Element_index offset 1;
  let shifted_path := text element in
  shifted_date_str ← of_option TypeError (Element_get element "date");
  tm ← Time.strptime shifted_date_str;
  shifted_date ← Time.timegm tm;
  filter_name ← of_option TypeError (Element_get element "filter");
  shifted_pfilter ← Passband_new filter_name;
  element ← Element_index offset 2;
  x_offset ← py_float (text element);
  x_overlap ← py_int (Element_get element "overlap");
  element ← Element_index offset 3;
  y_offset ← py_float (text element);
  y_overlap ← py_int (Element_get element "overlap");
  Ok {| offset_reference := reference_path;
        offset_shifted := shifted_path;
        offset_filter := shifted_pfilter;
        offset_date := shifted_date;
        offset_x := x_offset; offset_y := y_offset;
        offset_x_overlap := x_overlap; offset_y_overlap := y_overlap |}.

(** [_toxml()], [now] being the clock *)
Definition XMLOffsetFile_toxml (self : XMLOffsetFile) (now : Z) : XMLFile :=
  {| xml_comment := generated_comment now;
     xml_dtd := XMLOffsetFile_XML_DTD;
     xml_root := root self |}.

(** [dump(path)]: the file is written, then validated *)
Definition XMLOffsetFile_dump (self : XMLOffsetFile) (path : string) (now : Z)
    (fs : filesystem) : filesystem * result unit :=
  let fs := <[path := XMLOffsetFile_toxml self now]> fs in
  (fs, validate_dtd path fs).

(** *** class CandidateAnnuli *)

Record CandidateAnnuli : Type := {
  aperture : float;
  annulus : float;
  dannulus : float;
  stdev : float;
}.

Definition CandidateAnnuli_XML_DTD : DTD := {|
  doctype := "annuli";
  element_decls :=
    [("annuli", Children (P_star (P_name "band")));
     ("band", Children (P_star (P_name "candidate")));
     ("candidate", EMPTY)];
  attlist_decls :=
    [("band", "name");
     ("band", "aperture");
     ("band", "annulus");
     ("band", "dannulus");
     ("band", "stdev");
     ("candidate", "aperture");
     ("candidate", "annulus");
     ("candidate", "dannulus");
     ("candidate", "stdev")];
|}.

(** [operator.attrgetter('annulus', 'aperture')] and [<] on such pairs *)
Definition sort_key (c : CandidateAnnuli) : float * float :=
  (annulus c, aperture c).

Definition pair_ltb (a b : float * float) : bool :=
  if decide (a.1 = b.1) then float_ltb a.2 b.2 else float_ltb a.1 b.1.

(** the four attributes the module writes for a candidate *)
Definition candidate_kwargs (c : CandidateAnnuli) : list (string * string) :=
  [("aperture", fmt_f 5 (aperture c));
   ("annulus", fmt_f 5 (annulus c));
   ("dannulus", fmt_f 5 (dannulus c));
   ("stdev", fmt_f 8 (stdev c))].

Definition candidate_element (c : CandidateAnnuli) : Element :=
  Element_new "candidate" (candidate_kwargs c).

Definition band_element (pfilter : Passband) (best : CandidateAnnuli)
    (candidates : list CandidateAnnuli) : Element :=
  Elem "band" (("name", Passband_name pfilter) :: candidate_kwargs best) None
       (candidate_element <$> candidates).

Abbreviation annuli_dict := (gmap Passband (list CandidateAnnuli)).

(** the body of the loop of [xml_dump], over the sorted filters; the
    dictionary is threaded through because [annuli[pfilter].sort()] sorts
    the caller's list in place *)
Fixpoint dump_bands (pfilters : list Passband) (annuli : annuli_dict) :
    annuli_dict * result (list Element) :=
  match pfilters with
  | [] => (annuli, Ok [])
  | pfilter :: pfilters' =>
      match annuli !! pfilter with
      | None => (annuli, Raise KeyError)
      | Some candidates =>
          match py_min stdev float_ltb candidates with
          | None => (annuli, Raise ValueError)
          | Some best =>
              let candidates := py_sorted sort_key pair_ltb candidates in
              let annuli := <[pfilter := candidates]> annuli in
              let band_element := band_element pfilter best candidates in
              let '(annuli, rest) := dump_bands pfilters' annuli in
              (annuli, bands ← rest; Ok (band_element :: bands))
          end
      end
  end.

(** the element that the loop appends for a filter of the dictionary *)
Definition band_of (annuli : annuli_dict) (pfilter : Passband) : option Element :=
  candidates ← annuli !! pfilter;
  best ← py_min stdev float_ltb candidates;
  Some (band_element pfilter best (py_sorted sort_key pair_ltb candidates)).

(** [sorted(annuli.iterkeys())] *)
Definition sorted_filters (annuli : annuli_dict) : list Passband :=
  py_sorted id Passband_ltb (map_to_list annuli).*1.

(** [xml_dump(xml_path, annuli)]: the dictionary after the call, the file
    system after the call, and whether the call raised *)
Definition xml_dump (xml_path : string) (annuli : annuli_dict) (now : Z)
    (fs : filesystem) : annuli_dict * filesystem * result unit :=
  match dump_bands (sorted_filters annuli) annuli with
  | (annuli, Raise e) => (annuli, fs, Raise e)
  | (annuli, Ok bands) =>
      let root := Elem "annuli" [] None bands in
      let doc := {| xml_comment := generated_comment now;
                    xml_dtd := CandidateAnnuli_XML_DTD;
                    xml_root := root |} in
      let fs := <[xml_path := doc]> fs in
      (annuli, fs, validate_dtd xml_path fs)
  end.

(** *** Lists that filters share

    A Python dictionary holds references: two filters may map to one list
    object, and [sort] then reorders it for both. In this second rendering
    of the loop of [xml_dump] the dictionary gives every filter the
    identity of its list, and the store gives every identity its list. *)
Definition shared_filters (annuli : gmap Passband nat) : list Passband :=
  py_sorted id Passband_ltb (map_to_list annuli).*1.

(** the store after [store[object].sort(...)] has left [candidates] there *)
Definition store_set (store : nat → list CandidateAnnuli) (object : nat)
    (candidates : list CandidateAnnuli) : nat → list CandidateAnnuli :=
  λ o, if decide (o = object) then candidates else store o.

Fixpoint dump_bands_shared (pfilters : list Passband) (annuli : gmap Passband nat)
    (store : nat → list CandidateAnnuli) :
    (nat → list CandidateAnnuli) * result (list Element) :=
  match pfilters with
  | [] => (store, Ok [])
  | pfilter :: pfilters' =>
      match annuli !! pfilter with
      | None => (store, Raise KeyError)
      | Some object =>
          match py_min stdev float_ltb (store object) with
          | None => (store, Raise ValueError)
          | Some best =>
              let candidates := py_sorted sort_key pair_ltb (store object) in
              let store := store_set store object candidates in
              let band_element := band_element pfilter best candidates in
              let '(store, rest) := dump_bands_shared pfilters' annuli store in
              (store, bands ← rest; Ok (band_element :: bands))
          end
      end
  end.

(** a [CandidateAnnuli] from [float(e.get(x))] for [x] in
    [aperture], [annulus], [dannulus], [stdev] *)
Definition candidate_of_attrs (e : Element) : result CandidateAnnuli :=
  ap ← py_float (Element_get e "aperture");
  an ← py_float (Element_get e "annulus");
  dan ← py_float (Element_get e "dannulus");
  sd ← py_float (Element_get e "stdev");
  Ok {| aperture := ap; annulus := an; dannulus := dan; stdev := sd |}.

(** [annuli[pfilter].append(c)] on a [defaultdict(list)] *)
Definition dict_append (annuli : annuli_dict) (pfilter : Passband)
    (c : CandidateAnnuli) : annuli_dict :=
  <[pfilter := default [] (annuli !! pfilter) ++ [c]]> annuli.

Fixpoint load_candidates (pfilter : Passband) (candidates : list Element)
    (annuli : annuli_dict) : result annuli_dict :=
  match candidates with
  | [] => Ok annuli
  | candidate :: candidates' =>
      cand ← candidate_of_attrs candidate;
      load_candidates pfilter candidates' (dict_append annuli pfilter cand)
  end.

Fixpoint load_bands (best_only : bool) (bands : list Element)
    (annuli : annuli_dict) : result annuli_dict :=
  match bands with
  | [] => Ok annuli
  | band :: bands' =>
      name ← of_option TypeError (Element_get band "name");
      pfilter ← Passband_new name;
      annuli ← (if best_only
                then best ← candidate_of_attrs band;
                     Ok (dict_append annuli pfilter best)
                else load_candidates pfilter (children band) annuli);
      load_bands best_only bands' annuli
  end.

(** what [float('%.kf' % x)] gives, and a candidate read back from the
    attributes written for it *)
Definition rounded (k : nat) (x : float) : float :=
  default x (float_of_str (fmt_f k x)).

Definition rounded_candidate (c : CandidateAnnuli) : CandidateAnnuli :=
  {| aperture := rounded 5 (aperture c);
     annulus := rounded 5 (annulus c);
     dannulus := rounded 5 (dannulus c);
     stdev := rounded 8 (stdev c) |}.

(** what [xml_load] gives for a filter whose list [xml_dump] wrote: the
    best candidate alone, or every candidate in the order of the file,
    each as read back from its attributes *)
Definition loaded_list (best_only : bool) (candidates : list CandidateAnnuli) :
    option (list CandidateAnnuli) :=
  if best_only
  then best ← py_min stdev float_ltb candidates; Some [rounded_candidate best]
  else Some (rounded_candidate <$> py_sorted sort_key pair_ltb candidates).

(** [xml_load(xml_path, best_only = False)] *)
Definition xml_load (xml_path : string) (best_only : bool) (fs : filesystem) :
    result annuli_dict :=
  doc ← of_option IOError (fs !! xml_path);
  load_bands best_only (children (xml_root doc)) ∅.

End xmlparse.

(** ** Exact decimal arithmetic as floats

    Finite floats denote rationals. This instance of [PyFloat] computes
    with the rationals themselves: ['%.kf'] rounds half to even at [k]
    decimals, [str] keeps twelve significant digits as Python 2 does, and
    [float()] reads a decimal numeral exactly. *)

Module QcFloat.

Definition pow10 (k : nat) : Z := 10 ^ Z.of_nat k.

(** the integer nearest to [n / d], ties to even; [0 <= n], [0 < d] *)
Definition round_half_even (n d : Z) : Z :=
  let q := n / d in
  let r := n mod d in
  if 2 * r <? d then q
  else if d <? 2 * r then q + 1
  else if Z.even q then q else q + 1.

(** ['%.kf' % x] *)
Definition fmt_f (k : nat) (x : Qc) : string :=
  let n := Qnum x in
  let m := round_half_even (Z.abs n * pow10 k) (Zpos (Qden x)) in
  (if n <? 0 then "-" else "")
  +:+ str_nat (m / pow10 k)
  +:+ (if k is O then "" else "." +:+ fixed_digits k m).

(** [v * 10^e] *)
Definition scale10 (v e : Z) : Q :=
  if 0 <=? e then inject_Z (v * 10 ^ e) else v # Z.to_pos (10 ^ (- e)).

(** [x * 10^k] rounded to an integer as ['%.kf'] rounds it *)
Definition rounded_digits (k : nat) (x : Qc) : Z :=
  let n := Qnum x in
  let m := round_half_even (Z.abs n * pow10 k) (Zpos (Qden x)) in
  if n <? 0 then - m else m.

(** the value of [x] rounded as ['%.kf'] prints it *)
Definition round_f (k : nat) (x : Qc) : Qc :=
  Q2Qc (scale10 (rounded_digits k x) (- Z.of_nat k)).

(** [float(s)] for numerals [[+-]digits[.digits][e[+-]digits]] *)

Fixpoint split_at (c : ascii) (s : string) : option (string * string) :=
  match s with
  | EmptyString => None
  | String a s' =>
      if Ascii.eqb a c then Some (EmptyString, s')
      else '(l, r) ← split_at c s'; Some (String a l, r)
  end.

Definition parse_sign (s : string) : bool * string :=
  match s with
  | String a s' =>
      if Ascii.eqb a "-" then (true, s')
      else if Ascii.eqb a "+" then (false, s')
      else (false, s)
  | EmptyString => (false, s)
  end.

(** digits that may be absent on one side of the point *)
Definition digits_opt (s : string) : option Z := digits_acc 0 s.

(** the digits of the mantissa as an integer, and how many follow the point *)
Definition parse_mantissa (s : string) : option (Z * nat) :=
  match split_at "." s with
  | Some (ip, fp) =>
      if String.eqb ip "" && String.eqb fp "" then None
      else i ← digits_opt ip; f ← digits_opt fp;
           Some (i * pow10 (String.length fp) + f, String.length fp)
  | None =>
      if String.eqb s "" then None else i ← digits_value s; Some (i, O)
  end.

Definition parse_exponent (s : string) : option Z :=
  let '(neg, s) := parse_sign s in
  if String.eqb s "" then None
  else e ← digits_value s; Some (if neg then - e else e).

Definition float_of_str (s : string) : option Qc :=
  let '(neg, s) := parse_sign s in
  '(m, e) ← match split_at "e" s with
            | Some (m, e) => e ← parse_exponent e; Some (m, e)
            | None => Some (s, 0)
            end;
  '(v, fd) ← parse_mantissa m;
  Some (Q2Qc (scale10 (if neg then - v else v) (e - Z.of_nat fd))).

(** [str(x)], which is ['%.12g'] with [.0] added to an integer: twelve
    significant digits, trailing zeros dropped, an exponent when the
    decimal exponent is below -4 or at least 12 *)

(** is [10^e <= n / d] ? *)
Definition pow10_le (e n d : Z) : bool :=
  if 0 <=? e then d * 10 ^ e <=? n else d <=? n * 10 ^ (- e).

(** the [e] with [10^e <= n / d < 10^(e+1)], for [0 < n], [0 < d] *)
Definition decimal_exponent (n d : Z) : Z :=
  let e := Z.of_nat (String.length (str_nat n)) - Z.of_nat (String.length (str_nat d)) in
  if pow10_le (e + 1) n d then e + 1
  else if pow10_le e n d then e
  else e - 1.

Fixpoint strip_zeros_rev (l : list ascii) : list ascii :=
  match l with
  | a :: l' => if Ascii.eqb a "0" then strip_zeros_rev l' else l
  | [] => []
  end.

Definition strip_trailing_zeros (s : string) : string :=
  string_of_list_ascii (rev (strip_zeros_rev (rev (list_ascii_of_string s)))).

Definition zeros (n : nat) : string := string_of_list_ascii (repeat "0"%char n).

Definition float_str (x : Qc) : string :=
  let n := Z.abs (Qnum x) in
  let d := Zpos (Qden x) in
  if n =? 0 then "0.0" else
  let e := decimal_exponent n d in
  (* twelve significant digits: n / d / 10^(e - 11), rounded *)
  let m := if 0 <=? e - 11 then round_half_even n (d * 10 ^ (e - 11))
           else round_half_even (n * 10 ^ (11 - e)) d in
  let '(m, e) := if m =? 10 ^ 12 then (10 ^ 11, e + 1) else (m, e) in
  let ds := strip_trailing_zeros (str_nat m) in
  let sign := if Qnum x <? 0 then "-" else "" in
  if (-4 <=? e) && (e <? 12) then
    if 0 <=? e then
      let w := Z.to_nat (e + 1) in
      let ip := substring 0 w (ds +:+ zeros (w - String.length ds)) in
      let fp := substring w (String.length ds - w) ds in
      sign +:+ ip +:+ "." +:+ (if String.eqb fp "" then "0" else fp)
    else sign +:+ "0." +:+ zeros (Z.to_nat (- e - 1)) +:+ ds
  else
    let rest := substring 1 (String.length ds - 1) ds in
    sign +:+ substring 0 1 ds +:+ (if String.eqb rest "" then "" else "." +:+ rest)
    +:+ "e" +:+ (if e <? 0 then "-" else "+") +:+ Time.pad_left 2 "0"%char (str_nat (Z.abs e)).

End QcFloat.

#[export] Instance Qc_float : PyFloat := {|
  float := Qc;
  float_ltb := λ x y, bool_decide (x < y)%Qc;
  fmt_f := QcFloat.fmt_f;
  float_str := QcFloat.float_str;
  float_of_str := QcFloat.float_of_str;
|}.

(** ** Filters known by their name

    An instance of [PassbandAPI] in which a filter is its name. *)

#[export] Instance named_Passband : PassbandAPI := {|
  Passband := string;
  Passband_new := λ name, Ok name;
  Passband_name := λ pfilter, pfilter;
  Passband_str := λ pfilter, pfilter;
  Passband_ltb := String.ltb;
|}.

(** ** The catalog model

    [astromatic.py] itself is not among the sources; its test-suite is.
    The definitions of this module follow the specification, with the
    names the test-suite uses. Numbers are exact rationals. *)

Module Catalog.

(** Modelled from the spec: the error kinds of section 7; the body of
    [astromatic.py] that raises them is missing. [ZeroDivisionError] is
    what dividing by a zero flux error gives. *)
Inductive error : Type :=
| MissingResourceError
| InvalidFormatError
| RangeError
| ZeroDivisionError.

Abbreviation outcome := (sum error).

#[export] Instance outcome_ret : MRet outcome := λ A a, inr a.
#[export] Instance outcome_bind : MBind outcome := λ A B f r,
  match r with
  | inr a => f a
  | inl e => inl e
  end.

(** Modelled from the spec: [Catalog.flag_saturated], whose body is
    missing. "flag is an 8-bit bitmask (valid domain strictly [0, 255],
    else fails with a RangeError kind). Returns true iff bit 2 (the third
    least-significant bit, value 4) is set." *)
Definition flag_saturated (flag : Z) : outcome bool :=
  if (0 <=? flag) && (flag <=? 255) then inr (Z.testbit flag 2)
  else inl RangeError.

(** the flags that [CatalogTest.test_flag_saturated] lists as saturated *)
Definition saturated_flags : list Z :=
  [4; 5; 6; 7; 12; 13; 14; 15; 20; 21; 22; 23; 28;
   29; 30; 31; 36; 37; 38; 39; 44; 45; 46; 47; 52; 53; 54; 55; 60; 61; 62;
   63; 68; 69; 70; 71; 76; 77; 78; 79; 84; 85; 86; 87; 92; 93; 94; 95;
   100; 101; 102; 103; 108; 109; 110; 111; 116; 117; 118; 119; 124; 125;
   126; 127; 132; 133; 134; 135; 140; 141; 142; 143; 148; 149; 150; 151;
   156; 157; 158; 159; 164; 165; 166; 167; 172; 173; 174; 175; 180; 181;
   182; 183; 188; 189; 190; 191; 196; 197; 198; 199; 204; 205; 206; 207;
   212; 213; 214; 215; 220; 221; 222; 223; 228; 229; 230; 231; 236; 237;
   238; 239; 244; 245; 246; 247; 252; 253; 254; 255].

(** Modelled from the spec: the record [Star], whose class is missing;
    the fields in the order the test-suite passes them. *)
Record Star : Type := {
  x : Qc; y : Qc; alpha : Qc; delta : Qc; area : Qc; mag : Qc;
  saturated : bool; snr : Qc; fwhm : Qc; elongation : Qc;
}.

(** Modelled from the spec: the canonical fields of the header, section
    4.3: coordinates x/y, right ascension, declination, isophotal area,
    magnitude, flags, flux, flux-error, FWHM-proxy, elongation. *)
Inductive column : Type :=
| X_IMAGE | Y_IMAGE | ALPHA_SKY | DELTA_SKY | ISOAREAF_IMAGE | MAG_AUTO
| FLAGS | FLUX_ISO | FLUXERR_ISO | FLUX_RADIUS | ELONGATION
| Other (name : string).

#[export] Instance column_eq_dec : EqDecision column.
Proof. solve_decision. Defined.

Definition required_columns : list column :=
  [X_IMAGE; Y_IMAGE; ALPHA_SKY; DELTA_SKY; ISOAREAF_IMAGE; MAG_AUTO;
   FLAGS; FLUX_ISO; FLUXERR_ISO; FLUX_RADIUS; ELONGATION].

(** Modelled from the spec: a line of the catalog file is a header comment
    declaring a column's ordinal position and name, or a row of numbers. *)
Inductive line : Type :=
| Header (ordinal : nat) (name : column)
| Row (cells : list Qc).

Abbreviation catalog_files := (gmap string (list line)).

Definition headers (lines : list line) : list (nat * column) :=
  omap (λ l, match l with Header n c => Some (n, c) | Row _ => None end) lines.

Definition rows (lines : list line) : list (list Qc) :=
  omap (λ l, match l with Row cells => Some cells | Header _ _ => None end) lines.

(** the index of the column that the header declares for a field *)
Fixpoint find_column (c : column) (hs : list (nat * column)) : option nat :=
  match hs with
  | [] => None
  | (n, c') :: hs' => if decide (c = c') then Some (n - 1)%nat else find_column c hs'
  end.

Definition column_of (hs : list (nat * column)) (c : column) : outcome nat :=
  match find_column c hs with
  | Some i => inr i
  | None => inl InvalidFormatError
  end.

Definition cell (cells : list Qc) (i : nat) : outcome Qc :=
  match cells !! i with
  | Some v => inr v
  | None => inl InvalidFormatError
  end.

(** an integer cell *)
Definition int_cell (cells : list Qc) (i : nat) : outcome Z :=
  v ← cell cells i;
  if decide (Qden (this v) = 1%positive) then inr (Qnum (this v))
  else inl InvalidFormatError.

Record columns : Type := {
  i_x : nat; i_y : nat; i_alpha : nat; i_delta : nat; i_area : nat;
  i_mag : nat; i_flags : nat; i_flux : nat; i_fluxerr : nat;
  i_radius : nat; i_elongation : nat;
}.

Definition find_columns (hs : list (nat * column)) : outcome columns :=
  ix ← column_of hs X_IMAGE; iy ← column_of hs Y_IMAGE;
  ia ← column_of hs ALPHA_SKY; id ← column_of hs DELTA_SKY;
  iar ← column_of hs ISOAREAF_IMAGE; im ← column_of hs MAG_AUTO;
  ifl ← column_of hs FLAGS; ifx ← column_of hs FLUX_ISO;
  ife ← column_of hs FLUXERR_ISO; ir ← column_of hs FLUX_RADIUS;
  ie ← column_of hs ELONGATION;
  inr {| i_x := ix; i_y := iy; i_alpha := ia; i_delta := id; i_area := iar;
         i_mag := im; i_flags := ifl; i_flux := ifx; i_fluxerr := ife;
         i_radius := ir; i_elongation := ie |}.

(** Modelled from the spec: "For each data row, derive: mag directly from
    the magnitude column; snr as flux divided by flux-error; fwhm as twice
    the declared FWHM-proxy column; saturated via flag_saturated(flags)." *)
Definition star_of_row (cs : columns) (cells : list Qc) : outcome Star :=
  vx ← cell cells (i_x cs); vy ← cell cells (i_y cs);
  va ← cell cells (i_alpha cs); vd ← cell cells (i_delta cs);
  var ← cell cells (i_area cs); vm ← cell cells (i_mag cs);
  flags ← int_cell cells (i_flags cs);
  sat ← flag_saturated flags;
  flux ← cell cells (i_flux cs); fluxerr ← cell cells (i_fluxerr cs);
  radius ← cell cells (i_radius cs); ve ← cell cells (i_elongation cs);
  if decide (fluxerr = 0%Qc) then inl ZeroDivisionError
  else inr {| x := vx; y := vy; alpha := va; delta := vd; area := var;
              mag := vm; saturated := sat; snr := (flux / fluxerr)%Qc;
              fwhm := (radius * Q2Qc 2)%Qc; elongation := ve |}.

(** Modelled from the spec: [Catalog(path)], whose body is missing. The
    path must exist, there must be header lines and they must declare
    every required field; then every row becomes a [Star], in order. *)
Definition Catalog_init (path : string) (fs : catalog_files) : outcome (list Star) :=
  match fs !! path with
  | None => inl MissingResourceError
  | Some lines =>
      match headers lines with
      | [] => inl InvalidFormatError
      | hs => cs ← find_columns hs; mapM (star_of_row cs) (rows lines)
      end
  end.

End Catalog.

(** ** Example data *)

Definition decimal (n : Z) (d : positive) : Qc := Q2Qc (n # d).

(** three candidates of a filter, the second with the lowest stdev, and
    not in the order of [(annulus, aperture)] *)
Definition candidate_a : CandidateAnnuli :=
  {| aperture := decimal 3 1; annulus := decimal 5 1;
     dannulus := decimal 2 1; stdev := decimal 123456789 10000000000 |}.
Definition candidate_b : CandidateAnnuli :=
  {| aperture := decimal 7 2; annulus := decimal 4 1;
     dannulus := decimal 2 1; stdev := decimal 1 300 |}.
Definition candidate_c : CandidateAnnuli :=
  {| aperture := decimal 3 1; annulus := decimal 4 1;
     dannulus := decimal 5 2; stdev := decimal 2 100 |}.

Definition example_annuli :
    gmap (@Passband named_Passband) (list (@CandidateAnnuli Qc_float)) :=
  <["V" := [candidate_a; candidate_b; candidate_c]]> {["B" := [candidate_c]]}.

(** an empty file and five offsets: one that is read back as it was
    written, one dated in the year 10000, one dated in 1899, one with a
    path that is not ASCII, one whose [x] has more than twelve significant
    digits *)
Definition empty_offsets : @XMLOffsetFile :=
  {| root := Element_new "offsets" [("size", "0")] |}.

Definition example_offset : @XMLOffset Qc_float named_Passband :=
  {| offset_reference := Some "reference.fits";
     offset_shifted := Some "shifted.fits";
     offset_filter := "V"; offset_date := 740618465;
     offset_x := decimal 15 10; offset_y := decimal (-25) 100;
     offset_x_overlap := 12; offset_y_overlap := 9 |}.

Definition late_offset : @XMLOffset Qc_float named_Passband :=
  {| offset_reference := Some "reference.fits";
     offset_shifted := Some "shifted.fits";
     offset_filter := "V"; offset_date := 253402300800;
     offset_x := decimal 15 10; offset_y := decimal (-25) 100;
     offset_x_overlap := 12; offset_y_overlap := 9 |}.

Definition early_offset : @XMLOffset Qc_float named_Passband :=
  {| offset_reference := Some "reference.fits";
     offset_shifted := Some "shifted.fits";
     offset_filter := "V"; offset_date := -2208988801;
     offset_x := decimal 15 10; offset_y := decimal (-25) 100;
     offset_x_overlap := 12; offset_y_overlap := 9 |}.

(** a path with the byte 233, an accented letter in Latin-1 *)
Definition accented_offset : @XMLOffset Qc_float named_Passband :=
  {| offset_reference := Some ("caf" +:+ String (ascii_of_nat 233) ".fits");
     offset_shifted := Some "shifted.fits";
     offset_filter := "V"; offset_date := 740618465;
     offset_x := decimal 15 10; offset_y := decimal (-25) 100;
     offset_x_overlap := 12; offset_y_overlap := 9 |}.

Definition fine_offset : @XMLOffset Qc_float named_Passband :=
  {| offset_reference := Some "reference.fits";
     offset_shifted := Some "shifted.fits";
     offset_filter := "V"; offset_date := 740618465;
     offset_x := decimal 1099511627777 1099511627776;   (* 1 + 2^-40 *)
     offset_y := decimal (-25) 100;
     offset_x_overlap := 12; offset_y_overlap := 9 |}.

(** a file with two offsets *)
Definition two_offsets : @XMLOffsetFile :=
  (XMLOffsetFile_add (XMLOffsetFile_add empty_offsets example_offset).1
     fine_offset).1.

(** a candidate with the [(annulus, aperture)] of [candidate_c], and a
    mapping in which it comes before [candidate_c], a candidate with a
    higher key between them *)
Definition candidate_d : @CandidateAnnuli Qc_float :=
  {| aperture := decimal 3 1; annulus := decimal 4 1;
     dannulus := decimal 3 1; stdev := decimal 3 100 |}.

Definition tied_annuli :
    gmap (@Passband named_Passband) (list (@CandidateAnnuli Qc_float)) :=
  {["V" := [candidate_d; candidate_a; candidate_c]]}.

(** two filters with one list object, in which the first and the last
    candidate have the lowest stdev *)
Definition candidate_e : @CandidateAnnuli Qc_float :=
  {| aperture := decimal 2 1; annulus := decimal 6 1;
     dannulus := decimal 2 1; stdev := decimal 1 300 |}.

Definition shared_annuli : gmap (@Passband named_Passband) nat :=
  <["B" := 0%nat]> {["V" := 0%nat]}.

Definition shared_store (object : nat) : list (@CandidateAnnuli Qc_float) :=
  [candidate_e; candidate_a; candidate_b].

(** the example mapping with an empty list for V *)
Definition annuli_with_empty :
    gmap (@Passband named_Passband) (list (@CandidateAnnuli Qc_float)) :=
  <["V" := []]> example_annuli.

(** a document with two bands of the filter V *)
Definition two_bands : XMLFile :=
  {| xml_comment := "";
     xml_dtd := @CandidateAnnuli_XML_DTD;
     xml_root := Elem "annuli" [] None
       [@band_element Qc_float named_Passband "V" candidate_b [];
        @band_element Qc_float named_Passband "V" candidate_c []] |}.

(** Modelled from the spec: a catalog in the layout of section 4.3, a
    header line per column and then the rows; the test data files are not
    among the sources. *)
Definition sample_header : list Catalog.line :=
  [Catalog.Header 1 (Catalog.Other "NUMBER");
   Catalog.Header 2 Catalog.X_IMAGE;
   Catalog.Header 3 Catalog.Y_IMAGE;
   Catalog.Header 4 Catalog.ALPHA_SKY;
   Catalog.Header 5 Catalog.DELTA_SKY;
   Catalog.Header 6 Catalog.ISOAREAF_IMAGE;
   Catalog.Header 7 Catalog.MAG_AUTO;
   Catalog.Header 8 Catalog.FLUX_ISO;
   Catalog.Header 9 Catalog.FLUXERR_ISO;
   Catalog.Header 10 Catalog.FLUX_RADIUS;
   Catalog.Header 11 Catalog.FLAGS;
   Catalog.Header 12 Catalog.ELONGATION].

(** the first and the last row that [CatalogTest.test_init] looks at *)
Definition sample_rows : list Catalog.line :=
  [Catalog.Row [decimal 1 1; decimal 844359 1000; decimal 434109 1000;
                decimal 1002910553 10000000; decimal 94697032 10000000;
                decimal 8085 1; decimal 82460 10000; decimal 8545557 1;
                decimal 1281109 100; decimal 6334 1000; decimal 0 1;
                decimal 1562 1000];
   Catalog.Row [decimal 127 1; decimal 107033 1000; decimal 1953500 1000;
                decimal 1001971009 10000000; decimal 92796855 10000000;
                decimal 10 1; decimal 159567 10000; decimal 3833773 1000;
                decimal 4505532 10000; decimal 1206 1000; decimal 4 1;
                decimal 1613 1000]].

(** the three files of [CatalogTest]: complete, with the header cut short
    (no [FLUX_RADIUS], [FLAGS] and [ELONGATION]), and without header *)
Definition sample_files : Catalog.catalog_files :=
  <["sextractor.cat" := sample_header ++ sample_rows]>
  (<["sextractor_incomplete.cat" := take 9 sample_header ++ sample_rows]>
  {["sextractor_noasciihead.cat" := sample_rows]}).

(** the stars of the two rows *)
Definition sample_stars : list Catalog.Star :=
  [{| Catalog.x := decimal 844359 1000; Catalog.y := decimal 434109 1000;
      Catalog.alpha := decimal 1002910553 10000000;
      Catalog.delta := decimal 94697032 10000000;
      Catalog.area := decimal 8085 1; Catalog.mag := decimal 82460 10000;
      Catalog.saturated := false;
      Catalog.snr := (decimal 8545557 1 / decimal 1281109 100)%Qc;
      Catalog.fwhm := (decimal 6334 1000 * Q2Qc 2)%Qc;
      Catalog.elongation := decimal 1562 1000 |};
   {| Catalog.x := decimal 107033 1000; Catalog.y := decimal 1953500 1000;
      Catalog.alpha := decimal 1001971009 10000000;
      Catalog.delta := decimal 92796855 10000000;
      Catalog.area := decimal 10 1; Catalog.mag := decimal 159567 10000;
      Catalog.saturated := true;
      Catalog.snr := (decimal 3833773 1000 / decimal 4505532 10000)%Qc;
      Catalog.fwhm := (decimal 1206 1000 * Q2Qc 2)%Qc;
      Catalog.elongation := decimal 1613 1000 |}].

(** ** Predicates that the properties are stated with *)

(** one call of [add] after another, until one raises *)
Fixpoint add_all `{PyFloat} `{PassbandAPI} (self : XMLOffsetFile)
    (offsets : list XMLOffset) : XMLOffsetFile * result unit :=
  match offsets with
  | [] => (self, Ok tt)
  | offset :: offsets' =>
      match XMLOffsetFile_add self offset with
      | (self', Ok _) => add_all self' offsets'
      | (self', Raise e) => (self', Raise e)
      end
  end.

(** a text that lxml accepts: a compatible string, or [None] *)
Definition text_ok (s : option string) : bool := from_option xml_compatible true s.

(** a broken-down time with another daylight-saving flag *)
Definition with_isdst (tm : Time.struct_time) (isdst : Z) : Time.struct_time :=
  {| Time.tm_year := Time.tm_year tm; Time.tm_mon := Time.tm_mon tm;
     Time.tm_mday := Time.tm_mday tm; Time.tm_hour := Time.tm_hour tm;
     Time.tm_min := Time.tm_min tm; Time.tm_sec := Time.tm_sec tm;
     Time.tm_wday := Time.tm_wday tm; Time.tm_yday := Time.tm_yday tm;
     Time.tm_isdst := isdst |}.

(** the sequences of names that a content model stands for *)
Inductive lang : particle → list string → Prop :=
| lang_eps : lang P_eps []
| lang_name n : lang (P_name n) [n]
| lang_seq a b l1 l2 : lang a l1 → lang b l2 → lang (P_seq a b) (l1 ++ l2)
| lang_alt_l a b l : lang a l → lang (P_alt a b) l
| lang_alt_r a b l : lang b l → lang (P_alt a b) l
| lang_star_nil a : lang (P_star a) []
| lang_star_cons a l1 l2 :
    lang a l1 → lang (P_star a) l2 → lang (P_star a) (l1 ++ l2)
| lang_plus a l1 l2 :
    lang a l1 → lang (P_star a) l2 → lang (P_plus a) (l1 ++ l2).

(** a string of decimal digits *)
Fixpoint digits_only (s : string) : Prop :=
  match s with
  | EmptyString => True
  | String c s' => is_Some (digit_of c) ∧ digits_only s'
  end.

(** a string in which the character [c] does not occur *)
Fixpoint no_char (c : ascii) (s : string) : Prop :=
  match s with
  | EmptyString => True
  | String a s' => a ≠ c ∧ no_char c s'
  end.

(** the first way a parser matches *)
Definition starts_with {A} (l : list A) (x : A) : Prop := ∃ tl, l = x :: tl.

(** what [XMLOffsetFile()] and [add] keep true of the root *)
Definition well_formed (self : XMLOffsetFile) : Prop :=
  tag (root self) = "offsets" ∧ text (root self) = None ∧
  (∃ size, attrib (root self) = [("size", size)]) ∧
  Forall (λ e, tag e = "offset" ∧ valid_element XMLOffsetFile_XML_DTD e = true)
         (children (root self)).

(** a band whose attributes give the filter and the candidate of an entry *)
Definition band_entry `{PyFloat} `{PassbandAPI} (band : Element)
    (entry : Passband * CandidateAnnuli) : Prop :=
  ∃ name, Element_get band "name" = Some name ∧
          Passband_new name = Ok entry.1 ∧
          candidate_of_attrs band = Ok entry.2.

(** ** Checks of a range of integers by evaluation *)

(** [P] holds of the [n] integers from [lo] on, as a check and as a
    proposition *)
Fixpoint forall_from (P : Z → bool) (n : nat) (lo : Z) : bool :=
  match n with
  | O => true
  | S n' => P lo && forall_from P n' (lo + 1)
  end.

Fixpoint Forall_from (P : Z → Prop) (n : nat) (lo : Z) : Prop :=
  match n with
  | O => True
  | S n' => P lo ∧ Forall_from P n' (lo + 1)
  end.

(** one era of 400 years, day by day *)
Definition era_ok (doe : Z) : bool :=
  let '(y, m, d) := Time.civil_from_days (doe - 719468) in
  (1 <=? m) && (m <=? 12) && (1 <=? d) && (d <=? Time.days_in_month y m)
  && (Time.ymd2ord y m d =? doe - 305).

(** the year and what follows it: a closed text, checked year by year *)
Definition year_ok (y : Z) : bool :=
  (String.length (str_int y) =? 4)%nat
  && match Time.p_ws (" " +:+ str_int y +:+ " UTC") with
     | (_, s1) :: _ =>
         String.eqb s1 (str_int y +:+ " UTC")
         && match Time.p_Y s1 with
            | (y', s2) :: _ => (y' =? y) && String.eqb s2 " UTC"
            | [] => false
            end
     | [] => false
     end.

(** * Properties *)

(** ** Checking a finite range by evaluation *)

Lemma forallb_seqZ (P : Z → bool) (lo n : Z) :
  forallb P (seqZ lo n) = true → ∀ z, lo ≤ z < lo + n → P z = true.
Proof.
  intros Hall z Hz. rewrite forallb_forall in Hall.
  apply Hall, list_elem_of_In, elem_of_seqZ. lia.
Qed.

(** ** The built-ins [min] and [sort] *)

Section builtins_facts.
Context {A K : Type} (key : A → K) (ltb : K → K → bool).

#[local] Abbreviation kle := (key_le key ltb).

Lemma sort_insert_perm (a : A) (l : list A) :
  sort_insert key ltb a l ≡ₚ a :: l.
Proof.
  induction l as [|b l IH]; simpl; [done|].
  destruct (ltb (key b) (key a)); [|done].
  rewrite IH. apply Permutation_swap.
Qed.

Lemma py_sorted_perm (l : list A) : py_sorted key ltb l ≡ₚ l.
Proof.
  induction l as [|a l IH]; simpl; [done|].
  by rewrite sort_insert_perm, IH.
Qed.

Lemma py_sorted_nil (l : list A) : py_sorted key ltb l = [] → l = [].
Proof.
  intros Hs. apply Permutation_nil_r. rewrite <- Hs.
  symmetry. apply py_sorted_perm.
Qed.

(** sorting a list that is in order leaves it as it is *)
Lemma py_sorted_Sorted_id (l : list A) :
  Sorted kle l → py_sorted key ltb l = l.
Proof.
  induction 1 as [|a l Hl IH Hhd]; [done|].
  cbn [py_sorted foldr]. fold (py_sorted key ltb l). rewrite IH.
  destruct Hhd as [|b l' Hab]; [done|].
  cbn [sort_insert]. unfold key_le in Hab. by rewrite Hab.
Qed.

Hypothesis ltb_irrefl : ∀ x, ltb x x = false.
Hypothesis ltb_trans : ∀ x y z, ltb x y = true → ltb y z = true → ltb x z = true.

Lemma ltb_asym (x y : K) : ltb x y = true → ltb y x = false.
Proof.
  intros Hxy. destruct (ltb y x) eqn:Hyx; [|done].
  by rewrite <- (ltb_irrefl x), (ltb_trans _ _ _ Hxy Hyx).
Qed.

Lemma sort_insert_sorted (a : A) (l : list A) :
  Sorted kle l → Sorted kle (sort_insert key ltb a l).
Proof.
  induction l as [|b l IH]; simpl; intros Hs.
  - by repeat constructor.
  - destruct (ltb (key b) (key a)) eqn:Hba.
    + apply Sorted_inv in Hs as [Hs Hhd]. constructor; [by apply IH|].
      destruct l as [|c l]; simpl.
      * constructor. by apply ltb_asym.
      * destruct (ltb (key c) (key a)); constructor.
        -- by apply HdRel_inv in Hhd.
        -- by apply ltb_asym.
    + constructor; [done|]. by constructor.
Qed.

Lemma py_sorted_sorted (l : list A) : Sorted kle (py_sorted key ltb l).
Proof.
  induction l as [|a l IH]; simpl; [constructor|].
  by apply sort_insert_sorted.
Qed.

Abbreviation fold_min l a :=
  (fold_left (λ best c, if ltb (key c) (key best) then c else best) l a).

Lemma fold_min_below (l : list A) (a c : A) :
  kle a c → kle (fold_min l a) c.
Proof.
  revert a. induction l as [|b l IH]; intros a Hc; simpl; [done|].
  apply IH. destruct (ltb (key b) (key a)) eqn:Hba; [|done].
  unfold kle in *. destruct (ltb (key c) (key b)) eqn:Hcb; [|done].
  by rewrite (ltb_trans _ _ _ Hcb Hba) in Hc.
Qed.

Lemma fold_min_elem (l : list A) (a : A) : fold_min l a ∈ a :: l.
Proof.
  revert a. induction l as [|b l IH]; intros a; simpl; [by left|].
  destruct (ltb (key b) (key a)).
  - right. apply IH.
  - specialize (IH a). apply elem_of_cons in IH as [->|?]; [by left|].
    by do 2 right.
Qed.

Lemma fold_min_least (l : list A) (a c : A) :
  c ∈ a :: l → kle (fold_min l a) c.
Proof.
  revert a. induction l as [|b l IH]; intros a Hc.
  - apply list_elem_of_singleton in Hc as ->. apply ltb_irrefl.
  - apply elem_of_cons in Hc as [->|Hc].
    + apply fold_min_below, ltb_irrefl.
    + simpl. destruct (ltb (key b) (key a)) eqn:Hba; [by apply IH|].
      apply elem_of_cons in Hc as [->|Hc].
      * by apply fold_min_below.
      * apply IH. by right.
Qed.

(** [min] returns an element of the list that no element is below *)
Lemma py_min_spec (l : list A) (best : A) :
  py_min key ltb l = Some best →
  best ∈ l ∧ ∀ c, c ∈ l → kle best c.
Proof.
  destruct l as [|a l]; simpl; [done|]. intros [= <-].
  split; [apply fold_min_elem|]. intros c. apply fold_min_least.
Qed.

Lemma py_min_is_Some (l : list A) : l ≠ [] → is_Some (py_min key ltb l).
Proof. destruct l; [done|]. by eexists. Qed.

Lemma py_min_None (l : list A) : py_min key ltb l = None → l = [].
Proof. by destruct l. Qed.

End builtins_facts.

(** ** [Catalog.flag_saturated] *)

Lemma testbit_2_land_4 (flag : Z) :
  0 ≤ flag ≤ 255 → Z.testbit flag 2 = negb (Z.land flag 4 =? 0).
Proof.
  intros Hflag.
  pose proof (forallb_seqZ
    (λ f, bool_decide (Z.testbit f 2 = negb (Z.land f 4 =? 0))) 0 256) as Hb.
  specialize (Hb ltac:(by vm_compute) flag ltac:(lia)).
  by apply bool_decide_eq_true_1 in Hb.
Qed.

Lemma saturated_flags_land_4 (flag : Z) :
  0 ≤ flag ≤ 255 →
  negb (Z.land flag 4 =? 0) = bool_decide (flag ∈ Catalog.saturated_flags).
Proof.
  intros Hflag.
  pose proof (forallb_seqZ (λ f, bool_decide (negb (Z.land f 4 =? 0)
    = bool_decide (f ∈ Catalog.saturated_flags))) 0 256) as Hb.
  specialize (Hb ltac:(by vm_compute) flag ltac:(lia)).
  by apply bool_decide_eq_true_1 in Hb.
Qed.

(** C2. For a flag in [0, 255], [flag_saturated] returns whether
    [flag & 4] is not zero, which is the case exactly for the flags that
    the test-suite lists as saturated; for a flag outside [0, 255] it fails
    with [RangeError]. *)
Theorem flag_saturated_spec (flag : Z) :
  (0 ≤ flag ≤ 255 →
     Catalog.flag_saturated flag = inr (negb (Z.land flag 4 =? 0)) ∧
     (negb (Z.land flag 4 =? 0) = true ↔ flag ∈ Catalog.saturated_flags)) ∧
  (¬ 0 ≤ flag ≤ 255 → Catalog.flag_saturated flag = inl Catalog.RangeError).
Proof.
  unfold Catalog.flag_saturated. split.
  - intros Hflag.
    replace ((0 <=? flag) && (flag <=? 255)) with true by lia.
    split; [by rewrite testbit_2_land_4|].
    rewrite saturated_flags_land_4 by done. apply bool_decide_eq_true.
  - intros Hflag.
    by replace ((0 <=? flag) && (flag <=? 255)) with false by lia.
Qed.

Lemma flag_saturated_spec_witness :
  Catalog.flag_saturated 6 = inr true ∧
  Catalog.flag_saturated 3 = inr false ∧
  Catalog.flag_saturated 256 = inl Catalog.RangeError ∧
  Catalog.flag_saturated (-1) = inl Catalog.RangeError.
Proof.
  split; [|split; [|split]].
  - apply (proj1 (proj1 (flag_saturated_spec 6) ltac:(lia))).
  - apply (proj1 (proj1 (flag_saturated_spec 3) ltac:(lia))).
  - apply (proj2 (flag_saturated_spec 256)). lia.
  - apply (proj2 (flag_saturated_spec (-1))). lia.
Defined.

(** ** [XMLOffsetFile]: an empty file cannot be dumped *)

Section offsets_empty.
Context `{PyFloat} `{PassbandAPI}.

(** C10. A freshly constructed [XMLOffsetFile] holds no offsets, and
    [dump] on it writes the file and then raises the validation error:
    the DTD declares the root with the content [(offset+)], which no
    empty list of children follows. *)
Theorem dump_empty_raises (path : string) (now : Z) (fs : filesystem) :
  ∃ self,
    XMLOffsetFile_init None fs = Ok self ∧
    XMLOffsetFile_len self = 0 ∧
    find_decl "offsets" (element_decls XMLOffsetFile_XML_DTD)
      = Some (Children (P_plus (P_name "offset"))) ∧
    matches (P_plus (P_name "offset")) (tag <$> children (root self)) = false ∧
    XMLOffsetFile_dump self path now fs
      = (<[path := XMLOffsetFile_toxml self now]> fs, Raise XMLSyntaxError).
Proof.
  eexists. split; [reflexivity|]. repeat split.
  unfold XMLOffsetFile_dump, validate_dtd. by rewrite lookup_insert_eq.
Qed.

End offsets_empty.

(** ** Content models: what [matches] accepts *)

Lemma lang_nullable (p : particle) : lang p [] → nullable p = true.
Proof.
  intros Hl. remember [] as l eqn:El.
  induction Hl; simpl; try done.
  - apply app_eq_nil in El as [-> ->]. by rewrite IHHl1, IHHl2.
  - by rewrite IHHl.
  - rewrite IHHl by done. apply orb_true_r.
  - apply app_eq_nil in El as [-> ->]. by apply IHHl1.
Qed.

Lemma lang_deriv (p : particle) (x : string) (l : list string) :
  lang p (x :: l) → lang (deriv x p) l.
Proof.
  intros Hl. remember (x :: l) as xl eqn:El. revert l El.
  induction Hl as [|n|a b l1 l2 Ha IHa Hb IHb|a b k Ha IHa|a b k Hb IHb|
                   a|a l1 l2 Ha IHa Hs IHs|a l1 l2 Ha IHa Hs IHs];
    intros l El; simpl; try done.
  - injection El as <- <-. rewrite String.eqb_refl. constructor.
  - destruct l1 as [|y l1]; simpl in El.
    + rewrite (lang_nullable a) by done. apply lang_alt_r. by apply IHb.
    + injection El as -> <-.
      assert (lang (P_seq (deriv x a) b) (l1 ++ l2)) as Hseq
        by (constructor; [by apply IHa|done]).
      destruct (nullable a); [by apply lang_alt_l|done].
  - apply lang_alt_l. by apply IHa.
  - apply lang_alt_r. by apply IHb.
  - destruct l1 as [|y l1]; simpl in El.
    + by apply IHs.
    + injection El as -> <-. constructor; [by apply IHa|done].
  - destruct l1 as [|y l1]; simpl in El.
    + (* the first repetition is empty: the rest is a repetition too *)
      by apply (IHs l).
    + injection El as -> <-. constructor; [by apply IHa|done].
Qed.

Lemma lang_matches (p : particle) (l : list string) :
  lang p l → matches p l = true.
Proof.
  revert p. induction l as [|x l IH]; intros p Hl; simpl.
  - by apply lang_nullable.
  - by apply IH, lang_deriv.
Qed.

Lemma lang_star_names (n : string) (l : list string) :
  Forall (λ x, x = n) l → lang (P_star (P_name n)) l.
Proof.
  induction 1 as [|x l -> _ IH]; [constructor|].
  apply (lang_star_cons _ [n] l); [constructor|done].
Qed.

(** ** [CandidateAnnuli.xml_dump] and [xml_load] *)

Section annuli_facts.
Context `{PyFloat} `{PassbandAPI}.

#[local] Abbreviation annuli_dict := (gmap Passband (list CandidateAnnuli)).
#[local] Abbreviation sorted_candidates := (py_sorted sort_key pair_ltb).

Lemma sorted_filters_perm (annuli : annuli_dict) :
  sorted_filters annuli ≡ₚ (map_to_list annuli).*1.
Proof. apply py_sorted_perm. Qed.

Lemma sorted_filters_NoDup (annuli : annuli_dict) : NoDup (sorted_filters annuli).
Proof.
  rewrite sorted_filters_perm. apply NoDup_fst_map_to_list.
Qed.

Lemma elem_of_sorted_filters (annuli : annuli_dict) (k : Passband) :
  k ∈ sorted_filters annuli ↔ is_Some (annuli !! k).
Proof.
  rewrite sorted_filters_perm, list_elem_of_fmap. split.
  - intros [[k' l] [-> Hin]]. apply elem_of_map_to_list in Hin. by eexists.
  - intros [l Hl]. exists (k, l). by rewrite elem_of_map_to_list.
Qed.

Lemma band_of_insert_ne (annuli : annuli_dict) k k' l :
  k ≠ k' → band_of (<[k := l]> annuli) k' = band_of annuli k'.
Proof. intros Hne. unfold band_of. by rewrite lookup_insert_ne. Qed.

Lemma Forall2_band_of_insert (annuli : annuli_dict) k l ks bands :
  k ∉ ks →
  Forall2 (λ k' b, band_of (<[k := l]> annuli) k' = Some b) ks bands →
  Forall2 (λ k' b, band_of annuli k' = Some b) ks bands.
Proof.
  intros Hk Hall. induction Hall as [|k' b ks bands Hb _ IH]; [constructor|].
  apply not_elem_of_cons in Hk as [Hne Hk].
  constructor; [by rewrite band_of_insert_ne in Hb|by apply IH].
Qed.

(** The loop of [xml_dump]: filters it does not visit keep their list; if
    it completes, it has appended the band of every filter, in order, and
    every list it visited is sorted in place. *)
Lemma dump_bands_spec (ks : list Passband) (annuli annuli' : annuli_dict) r :
  NoDup ks → dump_bands ks annuli = (annuli', r) →
  (∀ k, k ∉ ks → annuli' !! k = annuli !! k) ∧
  ∀ bands, r = Ok bands →
    Forall2 (λ k b, band_of annuli k = Some b) ks bands ∧
    ∀ k, k ∈ ks → annuli' !! k = sorted_candidates <$> annuli !! k.
Proof.
  intros Hnd. revert annuli annuli' r.
  induction Hnd as [|k ks Hk Hnd IH]; intros annuli annuli' r; simpl.
  - intros [= <- <-]. split; [done|]. intros bands [= <-].
    split; [constructor|]. by intros k ?%elem_of_nil.
  - destruct (annuli !! k) as [cands|] eqn:Hcands; cycle 1.
    { intros [= <- <-]. by split. }
    destruct (py_min stdev float_ltb cands) as [best|] eqn:Hbest; cycle 1.
    { intros [= <- <-]. by split. }
    destruct (dump_bands ks _) as [annuli2 rest] eqn:Hrest.
    intros [= <- <-]. apply IH in Hrest as [Hframe Hok]. split.
    + intros k' [Hne Hk']%not_elem_of_cons.
      by rewrite Hframe, lookup_insert_ne.
    + intros bands Hbands. destruct rest as [bands'|e]; [|done].
      injection Hbands as <-. destruct (Hok bands' eq_refl) as [Hall Hsorted].
      split.
      * constructor; [|by apply Forall2_band_of_insert in Hall].
        unfold band_of. by rewrite Hcands; simpl; rewrite Hbest.
      * intros k' [->|Hk']%elem_of_cons.
        -- by rewrite Hframe, lookup_insert_eq, Hcands.
        -- rewrite Hsorted, lookup_insert_ne; [done| |done].
           by intros ->.
Qed.

Lemma dump_bands_Ok (ks : list Passband) (annuli : annuli_dict) :
  NoDup ks →
  (∀ k, k ∈ ks → ∃ l, annuli !! k = Some l ∧ l ≠ []) →
  ∃ annuli' bands, dump_bands ks annuli = (annuli', Ok bands).
Proof.
  intros Hnd. revert annuli.
  induction Hnd as [|k ks Hk Hnd IH]; intros annuli Hall; simpl; [by eauto|].
  destruct (Hall k) as (l & -> & Hl); [by left|].
  destruct (py_min_is_Some stdev float_ltb l Hl) as [best ->].
  destruct (IH (<[k := sorted_candidates l]> annuli)) as (annuli' & bands & ->);
    [|by eauto].
  intros k' Hk'. destruct (Hall k') as (l' & Hl' & Hne); [by right|].
  exists l'. split; [|done]. rewrite lookup_insert_ne; [done|]. by intros ->.
Qed.

(** every band and the root that [xml_dump] builds follow the DTD *)
Lemma band_element_valid k best cands :
  valid_element CandidateAnnuli_XML_DTD (band_element k best cands) = true.
Proof.
  unfold band_element. cbn [valid_element CandidateAnnuli_XML_DTD
    find_decl element_decls String.eqb Ascii.eqb Bool.eqb].
  apply andb_true_intro; split; [apply andb_true_intro; split|].
  - cbn [content_ok blank andb]. apply lang_matches, lang_star_names.
    rewrite <- list_fmap_compose. by apply Forall_fmap, Forall_true.
  - reflexivity.
  - apply forallb_forall. intros e [c [<- _]]%in_map_iff. reflexivity.
Qed.

Lemma band_of_valid (annuli : annuli_dict) k band :
  band_of annuli k = Some band →
  tag band = "band" ∧ valid_element CandidateAnnuli_XML_DTD band = true.
Proof.
  unfold band_of. destruct (annuli !! k) as [l|]; [simpl|done].
  destruct (py_min _ _ l); [simpl|done]. intros [= <-].
  split; [done|apply band_element_valid].
Qed.

Lemma annuli_document_valid (annuli : annuli_dict) ks bands comment :
  Forall2 (λ k b, band_of annuli k = Some b) ks bands →
  valid_document {| xml_comment := comment;
                    xml_dtd := CandidateAnnuli_XML_DTD;
                    xml_root := Elem "annuli" [] None bands |} = true.
Proof.
  intros Hall. unfold valid_document.
  cbn [xml_root xml_dtd tag doctype CandidateAnnuli_XML_DTD String.eqb
       Ascii.eqb Bool.eqb andb valid_element find_decl element_decls].
  apply andb_true_intro; split; [apply andb_true_intro; split|].
  - cbn [content_ok blank andb]. apply lang_matches, lang_star_names.
    apply Forall_fmap. induction Hall as [|k b ks bands Hb _ IH]; [done|].
    constructor; [by apply band_of_valid in Hb as [? _]|done].
  - reflexivity.
  - apply forallb_forall. intros b Hb%list_elem_of_In.
    induction Hall as [|k b' ks bands Hb' _ IH]; [by apply elem_of_nil in Hb|].
    apply elem_of_cons in Hb as [->|Hb]; [|by apply IH].
    by apply band_of_valid in Hb' as [_ ?].
Qed.

(** What a call of [xml_dump] that returns has done. *)
Lemma xml_dump_spec path (annuli annuli' : annuli_dict) now (fs fs' : filesystem) :
  xml_dump path annuli now fs = (annuli', fs', Ok tt) →
  annuli' = sorted_candidates <$> annuli ∧
  ∃ bands,
    Forall2 (λ k b, band_of annuli k = Some b) (sorted_filters annuli) bands ∧
    fs' = <[path := {| xml_comment := generated_comment now;
                       xml_dtd := CandidateAnnuli_XML_DTD;
                       xml_root := Elem "annuli" [] None bands |}]> fs.
Proof.
  unfold xml_dump.
  destruct (dump_bands _ annuli) as [annuli2 [bands|e]] eqn:Hdump; [|done].
  intros [= <- <- _].
  apply dump_bands_spec in Hdump as [Hframe Hok]; [|apply sorted_filters_NoDup].
  destruct (Hok bands eq_refl) as [Hall Hsorted]. split; [|by eauto].
  apply map_eq. intros k. rewrite lookup_fmap.
  destruct (decide (k ∈ sorted_filters annuli)) as [Hk|Hk]; [by apply Hsorted|].
  rewrite Hframe by done.
  rewrite elem_of_sorted_filters, <- eq_None_not_Some in Hk. by rewrite Hk.
Qed.

(** [xml_dump] returns when no filter has an empty list. *)
Lemma xml_dump_Ok path (annuli : annuli_dict) now (fs : filesystem) :
  (∀ k l, annuli !! k = Some l → l ≠ []) →
  ∃ annuli' fs', xml_dump path annuli now fs = (annuli', fs', Ok tt).
Proof.
  intros Hne.
  destruct (dump_bands_Ok (sorted_filters annuli) annuli) as (annuli' & bands & Hdump).
  { apply sorted_filters_NoDup. }
  { intros k [l Hl]%elem_of_sorted_filters. by eauto. }
  unfold xml_dump. rewrite Hdump.
  apply dump_bands_spec in Hdump as [_ Hok]; [|apply sorted_filters_NoDup].
  destruct (Hok bands eq_refl) as [Hall _].
  do 2 eexists. unfold validate_dtd. rewrite lookup_insert_eq. simpl.
  by rewrite (annuli_document_valid annuli _ _ _ Hall).
Qed.

(** *** With lawful floats *)

Context (float_laws : PyFloatLaws).

Lemma pair_ltb_irrefl (a : float * float) : pair_ltb a a = false.
Proof.
  unfold pair_ltb. rewrite decide_True by done. apply float_laws.
Qed.

Lemma float_lt_ne (x y : float) : float_ltb x y = true → x ≠ y.
Proof. intros Hlt ->. by rewrite (float_lt_irrefl float_laws) in Hlt. Qed.

Lemma pair_ltb_trans (a b c : float * float) :
  pair_ltb a b = true → pair_ltb b c = true → pair_ltb a c = true.
Proof.
  pose proof (float_lt_trans float_laws) as Htrans.
  unfold pair_ltb.
  destruct (decide (a.1 = b.1)) as [Eab|Nab], (decide (b.1 = c.1)) as [Ebc|Nbc].
  - rewrite decide_True by congruence. apply Htrans.
  - rewrite decide_False by congruence. rewrite Eab. by intros _ ?.
  - rewrite decide_False by congruence. rewrite <- Ebc. by intros ? _.
  - intros Hab Hbc. pose proof (Htrans _ _ _ Hab Hbc) as Hac.
    by rewrite decide_False by by apply float_lt_ne.
Qed.

Lemma sorted_candidates_Sorted (l : list CandidateAnnuli) :
  Sorted (key_le sort_key pair_ltb) (sorted_candidates l).
Proof. apply py_sorted_sorted; [apply pair_ltb_irrefl|apply pair_ltb_trans]. Qed.

Lemma min_stdev_spec (l : list CandidateAnnuli) (best : CandidateAnnuli) :
  py_min stdev float_ltb l = Some best →
  best ∈ l ∧ ∀ c, c ∈ l → key_le stdev float_ltb best c.
Proof. apply py_min_spec; apply float_laws. Qed.

Lemma float_parse_rounded (k : nat) (x : float) :
  float_of_str (fmt_f k x) = Some (rounded k x).
Proof.
  unfold rounded. by destruct (float_fmt_parse float_laws k x) as [x' ->].
Qed.

Lemma rounded_mono (k : nat) (x y : float) :
  float_ltb y x = false → float_ltb (rounded k y) (rounded k x) = false.
Proof.
  apply (float_round_mono float_laws k x y); apply float_parse_rounded.
Qed.

Lemma candidate_of_attrs_candidate (c : CandidateAnnuli) :
  candidate_of_attrs (candidate_element c) = Ok (rounded_candidate c).
Proof.
  unfold candidate_of_attrs, Element_get, py_float, candidate_element, Element_new.
  cbn [attrib candidate_kwargs assoc String.eqb Ascii.eqb Bool.eqb of_option mbind
       result_bind].
  by rewrite !float_parse_rounded.
Qed.

Lemma candidate_of_attrs_band k best cands :
  candidate_of_attrs (band_element k best cands) = Ok (rounded_candidate best).
Proof.
  unfold candidate_of_attrs, Element_get, py_float, band_element.
  cbn [attrib candidate_kwargs assoc String.eqb Ascii.eqb Bool.eqb of_option mbind
       result_bind].
  by rewrite !float_parse_rounded.
Qed.

(** *** Reading back what [xml_dump] wrote *)

Context (Passband_name_new : ∀ pfilter, Passband_new (Passband_name pfilter) = Ok pfilter).

Lemma load_candidates_spec k cs (m : annuli_dict) :
  load_candidates k (candidate_element <$> cs) m
  = Ok (if cs is [] then m
        else <[k := default [] (m !! k) ++ (rounded_candidate <$> cs)]> m).
Proof.
  revert m. induction cs as [|c cs IH]; intros m; [done|].
  cbn [fmap list_fmap load_candidates]. rewrite candidate_of_attrs_candidate.
  cbn [mbind result_bind]. rewrite IH. f_equal. destruct cs as [|c' cs]; [done|].
  unfold dict_append. rewrite lookup_insert_eq, insert_insert_eq. cbn [default].
  unfold id. by rewrite <- app_assoc.
Qed.

Lemma Element_get_band_name k best cands :
  Element_get (band_element k best cands) "name" = Some (Passband_name k).
Proof. reflexivity. Qed.

Lemma load_bands_cons (best_only : bool) k best cands bands (acc : annuli_dict) :
  load_bands best_only (band_element k best cands :: bands) acc
  = (acc ← (if best_only
            then Ok (dict_append acc k (rounded_candidate best))
            else load_candidates k (candidate_element <$> cands) acc);
     load_bands best_only bands acc).
Proof.
  cbn [load_bands]. rewrite Element_get_band_name. cbn [of_option mbind result_bind].
  rewrite Passband_name_new. cbn [mbind result_bind].
  destruct best_only; [|done]. by rewrite candidate_of_attrs_band.
Qed.

Lemma load_bands_spec (best_only : bool) (annuli : annuli_dict) ks bands
    (acc : annuli_dict) :
  NoDup ks → (∀ k, k ∈ ks → acc !! k = None) →
  Forall2 (λ k b, band_of annuli k = Some b) ks bands →
  ∃ m, load_bands best_only bands acc = Ok m ∧
    ∀ k, m !! k = if decide (k ∈ ks) then annuli !! k ≫= loaded_list best_only
                  else acc !! k.
Proof.
  intros Hnd Hacc Hall. revert acc Hacc.
  induction Hall as [|k band ks bands Hband Hall IH]; intros acc Hacc.
  { exists acc. split; [done|]. intros k. by rewrite decide_False by apply not_elem_of_nil. }
  apply NoDup_cons in Hnd as [Hk Hnd].
  unfold band_of in Hband.
  destruct (annuli !! k) as [l|] eqn:Hl; [|done]. cbn [mbind option_bind] in Hband.
  destruct (py_min stdev float_ltb l) as [best|] eqn:Hbest; [|done].
  injection Hband as <-.
  assert (acc !! k = None) as Hacck by (apply Hacc; by left).
  assert (∃ v, loaded_list best_only l = Some v ∧
    (if best_only
     then Ok (dict_append acc k (rounded_candidate best))
     else load_candidates k (candidate_element <$> sorted_candidates l) acc)
    = Ok (<[k := v]> acc)) as (v & Hv & Hstep).
  { unfold loaded_list. destruct best_only.
    - rewrite Hbest. eexists. split; [done|].
      unfold dict_append. by rewrite Hacck.
    - rewrite load_candidates_spec, Hacck.
      eexists. split; [done|].
      destruct (sorted_candidates l) eqn:Hs; [|done].
      by apply py_sorted_nil in Hs as ->. }
  destruct (IH Hnd (<[k := v]> acc)) as (m & Hm & Hlookup).
  { intros k' Hk'. rewrite lookup_insert_ne; [apply Hacc; by right|].
    by intros ->. }
  exists m. split; [by rewrite load_bands_cons, Hstep|].
  intros k'. rewrite Hlookup. destruct (decide (k' = k)) as [->|Hne].
  - rewrite decide_False, decide_True by (done || by left).
    by rewrite lookup_insert_eq, Hl.
  - rewrite lookup_insert_ne by done.
    destruct (decide (k' ∈ ks)) as [Hin|Hin].
    + by rewrite decide_True by by right.
    + rewrite decide_False; [done|]. by intros [?|?]%elem_of_cons.
Qed.

(** [xml_load] on a file that [xml_dump] has just written *)
Lemma xml_load_dump (best_only : bool) path (annuli annuli' : annuli_dict) now
    (fs fs' : filesystem) :
  xml_dump path annuli now fs = (annuli', fs', Ok tt) →
  xml_load path best_only fs' = Ok (omap (loaded_list best_only) annuli).
Proof.
  intros (_ & bands & Hall & ->)%xml_dump_spec.
  unfold xml_load. rewrite lookup_insert_eq. cbn [of_option mbind result_bind xml_root children].
  destruct (load_bands_spec best_only annuli _ _ ∅ (sorted_filters_NoDup annuli)
              (λ k _, lookup_empty k) Hall) as (m & -> & Hm).
  f_equal. apply map_eq. intros k. rewrite Hm, lookup_omap.
  destruct (decide (k ∈ sorted_filters annuli)) as [Hk|Hk]; [done|].
  rewrite elem_of_sorted_filters, <- eq_None_not_Some in Hk. by rewrite Hk.
Qed.

(** C4. In the document that [xml_dump] writes there is one band per
    filter, in the order of the sorted filters. The attributes of a band
    are the filter's name and the aperture, annulus, dannulus (5 decimals)
    and stdev (8 decimals) of a candidate of the filter that no candidate
    of the filter has a lower stdev than; its children are the candidates
    of the filter, all of them, sorted by [(annulus, aperture)]. *)
Theorem xml_dump_document path (annuli annuli' : annuli_dict) now
    (fs fs' : filesystem) :
  xml_dump path annuli now fs = (annuli', fs', Ok tt) →
  ∃ doc,
    fs' !! path = Some doc ∧
    tag (xml_root doc) = "annuli" ∧
    sorted_filters annuli ≡ₚ (map_to_list annuli).*1 ∧
    Forall2 (λ pfilter band, ∃ candidates best sorted,
        annuli !! pfilter = Some candidates ∧
        best ∈ candidates ∧
        (∀ c, c ∈ candidates → float_ltb (stdev c) (stdev best) = false) ∧
        tag band = "band" ∧
        attrib band = [("name", Passband_name pfilter);
                       ("aperture", fmt_f 5 (aperture best));
                       ("annulus", fmt_f 5 (annulus best));
                       ("dannulus", fmt_f 5 (dannulus best));
                       ("stdev", fmt_f 8 (stdev best))] ∧
        sorted ≡ₚ candidates ∧
        Sorted (key_le sort_key pair_ltb) sorted ∧
        children band = (λ c, Element_new "candidate"
                           [("aperture", fmt_f 5 (aperture c));
                            ("annulus", fmt_f 5 (annulus c));
                            ("dannulus", fmt_f 5 (dannulus c));
                            ("stdev", fmt_f 8 (stdev c))]) <$> sorted)
      (sorted_filters annuli) (children (xml_root doc)).
Proof.
  intros (_ & bands & Hall & ->)%xml_dump_spec.
  eexists. split; [apply lookup_insert_eq|]. split; [done|].
  split; [apply sorted_filters_perm|]. cbn [xml_root children].
  eapply Forall2_impl; [exact Hall|]. intros k band Hband.
  unfold band_of in Hband.
  destruct (annuli !! k) as [l|]; [|done]. cbn [mbind option_bind] in Hband.
  destruct (py_min stdev float_ltb l) as [best|] eqn:Hbest; [|done].
  injection Hband as <-. apply min_stdev_spec in Hbest as [Hin Hmin].
  exists l, best, (sorted_candidates l).
  repeat split; try done.
  - apply py_sorted_perm.
  - apply sorted_candidates_Sorted.
Qed.

(** C9, as the code has it. A call of [xml_dump] that returns has written
    at its path a document that follows the DTD, with one band per filter,
    and has changed nothing else in the file system. It has left the
    dictionary with the same filters, each with the same candidates, now
    sorted by [(annulus, aperture)]: the list of a filter is as the
    caller had it exactly when it was in that order before the call. *)
Theorem xml_dump_effect path (annuli annuli' : annuli_dict) now
    (fs fs' : filesystem) :
  xml_dump path annuli now fs = (annuli', fs', Ok tt) →
  (∃ doc, fs' !! path = Some doc ∧
          xml_dtd doc = CandidateAnnuli_XML_DTD ∧
          tag (xml_root doc) = "annuli" ∧
          length (children (xml_root doc)) = length (sorted_filters annuli) ∧
          valid_document doc = true) ∧
  (∀ p, p ≠ path → fs' !! p = fs !! p) ∧
  dom annuli' = dom annuli ∧
  ∀ pfilter candidates, annuli !! pfilter = Some candidates →
    ∃ sorted,
      annuli' !! pfilter = Some sorted ∧
      sorted = py_sorted sort_key pair_ltb candidates ∧
      sorted ≡ₚ candidates ∧
      Sorted (key_le sort_key pair_ltb) sorted ∧
      (sorted = candidates ↔ Sorted (key_le sort_key pair_ltb) candidates).
Proof.
  intros (-> & bands & Hall & ->)%xml_dump_spec. split; [|split; [|split]].
  - eexists. split; [apply lookup_insert_eq|]. split; [done|]. split; [done|].
    split; [symmetry; exact (Forall2_length _ _ _ Hall)|].
    by eapply annuli_document_valid.
  - intros p Hp. by rewrite lookup_insert_ne.
  - apply dom_fmap_L.
  - intros k l Hl. exists (sorted_candidates l).
    rewrite lookup_fmap, Hl. split; [done|]. split; [done|].
    split; [apply py_sorted_perm|]. split; [apply sorted_candidates_Sorted|].
    split.
    + intros <-. apply sorted_candidates_Sorted.
    + apply py_sorted_Sorted_id.
Qed.


(** C5. On a file that [xml_dump] has written, [xml_load] with
    [best_only] and without it return dictionaries with the same filters,
    and the list that [best_only] gives for a filter has one element,
    which is in the full list of the filter and has a stdev that none in
    the full list is below. *)
Theorem xml_load_best_only path (annuli annuli' : annuli_dict) now
    (fs fs' : filesystem) :
  xml_dump path annuli now fs = (annuli', fs', Ok tt) →
  ∃ best full,
    xml_load path true fs' = Ok best ∧
    xml_load path false fs' = Ok full ∧
    dom best = dom annuli ∧ dom full = dom annuli ∧
    ∀ pfilter candidates, full !! pfilter = Some candidates →
      ∃ b, best !! pfilter = Some [b] ∧
           b ∈ candidates ∧
           ∀ c, c ∈ candidates → float_ltb (stdev c) (stdev b) = false.
Proof.
  intros Hdump.
  pose proof (xml_load_dump true _ _ _ _ _ _ Hdump) as Hbest.
  pose proof (xml_load_dump false _ _ _ _ _ _ Hdump) as Hfull.
  apply xml_dump_spec in Hdump as (_ & bands & Hall & _).
  assert (∀ k l, annuli !! k = Some l → is_Some (py_min stdev float_ltb l)) as Hmin.
  { intros k l Hl.
    assert (k ∈ sorted_filters annuli) as Hk by (rewrite elem_of_sorted_filters; eauto).
    clear -Hall Hk Hl. induction Hall as [|k' b ks bs Hb _ IH]; [by apply elem_of_nil in Hk|].
    apply elem_of_cons in Hk as [->|Hk]; [|by apply IH].
    unfold band_of in Hb. rewrite Hl in Hb. cbn [mbind option_bind] in Hb.
    by destruct (py_min stdev float_ltb l). }
  do 2 eexists. split; [done|]. split; [done|]. split; [|split].
  - apply set_eq. intros k. rewrite !elem_of_dom, lookup_omap.
    destruct (annuli !! k) as [l|] eqn:Hl; [|done]. cbn [mbind option_bind loaded_list].
    destruct (Hmin k l Hl) as [b ->]. split; eauto.
  - apply set_eq. intros k. rewrite !elem_of_dom, lookup_omap.
    by destruct (annuli !! k).
  - intros k l'. rewrite !lookup_omap.
    destruct (annuli !! k) as [l|] eqn:Hl; [|done]. cbn [mbind option_bind loaded_list].
    intros [= <-]. destruct (Hmin k l Hl) as [b Hb]. rewrite Hb.
    apply min_stdev_spec in Hb as [Hin Hleast].
    exists (rounded_candidate b). split; [done|]. split.
    + apply list_elem_of_fmap. exists b. split; [done|].
      by rewrite py_sorted_perm.
    + intros c' (c & -> & Hc)%list_elem_of_fmap. rewrite py_sorted_perm in Hc.
      cbn [stdev rounded_candidate]. apply rounded_mono. by apply Hleast.
Qed.

End annuli_facts.

(** ** Decimal numerals *)

Lemma digit_of_char (d : Z) : 0 ≤ d ≤ 9 → digit_of (digit_char d) = Some d.
Proof.
  intros Hd.
  pose proof (forallb_seqZ (λ d, bool_decide (digit_of (digit_char d) = Some d)) 0 10) as Hb.
  specialize (Hb ltac:(by vm_compute) d ltac:(lia)).
  by apply bool_decide_eq_true_1 in Hb.
Qed.

Lemma fixed_digits_only (k : nat) (n : Z) : digits_only (fixed_digits k n).
Proof.
  induction k as [|k IH]; simpl; [done|]. split; [|done].
  rewrite digit_of_char; [by eexists|].
  pose proof (Z.mod_pos_bound (n / 10 ^ Z.of_nat k) 10). lia.
Qed.

Lemma fixed_digits_length (k : nat) (n : Z) : String.length (fixed_digits k n) = k.
Proof. induction k as [|k IH]; simpl; [done|]. by rewrite IH. Qed.

Lemma digits_acc_fixed (k : nat) (n acc : Z) :
  digits_acc acc (fixed_digits k n) = Some (acc * 10 ^ Z.of_nat k + n mod 10 ^ Z.of_nat k).
Proof.
  revert acc. induction k as [|k IH]; intros acc.
  - cbn [fixed_digits digits_acc]. f_equal.
    change (10 ^ Z.of_nat 0) with 1. rewrite Z.mod_1_r. lia.
  - cbn [fixed_digits digits_acc].
    rewrite digit_of_char
      by (pose proof (Z.mod_pos_bound (n / 10 ^ Z.of_nat k) 10); lia).
    cbn [mbind option_bind]. rewrite IH. f_equal.
    rewrite Nat2Z.inj_succ, Z.pow_succ_r by lia.
    assert (0 < 10 ^ Z.of_nat k) as Hpos by (apply Z.pow_pos_nonneg; lia).
    replace (10 * 10 ^ Z.of_nat k) with (10 ^ Z.of_nat k * 10) by lia.
    rewrite (Z.rem_mul_r n (10 ^ Z.of_nat k) 10) by lia. lia.
Qed.

Lemma strip_zeros_only (s : string) : digits_only s → digits_only (strip_zeros s).
Proof.
  induction s as [|a s IH]; simpl; [done|]. intros [Ha Hs].
  destruct (Ascii.eqb a "0" && negb (String.eqb s "")); [by apply IH|done].
Qed.

Lemma strip_zeros_nonempty (s : string) : s ≠ "" → strip_zeros s ≠ "".
Proof.
  induction s as [|a s IH]; simpl; [done|]. intros _.
  destruct (Ascii.eqb a "0"); simpl; [|done].
  destruct (String.eqb_spec s ""); simpl; [done|by apply IH].
Qed.

Lemma digits_acc_strip (s : string) : digits_acc 0 (strip_zeros s) = digits_acc 0 s.
Proof.
  induction s as [|a s IH]; simpl; [done|].
  destruct (Ascii.eqb_spec a "0") as [->|]; simpl; [|done].
  by destruct (String.eqb s ""); simpl.
Qed.

Lemma str_nat_only (n : Z) : digits_only (str_nat n).
Proof. apply strip_zeros_only, fixed_digits_only. Qed.

Lemma str_nat_nonempty (n : Z) : str_nat n ≠ "".
Proof. by apply strip_zeros_nonempty. Qed.

Lemma digits_acc_str_nat (n : Z) : 0 ≤ n → digits_acc 0 (str_nat n) = Some n.
Proof.
  intros Hn. unfold str_nat. rewrite digits_acc_strip, digits_acc_fixed.
  f_equal. rewrite Z.mod_small; [lia|]. split; [done|].
  destruct (decide (n = 0)) as [->|Hne]; [done|].
  pose proof (Z.log2_spec n ltac:(lia)) as [_ Hlt].
  pose proof (Z.log2_nonneg n).
  replace (Z.of_nat (S (Z.to_nat (Z.log2 n)))) with (Z.succ (Z.log2 n)) by lia.
  eapply Z.lt_le_trans; [exact Hlt|]. apply Z.pow_le_mono_l. lia.
Qed.

Lemma digits_value_str_nat (n : Z) : 0 ≤ n → digits_value (str_nat n) = Some n.
Proof.
  intros Hn. unfold digits_value.
  destruct (String.eqb_spec (str_nat n) "") as [E|_]; [by apply str_nat_nonempty in E|].
  by apply digits_acc_str_nat.
Qed.

(** C1 uses this for the overlap counts: [int(str(n)) = n] *)
Lemma int_of_str_int (n : Z) : int_of_str (str_int n) = Some n.
Proof.
  unfold str_int, int_of_str. destruct (Z.ltb_spec n 0) as [Hn|Hn].
  - cbv beta iota. rewrite Ascii.eqb_refl, digits_value_str_nat by lia.
    cbn [fmap option_fmap option_map]. f_equal. lia.
  - pose proof (str_nat_only n) as Hd. pose proof (digits_value_str_nat n Hn) as Hv.
    destruct (str_nat n) as [|a s] eqn:E; [done|].
    destruct (Ascii.eqb_spec a "-") as [->|]; [|done].
    by destruct Hd as [[? [=]] _].
Qed.

(** ** The exact decimal floats are lawful *)

Lemma digits_only_no_char (c : ascii) (s : string) :
  digit_of c = None → digits_only s → no_char c s.
Proof.
  intros Hc. induction s as [|a s IH]; [done|]. intros [[d Ha] Hs].
  split; [|by apply IH]. intros ->. congruence.
Qed.

Lemma append_nil_l (s : string) : "" +:+ s = s.
Proof. reflexivity. Qed.

Lemma append_cons (a : ascii) (s t : string) : String a s +:+ t = String a (s +:+ t).
Proof. reflexivity. Qed.

Lemma append_empty_r (s : string) : s +:+ "" = s.
Proof. induction s as [|a s IH]; [done|]. by rewrite append_cons, IH. Qed.

Lemma no_char_app (c : ascii) (s1 s2 : string) :
  no_char c s1 → no_char c s2 → no_char c (s1 +:+ s2).
Proof.
  intros H1 H2. induction s1 as [|a s1 IH]; [done|].
  destruct H1 as [Ha H1]. rewrite append_cons. split; [done|by apply IH].
Qed.

Lemma split_at_no_char (c : ascii) (s : string) :
  no_char c s → QcFloat.split_at c s = None.
Proof.
  induction s as [|a s IH]; [done|]. intros [Ha Hs].
  cbn [QcFloat.split_at]. destruct (Ascii.eqb_spec a c) as [|_]; [done|].
  by rewrite IH.
Qed.

Lemma split_at_app (c : ascii) (s1 s2 : string) :
  no_char c s1 → QcFloat.split_at c (s1 +:+ String c s2) = Some (s1, s2).
Proof.
  induction s1 as [|a s1 IH].
  - intros _. rewrite append_nil_l. cbn [QcFloat.split_at]. by rewrite Ascii.eqb_refl.
  - intros [Ha Hs]. rewrite append_cons. cbn [QcFloat.split_at].
    destruct (Ascii.eqb_spec a c) as [|_]; [done|]. by rewrite IH.
Qed.

Lemma parse_sign_digits (s : string) :
  s ≠ "" → digits_only s → ∀ t, QcFloat.parse_sign (s +:+ t) = (false, s +:+ t).
Proof.
  destruct s as [|a s]; [done|]. intros _ [[d Ha] _] t.
  rewrite append_cons. cbn [QcFloat.parse_sign].
  destruct (Ascii.eqb_spec a "-") as [->|_]; [done|].
  by destruct (Ascii.eqb_spec a "+") as [->|_].
Qed.

Lemma parse_mantissa_fmt (k : nat) (m : Z) :
  0 ≤ m →
  QcFloat.parse_mantissa
    (str_nat (m / QcFloat.pow10 k) +:+ (if k is O then "" else "." +:+ fixed_digits k m))
  = Some (m, k).
Proof.
  intros Hm. unfold QcFloat.parse_mantissa, QcFloat.pow10.
  assert (0 < 10 ^ Z.of_nat k) as Hpos by (apply Z.pow_pos_nonneg; lia).
  assert (0 ≤ m / 10 ^ Z.of_nat k) as Hq by (apply Z.div_pos; lia).
  pose proof (Z.div_mod m (10 ^ Z.of_nat k) ltac:(lia)) as Hdm.
  remember (10 ^ Z.of_nat k) as p eqn:Ep.
  pose proof (str_nat_nonempty (m / p)) as Hne.
  pose proof (str_nat_only (m / p)) as Hd.
  pose proof (digits_acc_str_nat (m / p) Hq) as Hacc.
  pose proof (digits_value_str_nat (m / p) Hq) as Hval.
  generalize dependent (str_nat (m / p)). intros ip Hne Hd Hacc Hval.
  destruct k as [|k].
  - rewrite append_empty_r.
    rewrite (split_at_no_char "." ip) by (apply digits_only_no_char; [reflexivity|exact Hd]).
    destruct (String.eqb_spec ip "") as [E|_]; [exfalso; exact (Hne E)|].
    rewrite Hval. cbn [mbind option_bind]. do 2 f_equal.
    change (10 ^ Z.of_nat 0) with 1 in Ep. subst p.
    rewrite Z.div_1_r. reflexivity.
  - rewrite append_cons, append_nil_l.
    rewrite (split_at_app "." ip) by (apply digits_only_no_char; [reflexivity|exact Hd]).
    destruct (String.eqb_spec ip "") as [E|_]; [exfalso; exact (Hne E)|].
    cbn [andb]. unfold QcFloat.digits_opt.
    rewrite Hacc, digits_acc_fixed.
    cbn [mbind option_bind]. rewrite fixed_digits_length. f_equal. f_equal.
    rewrite Z.mul_0_l, Z.add_0_l, <- Ep. lia.
Qed.

Lemma float_of_str_fmt (neg : bool) (k : nat) (m : Z) :
  0 ≤ m →
  QcFloat.float_of_str
    ((if neg then "-" else "") +:+ str_nat (m / QcFloat.pow10 k)
     +:+ (if k is O then "" else "." +:+ fixed_digits k m))
  = Some (Q2Qc (QcFloat.scale10 (if neg then - m else m) (- Z.of_nat k))).
Proof.
  intros Hm. unfold QcFloat.float_of_str.
  set (body := str_nat _ +:+ _).
  assert (QcFloat.parse_sign ((if neg then "-" else "") +:+ body) = (neg, body)) as ->.
  { destruct neg; [done|]. rewrite append_nil_l.
    apply parse_sign_digits; [apply str_nat_nonempty|apply str_nat_only]. }
  assert (no_char "e" body) as He.
  { apply no_char_app; [by apply digits_only_no_char, str_nat_only|].
    destruct k; [done|]. rewrite append_cons, append_nil_l. split; [done|].
    by apply digits_only_no_char, fixed_digits_only. }
  rewrite split_at_no_char by done. cbn [mbind option_bind].
  unfold body. rewrite parse_mantissa_fmt by done. cbn [mbind option_bind].
  reflexivity.
Qed.

(** rounding half to even: within a half, ties to even, monotone *)

Lemma round_half_even_spec (n d : Z) :
  0 < d →
  let z := QcFloat.round_half_even n d in
  2 * n - d ≤ 2 * (z * d) ≤ 2 * n + d ∧
  (2 * (z * d) = 2 * n + d → Z.even z = true) ∧
  (2 * (z * d) = 2 * n - d → Z.even z = true).
Proof.
  intros Hd. unfold QcFloat.round_half_even.
  pose proof (Z.div_mod n d ltac:(lia)) as Hn.
  pose proof (Z.mod_pos_bound n d Hd) as Hr.
  set (q := n / d) in *. set (r := n mod d) in *.
  assert (q * d = n - r) as Hqd by lia.
  assert ((q + 1) * d = n - r + d) as Hqd1 by lia.
  destruct (Z.ltb_spec (2 * r) d) as [Hlt|Hge]; cbv zeta.
  { rewrite Hqd. repeat split; lia. }
  destruct (Z.ltb_spec d (2 * r)) as [Hgt|Hle].
  { rewrite Hqd1. repeat split; lia. }
  destruct (Z.even q) eqn:Heven.
  { rewrite Hqd. repeat split; try lia; done. }
  rewrite Hqd1. repeat split; try lia.
  all: intros _; by rewrite Z.add_1_r, Z.even_succ, <- Z.negb_even, Heven.
Qed.

Lemma round_half_even_nonneg (n d : Z) :
  0 ≤ n → 0 < d → 0 ≤ QcFloat.round_half_even n d.
Proof.
  intros Hn Hd. unfold QcFloat.round_half_even.
  assert (0 ≤ n / d) by (apply Z.div_pos; lia).
  repeat case_match; lia.
Qed.

Lemma round_half_even_mono (n1 d1 n2 d2 : Z) :
  0 < d1 → 0 < d2 → n1 * d2 ≤ n2 * d1 →
  QcFloat.round_half_even n1 d1 ≤ QcFloat.round_half_even n2 d2.
Proof.
  intros Hd1 Hd2 Hle.
  destruct (round_half_even_spec n1 d1 Hd1) as ([_ Hup] & Heven1 & _).
  destruct (round_half_even_spec n2 d2 Hd2) as ([Hlow _] & _ & Heven2).
  set (z1 := QcFloat.round_half_even n1 d1) in *.
  set (z2 := QcFloat.round_half_even n2 d2) in *.
  destruct (Z.le_gt_cases z1 z2) as [|Hgt]; [done|exfalso].
  (* (2 z1 - 1) d1 d2 <= 2 n1 d2 <= 2 n2 d1 <= (2 z2 + 1) d1 d2 *)
  assert ((2 * z1 - 1) * (d1 * d2) ≤ (2 * z2 + 1) * (d1 * d2)) as Hchain by nia.
  assert (0 < d1 * d2) as Hdd by nia.
  assert (2 * z1 - 1 ≤ 2 * z2 + 1) as Hz by nia.
  assert (z1 = z2 + 1) as Hz1 by lia.
  assert (2 * (z1 * d1) = 2 * n1 + d1) as Htie1 by nia.
  assert (2 * (z2 * d2) = 2 * n2 - d2) as Htie2 by nia.
  specialize (Heven1 Htie1). specialize (Heven2 Htie2).
  rewrite Hz1, Z.add_1_r, Z.even_succ, <- Z.negb_even, Heven2 in Heven1. done.
Qed.

Lemma rounded_digits_mono (k : nat) (x y : Qc) :
  (x <= y)%Qc → QcFloat.rounded_digits k x ≤ QcFloat.rounded_digits k y.
Proof.
  unfold Qcle, Qle, QcFloat.rounded_digits, QcFloat.pow10.
  destruct x as [[nx dx] ?], y as [[ny dy] ?]. cbn [this Qnum Qden].
  intros Hle.
  assert (0 < 10 ^ Z.of_nat k) as Hp by (apply Z.pow_pos_nonneg; lia).
  set (p := 10 ^ Z.of_nat k) in *.
  pose proof (round_half_even_nonneg (Z.abs nx * p) (Z.pos dx) ltac:(nia) ltac:(lia)).
  pose proof (round_half_even_nonneg (Z.abs ny * p) (Z.pos dy) ltac:(nia) ltac:(lia)).
  destruct (Z.ltb_spec nx 0), (Z.ltb_spec ny 0); [|lia|nia|].
  - apply Z.opp_le_mono. rewrite !Z.opp_involutive.
    apply round_half_even_mono; [lia..|]. nia.
  - apply round_half_even_mono; [lia..|]. nia.
Qed.

Lemma scale10_mono (v1 v2 e : Z) :
  v1 ≤ v2 → (QcFloat.scale10 v1 e <= QcFloat.scale10 v2 e)%Q.
Proof.
  intros Hv. unfold QcFloat.scale10. destruct (Z.leb_spec 0 e).
  - rewrite <- Zle_Qle. apply Z.mul_le_mono_nonneg_r; [|done].
    apply Z.pow_nonneg. lia.
  - unfold Qle. cbn [Qnum Qden]. nia.
Qed.

Lemma float_of_str_fmt_f (k : nat) (x : Qc) :
  QcFloat.float_of_str (QcFloat.fmt_f k x) = Some (QcFloat.round_f k x).
Proof.
  unfold QcFloat.fmt_f, QcFloat.round_f, QcFloat.rounded_digits.
  assert (0 < 10 ^ Z.of_nat k) as Hp by (apply Z.pow_pos_nonneg; lia).
  pose proof (round_half_even_nonneg (Z.abs (Qnum x) * QcFloat.pow10 k)
    (Z.pos (Qden x)) ltac:(unfold QcFloat.pow10; nia) ltac:(lia)) as Hm.
  cbv zeta. set (m := QcFloat.round_half_even _ _) in *.
  rewrite (float_of_str_fmt (Qnum x <? 0) k m Hm). reflexivity.
Qed.

Lemma round_f_mono (k : nat) (x y : Qc) :
  (x <= y)%Qc → (QcFloat.round_f k x <= QcFloat.round_f k y)%Qc.
Proof.
  intros Hle. unfold QcFloat.round_f, Qcle. cbn [this Q2Qc].
  rewrite !Qred_correct. by apply scale10_mono, rounded_digits_mono.
Qed.

(** The laws hold for the exact decimal floats. *)
Lemma Qc_float_laws : @PyFloatLaws Qc_float.
Proof.
  split; cbn [float float_ltb fmt_f float_of_str Qc_float].
  - intros x. apply bool_decide_eq_false. apply Qcle_not_lt, Qcle_refl.
  - intros x y z Hxy%bool_decide_eq_true Hyz%bool_decide_eq_true.
    apply bool_decide_eq_true. by eapply Qclt_trans.
  - intros x y. destruct (Qclt_le_dec x y) as [Hlt|Hle].
    + left. by apply bool_decide_eq_true.
    + right. apply Qcle_lt_or_eq in Hle as [Hlt| ->]; [right|by left].
      by apply bool_decide_eq_true.
  - intros k x. rewrite float_of_str_fmt_f. by eexists.
  - intros k x y x' y'. rewrite !float_of_str_fmt_f. intros [= <-] [= <-].
    intros Hyx%bool_decide_eq_false%Qcnot_lt_le.
    apply bool_decide_eq_false, Qcle_not_lt. by apply round_f_mono.
Qed.

(** ** The annuli theorems at the example data *)

Lemma example_annuli_nonempty pfilter candidates :
  example_annuli !! pfilter = Some candidates → candidates ≠ [].
Proof.
  unfold example_annuli. intros [[_ <-]|[_ Hl]]%lookup_insert_Some; [done|].
  by apply lookup_singleton_Some in Hl as [_ <-].
Qed.

Lemma example_annuli_V :
  example_annuli !! "V" = Some [candidate_a; candidate_b; candidate_c].
Proof. apply lookup_insert_eq. Qed.

Lemma example_annuli_dump :
  xml_dump "annuli.xml" example_annuli 0 ∅
  = ((xml_dump "annuli.xml" example_annuli 0 ∅).1.1,
     (xml_dump "annuli.xml" example_annuli 0 ∅).1.2, Ok tt).
Proof.
  destruct (xml_dump_Ok "annuli.xml" example_annuli 0 ∅ example_annuli_nonempty)
    as (annuli' & fs' & ->).
  reflexivity.
Qed.

Lemma example_annuli_sorted :
  py_sorted sort_key pair_ltb [candidate_a; candidate_b; candidate_c]
  = [candidate_c; candidate_b; candidate_a].
Proof. reflexivity. Qed.

Lemma xml_dump_document_witness :
  ∃ doc,
    (xml_dump "annuli.xml" example_annuli 0 ∅).1.2 !! "annuli.xml" = Some doc ∧
    tag (xml_root doc) = "annuli" ∧
    length (children (xml_root doc)) = length (sorted_filters example_annuli).
Proof.
  destruct (xml_dump_document Qc_float_laws "annuli.xml" example_annuli _ 0 ∅ _
              example_annuli_dump) as (doc & Hdoc & Htag & _ & Hbands).
  exists doc. split; [exact Hdoc|]. split; [exact Htag|].
  symmetry. exact (Forall2_length _ _ _ Hbands).
Defined.

Lemma xml_dump_effect_witness :
  (xml_dump "annuli.xml" example_annuli 0 ∅).1.1 !! "V"
  = Some [candidate_c; candidate_b; candidate_a].
Proof.
  destruct (xml_dump_effect Qc_float_laws "annuli.xml" example_annuli _ 0 ∅ _
              example_annuli_dump) as (_ & _ & _ & Hlists).
  destruct (Hlists "V" _ example_annuli_V) as (sorted & Hlookup & Hsorted & _).
  rewrite <- example_annuli_sorted, <- Hsorted. exact Hlookup.
Defined.

(** C9 as stated fails: the call reorders the caller's list of a filter. *)
Lemma xml_dump_reorders_lists :
  (xml_dump "annuli.xml" example_annuli 0 ∅).2 = Ok tt ∧
  example_annuli !! "V" = Some [candidate_a; candidate_b; candidate_c] ∧
  (xml_dump "annuli.xml" example_annuli 0 ∅).1.1 !! "V"
    = Some [candidate_c; candidate_b; candidate_a] ∧
  (xml_dump "annuli.xml" example_annuli 0 ∅).1.1 ≠ example_annuli.
Proof.
  pose proof example_annuli_dump as Hdump.
  assert ((xml_dump "annuli.xml" example_annuli 0 ∅).1.1 !! "V"
          = Some [candidate_c; candidate_b; candidate_a]) as Hafter.
  { apply xml_dump_spec in Hdump as [-> _].
    by rewrite lookup_fmap, example_annuli_V, <- example_annuli_sorted. }
  split; [by rewrite Hdump|]. split; [exact example_annuli_V|].
  split; [exact Hafter|].
  intros Heq. rewrite Heq, example_annuli_V in Hafter. discriminate Hafter.
Qed.


Lemma xml_load_best_only_witness :
  ∃ best,
    xml_load "annuli.xml" true (xml_dump "annuli.xml" example_annuli 0 ∅).1.2
      = Ok best ∧
    dom best = dom example_annuli.
Proof.
  destruct (@xml_load_best_only Qc_float named_Passband Qc_float_laws
              (λ pfilter, eq_refl) "annuli.xml" example_annuli _ 0 ∅ _
              example_annuli_dump)
    as (best & full & Hbest & _ & Hdom & _).
  exists best. split; [exact Hbest|exact Hdom].
Defined.

(** ** The calendar: [gmtime] and [timegm] *)

Lemma forall_from_spec (P : Z → bool) (n : nat) (lo : Z) :
  forall_from P n lo = true → ∀ z, lo ≤ z < lo + Z.of_nat n → P z = true.
Proof.
  revert lo. induction n as [|n IH]; intros lo Hall z Hz; [lia|].
  cbn [forall_from] in Hall. apply andb_true_iff in Hall as [Hlo Hall].
  destruct (decide (z = lo)) as [->|]; [done|]. apply (IH (lo + 1)); [done|lia].
Qed.

Lemma era_check : forall_from era_ok (Z.to_nat 146097) 0 = true.
Proof. vm_compute. reflexivity. Qed.

Lemma days_before_year_shift (y e : Z) :
  Time.days_before_year (y + 400 * e) = Time.days_before_year y + 146097 * e.
Proof. unfold Time.days_before_year. Z.div_mod_to_equations. lia. Qed.

Lemma is_leap_shift (y e : Z) : Time.is_leap (y + 400 * e) = Time.is_leap y.
Proof.
  unfold Time.is_leap.
  replace ((y + 400 * e) mod 4) with (y mod 4) by (Z.div_mod_to_equations; lia).
  replace ((y + 400 * e) mod 100) with (y mod 100) by (Z.div_mod_to_equations; lia).
  replace ((y + 400 * e) mod 400) with (y mod 400) by (Z.div_mod_to_equations; lia).
  reflexivity.
Qed.

Lemma civil_from_days_era (z : Z) :
  Time.civil_from_days z =
  let '(y, m, d) := Time.civil_from_days ((z + 719468) mod 146097 - 719468) in
  (y + 400 * ((z + 719468) / 146097), m, d).
Proof.
  unfold Time.civil_from_days. cbv zeta.
  replace ((z + 719468) mod 146097 - 719468 + 719468)
    with ((z + 719468) mod 146097) by lia.
  rewrite Z.mod_mod by lia.
  rewrite (Z.div_small ((z + 719468) mod 146097) 146097)
    by (apply Z.mod_pos_bound; lia).
  f_equal. f_equal. lia.
Qed.

(** [gmtime] gives a date of the calendar, the one with that ordinal *)
Lemma civil_from_days_spec (z y m d : Z) :
  Time.civil_from_days z = (y, m, d) →
  1 ≤ m ≤ 12 ∧ 1 ≤ d ≤ Time.days_in_month y m ∧
  Time.ymd2ord y m d = z + Time.EPOCH_ORD.
Proof.
  rewrite civil_from_days_era.
  pose proof (Z.mod_pos_bound (z + 719468) 146097 ltac:(lia)) as Hdoe.
  pose proof (Z.div_mod (z + 719468) 146097 ltac:(lia)) as Hz.
  pose proof (forall_from_spec _ _ _ era_check ((z + 719468) mod 146097)
                ltac:(lia)) as Hok.
  unfold era_ok in Hok.
  destruct (Time.civil_from_days _) as [[y0 m0] d0].
  intros [= <- <- <-].
  repeat (apply andb_true_iff in Hok as [Hok ?]).
  unfold Time.ymd2ord, Time.days_in_month, Time.days_before_month in *.
  rewrite is_leap_shift, days_before_year_shift. unfold Time.EPOCH_ORD. lia.
Qed.

Lemma days_before_year_succ (y : Z) :
  Time.days_before_year (y + 1)
  = Time.days_before_year y + (if Time.is_leap y then 366 else 365).
Proof.
  unfold Time.days_before_year, Time.is_leap.
  destruct (Z.eqb_spec (y mod 4) 0), (Z.eqb_spec (y mod 100) 0),
    (Z.eqb_spec (y mod 400) 0); cbn [andb orb negb];
    Z.div_mod_to_equations; lia.
Qed.

Lemma days_before_year_mono (y1 y2 : Z) :
  y1 ≤ y2 → Time.days_before_year y1 ≤ Time.days_before_year y2.
Proof. unfold Time.days_before_year. intros. Z.div_mod_to_equations. lia. Qed.

Lemma day_of_year_bound (y m d : Z) :
  1 ≤ m ≤ 12 → 1 ≤ d ≤ Time.days_in_month y m →
  1 ≤ Time.days_before_month y m + d ≤ (if Time.is_leap y then 366 else 365).
Proof.
  intros Hm. assert (m = 1 ∨ m = 2 ∨ m = 3 ∨ m = 4 ∨ m = 5 ∨ m = 6 ∨ m = 7
    ∨ m = 8 ∨ m = 9 ∨ m = 10 ∨ m = 11 ∨ m = 12) as Hcases by lia.
  unfold Time.days_in_month, Time.days_before_month.
  repeat (destruct Hcases as [->|Hcases]); try subst m;
    simpl (nth _ _ _); cbn [Z.eqb Z.ltb Z.compare Pos.compare Pos.compare_cont
                          andb orb Pos.eqb];
    destruct (Time.is_leap y); lia.
Qed.

Lemma civil_year_range (z y m d : Z) :
  Time.civil_from_days z = (y, m, d) →
  -354285 ≤ z ≤ 2932896 → 1000 ≤ y ≤ 9999.
Proof.
  intros (Hm & Hd & Hord)%civil_from_days_spec Hz.
  pose proof (day_of_year_bound y m d Hm Hd) as Hdoy.
  pose proof (days_before_year_succ y) as Hsucc.
  unfold Time.ymd2ord, Time.EPOCH_ORD in Hord.
  assert (Time.days_before_year 1000 = 364877) as H1000 by reflexivity.
  assert (Time.days_before_year 10000 = 3652059) as H10000 by reflexivity.
  split.
  - destruct (Z.le_gt_cases 1000 y) as [|Hlt]; [done|exfalso].
    pose proof (days_before_year_mono (y + 1) 1000 ltac:(lia)). lia.
  - destruct (Z.le_gt_cases y 9999) as [|Hgt]; [done|exfalso].
    pose proof (days_before_year_mono 10000 y ltac:(lia)). lia.
Qed.

(** [timegm] undoes [gmtime], whatever the weekday and the day of the year *)
Lemma timegm_gmtime (t : Z) (tm : Time.struct_time) :
  -30610224000 ≤ t ≤ 253402300799 →
  Time.tm_year tm = Time.tm_year (Time.gmtime t) →
  Time.tm_mon tm = Time.tm_mon (Time.gmtime t) →
  Time.tm_mday tm = Time.tm_mday (Time.gmtime t) →
  Time.tm_hour tm = Time.tm_hour (Time.gmtime t) →
  Time.tm_min tm = Time.tm_min (Time.gmtime t) →
  Time.tm_sec tm = Time.tm_sec (Time.gmtime t) →
  Time.timegm tm = Ok t.
Proof.
  intros Ht. unfold Time.timegm, Time.gmtime.
  destruct (Time.civil_from_days (t / 86400)) as [[y m] d] eqn:Hcivil.
  cbn [Time.tm_year Time.tm_mon Time.tm_mday Time.tm_hour Time.tm_min Time.tm_sec].
  intros -> -> -> -> -> ->.
  assert (-354285 ≤ t / 86400 ≤ 2932896) as Hz by (Z.div_mod_to_equations; lia).
  pose proof (civil_year_range _ _ _ _ Hcivil Hz) as Hy.
  apply civil_from_days_spec in Hcivil as (Hm & Hd & Hord).
  unfold Time.date_toordinal.
  assert (28 ≤ Time.days_in_month y m) as Hdim.
  { unfold Time.days_in_month. repeat case_match; lia. }
  replace ((1 <=? y) && (y <=? 9999) && (1 <=? m) && (m <=? 12) && (1 <=? 1)
           && (1 <=? Time.days_in_month y m)) with true by lia.
  cbn [mbind result_bind]. f_equal.
  unfold Time.ymd2ord in *. Z.div_mod_to_equations. lia.
Qed.

(** ** [strptime] reads what [asctime] writes *)

Lemma starts_with_bind {A B} (p : Time.parser A) (k : A → Time.parser B)
    (s s' : string) (a : A) (r : B * string) :
  starts_with (p s) (a, s') → starts_with (k a s') r →
  starts_with (Time.p_bind p k s) r.
Proof.
  intros [tl Hp] [tl' Hk]. unfold Time.p_bind. rewrite Hp.
  cbn [mbind list_bind]. rewrite Hk. by eexists.
Qed.

Lemma Forall_from_spec (P : Z → Prop) (n : nat) (lo : Z) :
  Forall_from P n lo → ∀ z, lo ≤ z < lo + Z.of_nat n → P z.
Proof.
  revert lo. induction n as [|n IH]; intros lo Hall z Hz; [lia|].
  destruct Hall as [Hlo Hall].
  destruct (decide (z = lo)) as [->|]; [done|]. apply (IH (lo + 1)); [done|lia].
Qed.

Lemma parse_weekday (w : Z) (rest : string) :
  0 ≤ w ≤ 6 →
  starts_with (Time.p_names Time.day_abbr 0
                 (nth (Z.to_nat w) Time.day_abbr "???" +:+ rest)) (w, rest).
Proof.
  intros Hw. revert rest.
  apply (Forall_from_spec (λ w, ∀ rest, starts_with (Time.p_names Time.day_abbr 0
           (nth (Z.to_nat w) Time.day_abbr "???" +:+ rest)) (w, rest)) 7 0); [|lia].
  cbn [Forall_from]. repeat split; intros rest; vm_compute; eexists; reflexivity.
Qed.

Lemma parse_month (m : Z) (rest : string) :
  1 ≤ m ≤ 12 →
  starts_with (Time.p_ws (" " +:+ nth (Z.to_nat (m - 1)) Time.month_abbr "???" +:+ rest))
              (tt, nth (Z.to_nat (m - 1)) Time.month_abbr "???" +:+ rest) ∧
  starts_with (Time.p_names Time.month_abbr 1
                 (nth (Z.to_nat (m - 1)) Time.month_abbr "???" +:+ rest)) (m, rest).
Proof.
  intros Hm. revert rest.
  apply (Forall_from_spec (λ m, ∀ rest,
    starts_with (Time.p_ws (" " +:+ nth (Z.to_nat (m - 1)) Time.month_abbr "???" +:+ rest))
                (tt, nth (Z.to_nat (m - 1)) Time.month_abbr "???" +:+ rest) ∧
    starts_with (Time.p_names Time.month_abbr 1
                 (nth (Z.to_nat (m - 1)) Time.month_abbr "???" +:+ rest)) (m, rest))
    12 1); [|lia].
  cbn [Forall_from].
  repeat split; try (vm_compute; eexists; reflexivity).
Qed.

Lemma parse_day (d : Z) (rest : string) :
  1 ≤ d ≤ 31 →
  starts_with (Time.p_ws (Time.fmt_3d d +:+ " " +:+ rest))
              (tt, str_int d +:+ " " +:+ rest) ∧
  starts_with (Time.p_d (str_int d +:+ " " +:+ rest)) (d, " " +:+ rest).
Proof.
  intros Hd. revert rest.
  apply (Forall_from_spec (λ d, ∀ rest,
    starts_with (Time.p_ws (Time.fmt_3d d +:+ " " +:+ rest))
                (tt, str_int d +:+ " " +:+ rest) ∧
    starts_with (Time.p_d (str_int d +:+ " " +:+ rest)) (d, " " +:+ rest))
    31 1); [|lia].
  cbn [Forall_from].
  repeat split; try (vm_compute; eexists; reflexivity).
Qed.

Lemma parse_hour (h : Z) (rest : string) :
  0 ≤ h ≤ 23 →
  starts_with (Time.p_ws (" " +:+ Time.fmt_02d h +:+ ":" +:+ rest))
              (tt, Time.fmt_02d h +:+ ":" +:+ rest) ∧
  starts_with (Time.p_H (Time.fmt_02d h +:+ ":" +:+ rest)) (h, ":" +:+ rest).
Proof.
  intros Hh. revert rest.
  apply (Forall_from_spec (λ h, ∀ rest,
    starts_with (Time.p_ws (" " +:+ Time.fmt_02d h +:+ ":" +:+ rest))
                (tt, Time.fmt_02d h +:+ ":" +:+ rest) ∧
    starts_with (Time.p_H (Time.fmt_02d h +:+ ":" +:+ rest)) (h, ":" +:+ rest))
    24 0); [|lia].
  cbn [Forall_from].
  repeat split; try (vm_compute; eexists; reflexivity).
Qed.

Lemma parse_minute (m : Z) (rest : string) :
  0 ≤ m ≤ 59 →
  starts_with (Time.p_M (Time.fmt_02d m +:+ ":" +:+ rest)) (m, ":" +:+ rest).
Proof.
  intros Hm. revert rest.
  apply (Forall_from_spec (λ m, ∀ rest,
    starts_with (Time.p_M (Time.fmt_02d m +:+ ":" +:+ rest)) (m, ":" +:+ rest))
    60 0); [|lia].
  cbn [Forall_from].
  repeat split; try (intros rest; vm_compute; eexists; reflexivity).
Qed.

Lemma parse_second (s : Z) (rest : string) :
  0 ≤ s ≤ 59 →
  starts_with (Time.p_S (Time.fmt_02d s +:+ " " +:+ rest)) (s, " " +:+ rest).
Proof.
  intros Hs. revert rest.
  apply (Forall_from_spec (λ s, ∀ rest,
    starts_with (Time.p_S (Time.fmt_02d s +:+ " " +:+ rest)) (s, " " +:+ rest))
    60 0); [|lia].
  cbn [Forall_from].
  repeat split; try (intros rest; vm_compute; eexists; reflexivity).
Qed.

Lemma year_check : forall_from year_ok (Z.to_nat 9000) 1000 = true.
Proof. vm_compute. reflexivity. Qed.

Lemma parse_year (y : Z) :
  1000 ≤ y ≤ 9999 →
  String.length (str_int y) = 4%nat ∧
  starts_with (Time.p_ws (" " +:+ str_int y +:+ " UTC")) (tt, str_int y +:+ " UTC") ∧
  starts_with (Time.p_Y (str_int y +:+ " UTC")) (y, " UTC").
Proof.
  intros Hy.
  pose proof (forall_from_spec _ _ _ year_check y ltac:(lia)) as Hok.
  unfold year_ok in Hok. apply andb_true_iff in Hok as [Hlen Hok].
  split; [by apply Nat.eqb_eq|].
  destruct (Time.p_ws _) as [|[[] s1] tl]; [done|].
  apply andb_true_iff in Hok as [->%String.eqb_eq Hok].
  split; [by eexists|].
  destruct (Time.p_Y _) as [|[y' s2] tl']; [done|].
  apply andb_true_iff in Hok as [->%Z.eqb_eq ->%String.eqb_eq]. by eexists.
Qed.

Lemma string_append_assoc (s1 s2 s3 : string) :
  (s1 +:+ s2) +:+ s3 = s1 +:+ (s2 +:+ s3).
Proof.
  induction s1 as [|a s1 IH]; [done|]. by rewrite !append_cons, IH.
Qed.

Lemma string_length_append (s1 s2 : string) :
  String.length (s1 +:+ s2) = (String.length s1 + String.length s2)%nat.
Proof.
  induction s1 as [|a s1 IH]; [done|].
  rewrite append_cons. cbn [String.length]. by rewrite IH.
Qed.

Lemma day_abbr_length (w : Z) :
  0 ≤ w ≤ 6 → String.length (nth (Z.to_nat w) Time.day_abbr "???") = 3%nat.
Proof.
  intros Hw.
  apply (Forall_from_spec
    (λ w, String.length (nth (Z.to_nat w) Time.day_abbr "???") = 3%nat) 7 0); [|lia].
  cbn [Forall_from]. repeat split.
Qed.

Lemma month_abbr_length (m : Z) :
  1 ≤ m ≤ 12 → String.length (nth (Z.to_nat (m - 1)) Time.month_abbr "???") = 3%nat.
Proof.
  intros Hm.
  apply (Forall_from_spec
    (λ m, String.length (nth (Z.to_nat (m - 1)) Time.month_abbr "???") = 3%nat)
    12 1); [|lia].
  cbn [Forall_from]. repeat split.
Qed.

Lemma fmt_3d_length (d : Z) :
  1 ≤ d ≤ 31 → String.length (Time.fmt_3d d) = 3%nat.
Proof.
  intros Hd.
  apply (Forall_from_spec (λ d, String.length (Time.fmt_3d d) = 3%nat) 31 1); [|lia].
  cbn [Forall_from]. repeat split; vm_compute; reflexivity.
Qed.

Lemma fmt_02d_length (n : Z) :
  0 ≤ n ≤ 59 → String.length (Time.fmt_02d n) = 2%nat.
Proof.
  intros Hn.
  apply (Forall_from_spec (λ n, String.length (Time.fmt_02d n) = 2%nat) 60 0); [|lia].
  cbn [Forall_from]. repeat split; vm_compute; reflexivity.
Qed.

(** the ranges of the fields of [gmtime] *)
Lemma gmtime_ranges (t : Z) :
  -30610224000 ≤ t ≤ 253402300799 →
  let tm := Time.gmtime t in
  1000 ≤ Time.tm_year tm ≤ 9999 ∧ 1 ≤ Time.tm_mon tm ≤ 12 ∧
  1 ≤ Time.tm_mday tm ≤ Time.days_in_month (Time.tm_year tm) (Time.tm_mon tm) ∧
  0 ≤ Time.tm_hour tm ≤ 23 ∧ 0 ≤ Time.tm_min tm ≤ 59 ∧ 0 ≤ Time.tm_sec tm ≤ 59 ∧
  0 ≤ Time.tm_wday tm ≤ 6 ∧
  Time.tm_yday tm = Time.ymd2ord (Time.tm_year tm) (Time.tm_mon tm) (Time.tm_mday tm)
                    - Time.ymd2ord (Time.tm_year tm) 1 1 + 1.
Proof.
  intros Ht. unfold Time.gmtime.
  destruct (Time.civil_from_days (t / 86400)) as [[y m] d] eqn:Hcivil.
  cbn [Time.tm_year Time.tm_mon Time.tm_mday Time.tm_hour Time.tm_min Time.tm_sec
       Time.tm_wday Time.tm_yday].
  assert (-354285 ≤ t / 86400 ≤ 2932896) as Hz by (Z.div_mod_to_equations; lia).
  pose proof (civil_year_range _ _ _ _ Hcivil Hz) as Hy.
  apply civil_from_days_spec in Hcivil as (Hm & Hd & Hord).
  repeat split; try lia; Z.div_mod_to_equations; lia.
Qed.

Lemma days_in_month_le (y m : Z) : 28 ≤ Time.days_in_month y m ≤ 31.
Proof. unfold Time.days_in_month. repeat case_match; lia. Qed.

Lemma c_asctime_length (tm : Time.struct_time) :
  1000 ≤ Time.tm_year tm ≤ 9999 → 1 ≤ Time.tm_mon tm ≤ 12 →
  1 ≤ Time.tm_mday tm ≤ 31 →
  0 ≤ Time.tm_hour tm ≤ 23 → 0 ≤ Time.tm_min tm ≤ 59 → 0 ≤ Time.tm_sec tm ≤ 59 →
  0 ≤ Time.tm_wday tm ≤ 6 →
  String.length (Time.c_asctime tm) = 24%nat.
Proof.
  intros Hy Hm Hd Hh Hmi Hs Hw. unfold Time.c_asctime.
  rewrite !string_length_append.
  rewrite day_abbr_length, month_abbr_length, fmt_3d_length, !fmt_02d_length by lia.
  destruct (parse_year _ Hy) as [-> _]. reflexivity.
Qed.

Lemma strptime_asctime (tm : Time.struct_time) :
  1000 ≤ Time.tm_year tm ≤ 9999 → 1 ≤ Time.tm_mon tm ≤ 12 →
  1 ≤ Time.tm_mday tm ≤ Time.days_in_month (Time.tm_year tm) (Time.tm_mon tm) →
  0 ≤ Time.tm_hour tm ≤ 23 → 0 ≤ Time.tm_min tm ≤ 59 → 0 ≤ Time.tm_sec tm ≤ 59 →
  0 ≤ Time.tm_wday tm ≤ 6 →
  Time.tm_yday tm = Time.ymd2ord (Time.tm_year tm) (Time.tm_mon tm) (Time.tm_mday tm)
                    - Time.ymd2ord (Time.tm_year tm) 1 1 + 1 →
  Time.strptime (Time.asctime_text tm +:+ " UTC") = Ok (with_isdst tm (-1)).
Proof.
  intros Hy Hm Hd Hh Hmi Hs Hw Hyday.
  pose proof (days_in_month_le (Time.tm_year tm) (Time.tm_mon tm)) as Hdim.
  unfold Time.asctime_text. cbv zeta.
  rewrite c_asctime_length by lia. rewrite Nat.eqb_refl.
  unfold Time.c_asctime. rewrite !string_append_assoc.
  assert (starts_with (Time.STRPTIME_FORMAT
    (nth (Z.to_nat (Time.tm_wday tm)) Time.day_abbr "???" +:+ " "
     +:+ nth (Z.to_nat (Time.tm_mon tm - 1)) Time.month_abbr "???"
     +:+ Time.fmt_3d (Time.tm_mday tm) +:+ " "
     +:+ Time.fmt_02d (Time.tm_hour tm) +:+ ":" +:+ Time.fmt_02d (Time.tm_min tm)
     +:+ ":" +:+ Time.fmt_02d (Time.tm_sec tm) +:+ " "
     +:+ str_int (Time.tm_year tm) +:+ " UTC"))
    ((Time.tm_year tm, Time.tm_mon tm, Time.tm_mday tm, Time.tm_hour tm,
      Time.tm_min tm, Time.tm_sec tm, Time.tm_wday tm), "")) as [tl Hparse].
  { unfold Time.STRPTIME_FORMAT.
    eapply starts_with_bind; [by apply parse_weekday|].
    eapply starts_with_bind; [by apply parse_month|].
    eapply starts_with_bind; [by apply parse_month|].
    eapply starts_with_bind; [apply parse_day; lia|].
    eapply starts_with_bind; [apply parse_day; lia|].
    eapply starts_with_bind; [by apply parse_hour|].
    eapply starts_with_bind; [by apply parse_hour|].
    eapply starts_with_bind; [by eexists|].
    eapply starts_with_bind; [by apply parse_minute|].
    eapply starts_with_bind; [by eexists|].
    eapply starts_with_bind; [by apply parse_second|].
    eapply starts_with_bind; [by apply parse_year|].
    eapply starts_with_bind; [by apply parse_year|].
    eapply starts_with_bind; [by eexists|].
    eapply starts_with_bind; [by eexists|].
    by eexists. }
  unfold Time.strptime. rewrite Hparse. unfold Time.date_toordinal.
  replace ((1 <=? Time.tm_year tm) && (Time.tm_year tm <=? 9999)
           && (1 <=? Time.tm_mon tm) && (Time.tm_mon tm <=? 12)
           && (1 <=? Time.tm_mday tm)
           && (Time.tm_mday tm <=? Time.days_in_month (Time.tm_year tm) (Time.tm_mon tm)))
    with true by lia.
  replace ((1 <=? Time.tm_year tm) && (Time.tm_year tm <=? 9999)
           && (1 <=? 1) && (1 <=? 12) && (1 <=? 1)
           && (1 <=? Time.days_in_month (Time.tm_year tm) 1))
    with true by (pose proof (days_in_month_le (Time.tm_year tm) 1); lia).
  cbn [mbind result_bind]. rewrite <- Hyday. by destruct tm.
Qed.

(** from 1900 on [asctime] prints the year as it is *)
Lemma asctime_from_1900 (tm : Time.struct_time) :
  1900 ≤ Time.tm_year tm → Time.asctime tm = Ok (Time.asctime_text tm).
Proof.
  intros Hy. unfold Time.asctime, Time.asctime_year.
  rewrite (proj2 (Z.leb_le 1900 _)) by done. cbn [mbind result_bind].
  by destruct tm.
Qed.

(** and refuses the years 100 to 1899 *)
Lemma asctime_before_1900 (tm : Time.struct_time) :
  100 ≤ Time.tm_year tm < 1900 → Time.asctime tm = Raise ValueError.
Proof.
  intros Hy. unfold Time.asctime, Time.asctime_year.
  rewrite (proj2 (Z.leb_gt 1900 _)) by lia.
  replace ((69 <=? Time.tm_year tm) && (Time.tm_year tm <=? 99)) with false by lia.
  by replace ((0 <=? Time.tm_year tm) && (Time.tm_year tm <=? 68)) with false by lia.
Qed.

Lemma gmtime_year (t lo hi : Z) :
  Time.days_before_year lo * 86400 ≤ (t + Time.EPOCH_ORD * 86400 - 86400) →
  t + Time.EPOCH_ORD * 86400 - 86400 < Time.days_before_year (hi + 1) * 86400 →
  lo ≤ Time.tm_year (Time.gmtime t) ≤ hi.
Proof.
  intros Hlo Hhi. unfold Time.gmtime.
  destruct (Time.civil_from_days (t / 86400)) as [[y m] d] eqn:Hcivil.
  cbn [Time.tm_year].
  apply civil_from_days_spec in Hcivil as (Hm & Hd & Hord).
  pose proof (day_of_year_bound y m d Hm Hd) as Hdoy.
  pose proof (days_before_year_succ y) as Hsucc.
  unfold Time.ymd2ord, Time.EPOCH_ORD in *.
  assert (Time.days_before_year lo < t / 86400 + 719163
          ∧ t / 86400 + 719163 ≤ Time.days_before_year (hi + 1)) as [Hlo' Hhi']
    by (Z.div_mod_to_equations; lia).
  split.
  - destruct (Z.le_gt_cases lo y) as [|Hlt]; [done|exfalso].
    pose proof (days_before_year_mono (y + 1) lo ltac:(lia)).
    destruct (Time.is_leap y); lia.
  - destruct (Z.le_gt_cases y hi) as [|Hgt]; [done|exfalso].
    pose proof (days_before_year_mono (hi + 1) y ltac:(lia)). lia.
Qed.

(** the text [add] writes for a date from 1900 to 9999, read back *)
Lemma strptime_asctime_gmtime (t : Z) :
  -2208988800 ≤ t ≤ 253402300799 →
  Time.asctime (Time.gmtime t) = Ok (Time.asctime_text (Time.gmtime t)) ∧
  Time.strptime (Time.asctime_text (Time.gmtime t) +:+ " UTC")
    = Ok (with_isdst (Time.gmtime t) (-1)).
Proof.
  intros Ht. split.
  - apply asctime_from_1900.
    assert (Time.days_before_year 1900 = 693595) as Hlo by reflexivity.
    assert (Time.days_before_year (9999 + 1) = 3652059) as Hhi by reflexivity.
    apply (gmtime_year t 1900 9999); rewrite ?Hlo, ?Hhi; unfold Time.EPOCH_ORD; lia.
  - destruct (gmtime_ranges t ltac:(lia)) as (? & ? & ? & ? & ? & ? & ? & ?).
    by apply strptime_asctime.
Qed.

Lemma Element_index_app (e : Element) (l : list Element) (child : Element) :
  children e = l ++ [child] →
  Element_index e (Z.of_nat (length l)) = Ok child.
Proof.
  intros Hc. unfold Element_index. rewrite Hc, length_app. cbn [length].
  rewrite (proj2 (Z.ltb_ge _ _)) by lia.
  rewrite (proj2 (Z.leb_le _ _)), (proj2 (Z.ltb_lt _ _)) by lia. cbn [andb].
  rewrite Nat2Z.id, lookup_app_r, Nat.sub_diag by lia. reflexivity.
Qed.

Lemma Element_index_app_l (e e' : Element) (child : Element) (i : Z) :
  children e' = children e ++ [child] →
  0 ≤ i < Z.of_nat (length (children e)) →
  Element_index e' i = Element_index e i.
Proof.
  intros Hc Hi. unfold Element_index. rewrite Hc, length_app. cbn [length].
  rewrite (proj2 (Z.ltb_ge _ _)) by lia.
  rewrite (proj2 (Z.leb_le _ _)), !(proj2 (Z.ltb_lt _ _)) by lia. cbn [andb].
  rewrite lookup_app_l by lia. reflexivity.
Qed.

Lemma Element_get_head (t k v : string) (l : list (string * string))
    (txt : option string) (kids : list Element) :
  Element_get (Elem t ((k, v) :: l) txt kids) k = Some v.
Proof. unfold Element_get. cbn [attrib assoc]. by rewrite String.eqb_refl. Qed.

Lemma lxml_text_Ok (s : option string) :
  text_ok s = true → lxml_text s = Ok s.
Proof.
  destruct s as [s|]; [|done]. cbn [text_ok from_option lxml_text].
  unfold lxml_str. by intros ->.
Qed.

Lemma lxml_text_inv (s t : option string) : lxml_text s = Ok t → t = s.
Proof.
  destruct s as [s|]; cbn [lxml_text]; [|by intros [= <-]].
  unfold lxml_str. destruct (xml_compatible s); [|done]. by intros [= <-].
Qed.

(** ** [XMLOffsetFile]: [add] and [__getitem__] *)

Section offsets_facts.
Context `{PyFloat} `{PassbandAPI}.

(** the element of an offset, when [add] builds one *)
Lemma add_element_inv (offset : XMLOffset) (element : Element) :
  add_element offset = Ok element →
  ∃ date, Time.asctime (Time.gmtime (offset_date offset)) = Ok date ∧
    element = Elem "offset" [] None
      [Elem "reference" [] (offset_reference offset) [];
       Elem "shifted"
         [("date", date +:+ " UTC");
          ("filter", Passband_str (offset_filter offset))]
         (offset_shifted offset) [];
       Elem "x_offset" [("overlap", str_int (offset_x_overlap offset))]
         (Some (float_str (offset_x offset))) [];
       Elem "y_offset" [("overlap", str_int (offset_y_overlap offset))]
         (Some (float_str (offset_y offset))) []].
Proof.
  unfold add_element.
  destruct (lxml_text (offset_reference offset)) as [rt|] eqn:Hr; [|done].
  apply lxml_text_inv in Hr as ->. cbn [mbind result_bind].
  destruct (Time.asctime _) as [date|]; [|done]. cbn [mbind result_bind].
  unfold lxml_str.
  destruct (xml_compatible (Passband_str _)); [|done]. cbn [mbind result_bind].
  destruct (lxml_text (offset_shifted offset)) as [st|] eqn:Hs; [|done].
  apply lxml_text_inv in Hs as ->. cbn [mbind result_bind].
  intros [= <-]. by exists date.
Qed.

Lemma add_element_Ok (offset : XMLOffset) (date : string) :
  Time.asctime (Time.gmtime (offset_date offset)) = Ok date →
  text_ok (offset_reference offset) = true →
  text_ok (offset_shifted offset) = true →
  xml_compatible (Passband_str (offset_filter offset)) = true →
  is_Some (match add_element offset with Ok e => Some e | Raise _ => None end).
Proof.
  intros Hdate Hr Hs Hf. unfold add_element.
  rewrite (lxml_text_Ok _ Hr), Hdate. cbn [mbind result_bind].
  unfold lxml_str. rewrite Hf. cbn [mbind result_bind].
  rewrite (lxml_text_Ok _ Hs). cbn [mbind result_bind]. by eexists.
Qed.

(** a call of [add] that raises leaves the file as it was, a call that
    returns has appended the element of the offset *)
Lemma add_cases (self : XMLOffsetFile) (offset : XMLOffset) :
  (∃ e, add_element offset = Raise e ∧
        XMLOffsetFile_add self offset = (self, Raise e)) ∨
  (∃ element self', add_element offset = Ok element ∧
        XMLOffsetFile_add self offset = (self', Ok tt) ∧
        tag (root self') = tag (root self) ∧
        text (root self') = text (root self) ∧
        attrib (root self')
          = assoc_set "size" (str_int (XMLOffsetFile_len self + 1))
              (attrib (root self)) ∧
        children (root self') = children (root self) ++ [element]).
Proof.
  unfold XMLOffsetFile_add. destruct (add_element offset) as [element|e].
  - right. eexists _, _. split; [done|]. split; [done|].
    split; [done|]. split; [done|]. split; [|done].
    unfold XMLOffsetFile_len, Element_set, Element_append.
    cbn [root attrib tag text children].
    rewrite length_app. cbn [length]. do 2 f_equal. lia.
  - left. by exists e.
Qed.

(** C1, as the code has it: [add] returns, and the offset it has appended
    is read back by [__getitem__] at the index it was given, all eight
    fields equal, when its date is a whole number of seconds within the
    years 1900 to 9999 (the years [asctime] accepts and prints with the
    four digits that [strptime] reads), when its paths and the text of its
    filter are strings that lxml accepts, when its filter survives [str()]
    and [Passband()], and when [x] and [y] survive [str()] and [float()]. *)
Theorem add_getitem (self : XMLOffsetFile) (offset : XMLOffset) :
  -2208988800 ≤ offset_date offset ≤ 253402300799 →
  text_ok (offset_reference offset) = true →
  text_ok (offset_shifted offset) = true →
  xml_compatible (Passband_str (offset_filter offset)) = true →
  Passband_new (Passband_str (offset_filter offset)) = Ok (offset_filter offset) →
  float_of_str (float_str (offset_x offset)) = Some (offset_x offset) →
  float_of_str (float_str (offset_y offset)) = Some (offset_y offset) →
  ∃ self',
    XMLOffsetFile_add self offset = (self', Ok tt) ∧
    XMLOffsetFile_len self' = XMLOffsetFile_len self + 1 ∧
    XMLOffsetFile_getitem self' (XMLOffsetFile_len self) = Ok offset.
Proof.
  intros Hdate Hreference Hshifted Hcompatible Hfilter Hx Hy.
  destruct (strptime_asctime_gmtime _ Hdate) as [Hasctime Hstrptime].
  destruct (add_cases self offset)
    as [(e & He & _)|(element & self' & Helement & Hadd & _ & _ & _ & Hroot)].
  { destruct (add_element_Ok offset _ Hasctime Hreference Hshifted Hcompatible)
      as [? Hsome]. by rewrite He in Hsome. }
  exists self'. split; [exact Hadd|]. split.
  { unfold XMLOffsetFile_len. rewrite Hroot, length_app. cbn [length]. lia. }
  apply add_element_inv in Helement as (date & Hdate' & ->).
  rewrite Hasctime in Hdate'. injection Hdate' as <-.
  unfold XMLOffsetFile_getitem, XMLOffsetFile_len.
  rewrite (Element_index_app _ _ _ Hroot). cbn [mbind result_bind].
  change (Element_index (Elem "offset" [] None _) 0) with
    (Ok (Elem "reference" [] (offset_reference offset) [])).
  cbn [mbind result_bind text of_option].
  change (Element_index (Elem "offset" [] None _) 1) with
    (Ok (Elem "shifted"
           [("date", Time.asctime_text (Time.gmtime (offset_date offset)) +:+ " UTC");
            ("filter", Passband_str (offset_filter offset))]
           (offset_shifted offset) [])).
  cbn [mbind result_bind text of_option].
  change (Element_get _ "date") with
    (Some (Time.asctime_text (Time.gmtime (offset_date offset)) +:+ " UTC")).
  cbn [mbind result_bind text of_option].
  rewrite Hstrptime. cbn [mbind result_bind].
  rewrite (timegm_gmtime (offset_date offset) _ ltac:(lia)) by reflexivity.
  cbn [mbind result_bind].
  change (Element_get _ "filter") with (Some (Passband_str (offset_filter offset))).
  cbn [mbind result_bind of_option]. rewrite Hfilter. cbn [mbind result_bind].
  change (Element_index (Elem "offset" [] None _) 2) with
    (Ok (Elem "x_offset" [("overlap", str_int (offset_x_overlap offset))]
           (Some (float_str (offset_x offset))) [])).
  cbn [mbind result_bind text of_option]. unfold py_float, py_int.
  cbn [mbind result_bind text of_option]. rewrite Hx.
  cbn [mbind result_bind text of_option].
  rewrite Element_get_head.
  cbn [mbind result_bind text of_option]. rewrite int_of_str_int.
  cbn [mbind result_bind text of_option].
  change (Element_index (Elem "offset" [] None _) 3) with
    (Ok (Elem "y_offset" [("overlap", str_int (offset_y_overlap offset))]
           (Some (float_str (offset_y offset))) [])).
  cbn [mbind result_bind text of_option]. rewrite Hy.
  cbn [mbind result_bind text of_option].
  rewrite Element_get_head.
  cbn [mbind result_bind text of_option]. rewrite int_of_str_int.
  cbn [mbind result_bind text of_option]. by destruct offset.
Qed.

End offsets_facts.

Lemma add_getitem_witness :
  ∃ self',
    XMLOffsetFile_add empty_offsets example_offset = (self', Ok tt) ∧
    XMLOffsetFile_len self' = 1 ∧
    XMLOffsetFile_getitem self' 0 = Ok example_offset.
Proof.
  apply (@add_getitem Qc_float named_Passband empty_offsets example_offset).
  - cbn [offset_date example_offset]. lia.
  - reflexivity.
  - reflexivity.
  - reflexivity.
  - reflexivity.
  - reflexivity.
  - reflexivity.
Defined.

(** C1, the claim as stated fails, in four ways. An offset dated
    -2208988801 (the last second of 1899) is refused by [asctime], so
    [add] raises [ValueError]; so does [add] for a path with a byte above
    127, which lxml refuses. An offset dated 253402300800 (the first
    second of the year 10000) is added, but with a five-digit year that
    [strptime] rejects, so [__getitem__] raises [ValueError]. And an [x]
    of [1 + 2^-40] is written by [str()] as [1.0] and read back as [1]. *)
Lemma add_getitem_loses_data :
  (XMLOffsetFile_add empty_offsets early_offset).2 = Raise ValueError ∧
  (XMLOffsetFile_add empty_offsets accented_offset).2 = Raise ValueError ∧
  (XMLOffsetFile_add empty_offsets late_offset).2 = Ok tt ∧
  XMLOffsetFile_getitem (XMLOffsetFile_add empty_offsets late_offset).1 0
    = Raise ValueError ∧
  (XMLOffsetFile_add empty_offsets fine_offset).2 = Ok tt ∧
  XMLOffsetFile_getitem (XMLOffsetFile_add empty_offsets fine_offset).1 0
    = Ok {| offset_reference := Some "reference.fits";
            offset_shifted := Some "shifted.fits";
            offset_filter := "V"; offset_date := 740618465;
            offset_x := decimal 10 10; offset_y := decimal (-25) 100;
            offset_x_overlap := 12; offset_y_overlap := 9 |} ∧
  decimal 10 10 ≠ offset_x fine_offset.
Proof.
  split; [reflexivity|]. split; [reflexivity|]. split; [reflexivity|].
  split; [reflexivity|]. split; [reflexivity|]. split; [reflexivity|].
  cbn [offset_x fine_offset]. intros Heq. apply (f_equal this) in Heq.
  vm_compute in Heq. discriminate Heq.
Qed.

(** ** The catalog *)

#[local] Existing Instances Catalog.outcome_ret Catalog.outcome_bind.

Lemma mapM_inr {A B} (f : A → Catalog.outcome B) (l : list A) (k : list B) :
  mapM f l = inr k → Forall2 (λ a b, f a = inr b) l k.
Proof.
  revert k. induction l as [|a l IH]; intros k.
  - intros [= <-]. constructor.
  - cbn [mapM]. destruct (f a) as [e|b] eqn:Hfa; [discriminate|].
    cbn [mbind Catalog.outcome_bind].
    destruct (mapM f l) as [e|k'] eqn:Hl; [discriminate|].
    intros [= <-]. constructor; [done|by apply IH].
Qed.

Lemma find_columns_inr (hs : list (nat * Catalog.column)) (cs : Catalog.columns) :
  Catalog.find_columns hs = inr cs →
  Catalog.find_column Catalog.X_IMAGE hs = Some (Catalog.i_x cs) ∧
  Catalog.find_column Catalog.Y_IMAGE hs = Some (Catalog.i_y cs) ∧
  Catalog.find_column Catalog.ALPHA_SKY hs = Some (Catalog.i_alpha cs) ∧
  Catalog.find_column Catalog.DELTA_SKY hs = Some (Catalog.i_delta cs) ∧
  Catalog.find_column Catalog.ISOAREAF_IMAGE hs = Some (Catalog.i_area cs) ∧
  Catalog.find_column Catalog.MAG_AUTO hs = Some (Catalog.i_mag cs) ∧
  Catalog.find_column Catalog.FLAGS hs = Some (Catalog.i_flags cs) ∧
  Catalog.find_column Catalog.FLUX_ISO hs = Some (Catalog.i_flux cs) ∧
  Catalog.find_column Catalog.FLUXERR_ISO hs = Some (Catalog.i_fluxerr cs) ∧
  Catalog.find_column Catalog.FLUX_RADIUS hs = Some (Catalog.i_radius cs) ∧
  Catalog.find_column Catalog.ELONGATION hs = Some (Catalog.i_elongation cs).
Proof.
  unfold Catalog.find_columns, Catalog.column_of.
  repeat (match goal with
          | |- context [Catalog.find_column ?c hs] =>
              destruct (Catalog.find_column c hs); [|discriminate]
          end; cbn [mbind Catalog.outcome_bind]).
  intros [= <-]. cbn. repeat split.
Qed.

Lemma find_columns_inl (hs : list (nat * Catalog.column)) (e : Catalog.error) :
  Catalog.find_columns hs = inl e → e = Catalog.InvalidFormatError.
Proof.
  unfold Catalog.find_columns, Catalog.column_of.
  repeat (match goal with
          | |- context [Catalog.find_column ?c hs] =>
              destruct (Catalog.find_column c hs);
              [|cbn [mbind Catalog.outcome_bind]; congruence]
          end; cbn [mbind Catalog.outcome_bind]).
  discriminate.
Qed.

Lemma star_of_row_inr (cs : Catalog.columns) (cells : list Qc) (star : Catalog.Star) :
  Catalog.star_of_row cs cells = inr star →
  ∃ flags flux fluxerr radius,
    Catalog.cell cells (Catalog.i_x cs) = inr (Catalog.x star) ∧
    Catalog.cell cells (Catalog.i_y cs) = inr (Catalog.y star) ∧
    Catalog.cell cells (Catalog.i_alpha cs) = inr (Catalog.alpha star) ∧
    Catalog.cell cells (Catalog.i_delta cs) = inr (Catalog.delta star) ∧
    Catalog.cell cells (Catalog.i_area cs) = inr (Catalog.area star) ∧
    Catalog.cell cells (Catalog.i_mag cs) = inr (Catalog.mag star) ∧
    Catalog.cell cells (Catalog.i_elongation cs) = inr (Catalog.elongation star) ∧
    Catalog.int_cell cells (Catalog.i_flags cs) = inr flags ∧
    Catalog.flag_saturated flags = inr (Catalog.saturated star) ∧
    Catalog.cell cells (Catalog.i_flux cs) = inr flux ∧
    Catalog.cell cells (Catalog.i_fluxerr cs) = inr fluxerr ∧
    fluxerr ≠ 0%Qc ∧ Catalog.snr star = (flux / fluxerr)%Qc ∧
    Catalog.cell cells (Catalog.i_radius cs) = inr radius ∧
    Catalog.fwhm star = (radius * Q2Qc 2)%Qc.
Proof.
  unfold Catalog.star_of_row.
  destruct (Catalog.cell cells (Catalog.i_x cs)) as [|vx]; [discriminate|].
  destruct (Catalog.cell cells (Catalog.i_y cs)) as [|vy]; [discriminate|].
  destruct (Catalog.cell cells (Catalog.i_alpha cs)) as [|va]; [discriminate|].
  destruct (Catalog.cell cells (Catalog.i_delta cs)) as [|vd]; [discriminate|].
  destruct (Catalog.cell cells (Catalog.i_area cs)) as [|var]; [discriminate|].
  destruct (Catalog.cell cells (Catalog.i_mag cs)) as [|vm]; [discriminate|].
  cbn [mbind Catalog.outcome_bind].
  destruct (Catalog.int_cell cells (Catalog.i_flags cs)) as [|flags]; [discriminate|].
  cbn [mbind Catalog.outcome_bind].
  destruct (Catalog.flag_saturated flags) as [|sat] eqn:Hsat; [discriminate|].
  cbn [mbind Catalog.outcome_bind].
  destruct (Catalog.cell cells (Catalog.i_flux cs)) as [|flux]; [discriminate|].
  destruct (Catalog.cell cells (Catalog.i_fluxerr cs)) as [|fluxerr]; [discriminate|].
  destruct (Catalog.cell cells (Catalog.i_radius cs)) as [|radius]; [discriminate|].
  destruct (Catalog.cell cells (Catalog.i_elongation cs)) as [|ve]; [discriminate|].
  cbn [mbind Catalog.outcome_bind].
  destruct (decide (fluxerr = 0%Qc)) as [|Hne]; [discriminate|].
  intros [= <-]. exists flags, flux, fluxerr, radius.
  cbn [Catalog.x Catalog.y Catalog.alpha Catalog.delta Catalog.area Catalog.mag
       Catalog.elongation Catalog.saturated Catalog.snr Catalog.fwhm].
  repeat (split; [done|]). done.
Qed.

(** C6, for the catalog as the specification describes it: a catalog that
    is parsed has as many stars as the file has data rows, the star at
    index [i] comes from the [i]-th row, and of that row its [mag] is the
    magnitude column, its [snr] the flux column divided by the flux-error
    column, its [fwhm] twice the FWHM-proxy column and its [saturated]
    what [flag_saturated] returns for the flags column. *)
Theorem Catalog_init_stars (path : string) (fs : Catalog.catalog_files)
    (cat : list Catalog.Star) :
  Catalog.Catalog_init path fs = inr cat →
  ∃ lines cs,
    fs !! path = Some lines ∧
    Catalog.find_columns (Catalog.headers lines) = inr cs ∧
    length cat = length (Catalog.rows lines) ∧
    ∀ (i : nat) (cells : list Qc), Catalog.rows lines !! i = Some cells →
      ∃ star flags flux fluxerr radius,
        cat !! i = Some star ∧
        Catalog.cell cells (Catalog.i_mag cs) = inr (Catalog.mag star) ∧
        Catalog.cell cells (Catalog.i_flux cs) = inr flux ∧
        Catalog.cell cells (Catalog.i_fluxerr cs) = inr fluxerr ∧
        Catalog.snr star = (flux / fluxerr)%Qc ∧
        Catalog.cell cells (Catalog.i_radius cs) = inr radius ∧
        Catalog.fwhm star = (radius * Q2Qc 2)%Qc ∧
        Catalog.int_cell cells (Catalog.i_flags cs) = inr flags ∧
        Catalog.flag_saturated flags = inr (Catalog.saturated star).
Proof.
  unfold Catalog.Catalog_init.
  destruct (fs !! path) as [lines|]; [|discriminate].
  destruct (Catalog.headers lines) as [|h hs] eqn:Hhs; [discriminate|].
  destruct (Catalog.find_columns (h :: hs)) as [|cs] eqn:Hcs; [discriminate|].
  cbn [mbind Catalog.outcome_bind]. intros Hstars%mapM_inr.
  exists lines, cs. split; [done|]. split; [by rewrite Hhs|].
  split; [symmetry; by eapply Forall2_length|].
  intros i cells Hi.
  destruct (Forall2_lookup_l _ _ _ _ _ Hstars Hi) as (star & Hstar & Hrow).
  apply star_of_row_inr in Hrow
    as (flags & flux & fluxerr & radius & _ & _ & _ & _ & _ & Hmag & _ & Hflags
        & Hsat & Hflux & Hfluxerr & _ & Hsnr & Hradius & Hfwhm).
  by exists star, flags, flux, fluxerr, radius.
Qed.

(** C7, for the catalog as the specification describes it: a path that
    does not exist fails with [MissingResourceError]; a file without header
    lines, or whose header lacks one of the required columns, fails with
    [InvalidFormatError]. The result is then an error, never a list of
    stars. *)
Theorem Catalog_init_errors (path : string) (fs : Catalog.catalog_files) :
  (fs !! path = None →
   Catalog.Catalog_init path fs = inl Catalog.MissingResourceError) ∧
  (∀ lines, fs !! path = Some lines → Catalog.headers lines = [] →
   Catalog.Catalog_init path fs = inl Catalog.InvalidFormatError) ∧
  (∀ lines c, fs !! path = Some lines → c ∈ Catalog.required_columns →
   Catalog.find_column c (Catalog.headers lines) = None →
   Catalog.Catalog_init path fs = inl Catalog.InvalidFormatError).
Proof.
  unfold Catalog.Catalog_init. split; [by intros ->|].
  split; [by intros lines -> ->|].
  intros lines c -> Hc Hnone.
  destruct (Catalog.headers lines) as [|h hs] eqn:Hhs; [done|].
  destruct (Catalog.find_columns (h :: hs)) as [e|cs] eqn:Hcs.
  - by rewrite (find_columns_inl _ _ Hcs).
  - exfalso. apply find_columns_inr in Hcs.
    unfold Catalog.required_columns in Hc.
    repeat (apply elem_of_cons in Hc as [->|Hc]; [intuition congruence|]).
    by apply elem_of_nil in Hc.
Qed.

Lemma Catalog_init_stars_witness :
  ∃ lines cs,
    sample_files !! "sextractor.cat" = Some lines ∧
    Catalog.find_columns (Catalog.headers lines) = inr cs ∧
    length sample_stars = length (Catalog.rows lines) ∧
    ∀ (i : nat) (cells : list Qc), Catalog.rows lines !! i = Some cells →
      ∃ star flags flux fluxerr radius,
        sample_stars !! i = Some star ∧
        Catalog.cell cells (Catalog.i_mag cs) = inr (Catalog.mag star) ∧
        Catalog.cell cells (Catalog.i_flux cs) = inr flux ∧
        Catalog.cell cells (Catalog.i_fluxerr cs) = inr fluxerr ∧
        Catalog.snr star = (flux / fluxerr)%Qc ∧
        Catalog.cell cells (Catalog.i_radius cs) = inr radius ∧
        Catalog.fwhm star = (radius * Q2Qc 2)%Qc ∧
        Catalog.int_cell cells (Catalog.i_flags cs) = inr flags ∧
        Catalog.flag_saturated flags = inr (Catalog.saturated star).
Proof.
  apply (Catalog_init_stars "sextractor.cat" sample_files sample_stars).
  reflexivity.
Defined.

(** the numbers that [CatalogTest.test_init] expects of the first row *)
Lemma sample_star_values :
  ∃ star, sample_stars !! 0%nat = Some star ∧
    Catalog.x star = decimal 844359 1000 ∧ Catalog.saturated star = false ∧
    (decimal 667043709786 1000000000 - decimal 5 100000000 < Catalog.snr star)%Qc ∧
    (Catalog.snr star < decimal 667043709786 1000000000 + decimal 5 100000000)%Qc ∧
    Catalog.fwhm star = decimal 12668 1000.
Proof.
  eexists. split; [reflexivity|]. split; [reflexivity|]. split; [reflexivity|].
  split; [reflexivity|]. split; [reflexivity|].
  apply Qc_is_canon. reflexivity.
Qed.

Lemma Catalog_init_errors_witness :
  Catalog.Catalog_init "missing.cat" sample_files
    = inl Catalog.MissingResourceError ∧
  Catalog.Catalog_init "sextractor_noasciihead.cat" sample_files
    = inl Catalog.InvalidFormatError ∧
  Catalog.Catalog_init "sextractor_incomplete.cat" sample_files
    = inl Catalog.InvalidFormatError.
Proof.
  split; [|split].
  - apply (Catalog_init_errors "missing.cat" sample_files). reflexivity.
  - apply (proj1 (proj2 (Catalog_init_errors "sextractor_noasciihead.cat"
                           sample_files)) sample_rows); reflexivity.
  - apply (proj2 (proj2 (Catalog_init_errors "sextractor_incomplete.cat"
                           sample_files))
             (take 9 sample_header ++ sample_rows) Catalog.FLUX_RADIUS).
    + reflexivity.
    + unfold Catalog.required_columns. repeat constructor.
    + reflexivity.
Defined.

(** * More of [xmlparse.py] *)

(** ** [XMLOffsetFile] as a container *)

Lemma assoc_assoc_set (k v : string) (l : list (string * string)) :
  assoc k (assoc_set k v l) = Some v.
Proof.
  induction l as [|[k' v'] l IH]; cbn [assoc_set assoc].
  - by rewrite String.eqb_refl.
  - destruct (String.eqb k k') eqn:Hk; cbn [assoc]; [by rewrite String.eqb_refl|].
    by rewrite Hk.
Qed.

Lemma Element_index_negative (e : Element) (index : Z) :
  - Z.of_nat (length (children e)) ≤ index < 0 →
  Element_index e index = Element_index e (index + Z.of_nat (length (children e))).
Proof.
  intros Hi. unfold Element_index.
  rewrite (proj2 (Z.ltb_lt index 0)) by lia.
  by rewrite (proj2 (Z.ltb_ge (index + _) 0)) by lia.
Qed.

Lemma Element_index_out_of_range (e : Element) (index : Z) :
  index < - Z.of_nat (length (children e)) ∨ Z.of_nat (length (children e)) ≤ index →
  Element_index e index = Raise IndexError.
Proof.
  intros Hi. unfold Element_index.
  destruct (Z.ltb_spec index 0).
  - destruct Hi as [Hi|Hi]; [|lia].
    by rewrite (proj2 (Z.leb_gt 0 _)) by lia.
  - destruct Hi as [Hi|Hi]; [lia|].
    rewrite (proj2 (Z.leb_le 0 _)), (proj2 (Z.ltb_ge _ _)) by lia. reflexivity.
Qed.

Section offsets_container.
Context `{PyFloat} `{PassbandAPI}.

Lemma lxml_text_raises (s : option string) (e : exn) :
  lxml_text s = Raise e → e = ValueError.
Proof.
  destruct s as [s|]; cbn [lxml_text]; [|done].
  unfold lxml_str. destruct (xml_compatible s); [done|]. by intros [= <-].
Qed.

(** whatever [add] raises is a [ValueError] *)
Lemma add_element_raises (offset : XMLOffset) (e : exn) :
  add_element offset = Raise e → e = ValueError.
Proof.
  unfold add_element.
  destruct (lxml_text (offset_reference offset)) as [rt|e1] eqn:Hr;
    [|intros [= <-]; by eapply lxml_text_raises].
  cbn [mbind result_bind]. unfold Time.asctime, Time.asctime_year.
  destruct (1900 <=? _); cbn [mbind result_bind];
    [|destruct (_ && _); cbn [mbind result_bind];
      [|destruct (_ && _); cbn [mbind result_bind]; [|by intros [= <-]]]].
  all: unfold lxml_str;
    (destruct (xml_compatible (Passband_str _)); cbn [mbind result_bind];
     [|by intros [= <-]]);
    (destruct (lxml_text (offset_shifted offset)) as [st|e2] eqn:Hs;
     [done|intros [= <-]; by eapply lxml_text_raises]).
Qed.

(** X1. A call of [add] that returns has made the file one offset longer
    and has set the [size] attribute of the root to the new length,
    whatever it was before. A call of [add] that raises (a date whose year
    [asctime] refuses, a path or a filter text that lxml refuses) raises
    [ValueError] and leaves the file as it was. *)
Theorem add_len_size (self self' : XMLOffsetFile) (offset : XMLOffset)
    (r : result unit) :
  XMLOffsetFile_add self offset = (self', r) →
  match r with
  | Ok _ =>
      XMLOffsetFile_len self' = XMLOffsetFile_len self + 1 ∧
      Element_get (root self') "size" = Some (str_int (XMLOffsetFile_len self + 1))
  | Raise e => e = ValueError ∧ self' = self
  end.
Proof.
  destruct (add_cases self offset)
    as [(e & He & ->)|(element & self2 & _ & -> & _ & _ & Hattrib & Hroot)].
  - intros [= <- <-]. split; [by eapply add_element_raises|done].
  - intros [= <- <-]. split.
    + unfold XMLOffsetFile_len. rewrite Hroot, length_app. cbn [length]. lia.
    + unfold Element_get. by rewrite Hattrib, assoc_assoc_set.
Qed.

(** X2. [add] leaves the offsets already in the file as they were:
    [__getitem__] at an index below the old length returns what it returned
    before the call, whether the call of [add] returned or raised. *)
Theorem add_getitem_earlier (self : XMLOffsetFile) (offset : XMLOffset) (index : Z) :
  0 ≤ index < XMLOffsetFile_len self →
  XMLOffsetFile_getitem (XMLOffsetFile_add self offset).1 index
    = XMLOffsetFile_getitem self index.
Proof.
  intros Hi. destruct (add_cases self offset)
    as [(e & _ & ->)|(element & self2 & _ & -> & _ & _ & _ & Hroot)]; [done|].
  cbn [fst]. unfold XMLOffsetFile_getitem.
  by rewrite (Element_index_app_l (root self) _ element index Hroot Hi).
Qed.

(** X3. A negative index counts from the end: [self[index]] for
    [-len(self) <= index < 0] is [self[index + len(self)]]. *)
Theorem getitem_negative (self : XMLOffsetFile) (index : Z) :
  - XMLOffsetFile_len self ≤ index < 0 →
  XMLOffsetFile_getitem self index
    = XMLOffsetFile_getitem self (index + XMLOffsetFile_len self).
Proof.
  intros Hi. unfold XMLOffsetFile_getitem.
  by rewrite (Element_index_negative (root self) index Hi).
Qed.

(** X4. An index at or beyond the length, or below [-len(self)], makes
    [__getitem__] raise [IndexError]. *)
Theorem getitem_out_of_range (self : XMLOffsetFile) (index : Z) :
  index < - XMLOffsetFile_len self ∨ XMLOffsetFile_len self ≤ index →
  XMLOffsetFile_getitem self index = Raise IndexError.
Proof.
  intros Hi. unfold XMLOffsetFile_getitem.
  by rewrite (Element_index_out_of_range (root self) index Hi).
Qed.

(** the element that [add] builds follows the DTD *)
Lemma add_element_valid (offset : XMLOffset) (element : Element) :
  add_element offset = Ok element →
  tag element = "offset" ∧ valid_element XMLOffsetFile_XML_DTD element = true.
Proof. intros (date & _ & ->)%add_element_inv. split; reflexivity. Qed.

Lemma well_formed_empty : well_formed empty_offsets.
Proof. repeat split; [by eexists|constructor]. Qed.

Lemma well_formed_add (self : XMLOffsetFile) (offset : XMLOffset) :
  well_formed self → well_formed (XMLOffsetFile_add self offset).1.
Proof.
  intros (Htag & Htext & [size Hattrib] & Hkids).
  destruct (add_cases self offset)
    as [(e & _ & ->)|(element & self2 & Helement & -> & Htag2 & Htext2 & Hattrib2
                      & Hroot)].
  { cbn [fst]. split; [done|]. split; [done|]. split; [by exists size|done]. }
  cbn [fst]. apply add_element_valid in Helement as [Hetag Hvalid].
  split; [by rewrite Htag2|]. split; [by rewrite Htext2|]. split.
  - eexists. rewrite Hattrib2, Hattrib. reflexivity.
  - rewrite Hroot. apply Forall_app. split; [done|]. by constructor.
Qed.

Lemma well_formed_valid (self : XMLOffsetFile) (now : Z) :
  well_formed self → children (root self) ≠ [] →
  valid_document (XMLOffsetFile_toxml self now) = true.
Proof.
  destruct self as [[t a txt kids]]. unfold well_formed. cbn [root tag text attrib children].
  intros (-> & -> & [size ->] & Hkids) Hne.
  unfold valid_document, XMLOffsetFile_toxml.
  cbn [xml_root xml_dtd tag doctype XMLOffsetFile_XML_DTD String.eqb
       Ascii.eqb Bool.eqb andb valid_element find_decl element_decls root].
  apply andb_true_intro; split; [apply andb_true_intro; split|].
  - cbn [content_ok blank andb]. apply lang_matches.
    destruct kids as [|e kids]; [done|]. apply Forall_cons in Hkids as [[He _] Hkids].
    cbn [map]. rewrite He. apply (lang_plus _ ["offset"] (map tag kids)); [constructor|].
    apply lang_star_names. clear Hne.
    induction Hkids as [|e' kids' [He' _] _ IH]; by constructor.
  - reflexivity.
  - apply forallb_forall. intros e He%list_elem_of_In.
    rewrite Forall_forall in Hkids. by apply Hkids.
Qed.

Lemma add_all_Ok (offsets : list XMLOffset) (start self : XMLOffsetFile) :
  add_all start offsets = (self, Ok tt) → well_formed start →
  well_formed self ∧
  XMLOffsetFile_len self = XMLOffsetFile_len start + Z.of_nat (length offsets).
Proof.
  revert start. induction offsets as [|o offsets IH]; intros start.
  - intros [= <-] Hstart. cbn [length]. split; [done|lia].
  - cbn [add_all length]. intros Hall Hstart.
    pose proof (well_formed_add start o Hstart) as Hwf.
    destruct (add_cases start o)
      as [(e & _ & Hadd)|(element & self2 & _ & Hadd & _ & _ & _ & Hroot)];
      rewrite Hadd in Hall, Hwf; [done|]. cbn [fst] in Hwf.
    destruct (IH _ Hall Hwf) as [Hself Hlen]. split; [done|].
    rewrite Hlen. unfold XMLOffsetFile_len. rewrite Hroot, length_app.
    cbn [length]. lia.
Qed.

(** X5. Once one or more calls of [add] on a file from [XMLOffsetFile()]
    have all returned, the file has as many offsets as were added, and
    [dump] writes it and returns: the document follows the DTD, whatever
    the fields of the offsets that [add] has accepted are. *)
Theorem dump_after_add (offsets : list XMLOffset) (self : XMLOffsetFile)
    (path : string) (now : Z) (fs : filesystem) :
  offsets ≠ [] →
  add_all empty_offsets offsets = (self, Ok tt) →
  XMLOffsetFile_len self = Z.of_nat (length offsets) ∧
  XMLOffsetFile_dump self path now fs
    = (<[path := XMLOffsetFile_toxml self now]> fs, Ok tt).
Proof.
  intros Hne Hall.
  destruct (add_all_Ok _ _ _ Hall well_formed_empty) as [Hwf Hlen].
  split; [exact Hlen|].
  unfold XMLOffsetFile_dump, validate_dtd. rewrite lookup_insert_eq.
  cbn [of_option mbind result_bind].
  rewrite well_formed_valid; [done|done|].
  intros Hnil. unfold XMLOffsetFile_len in Hlen. rewrite Hnil in Hlen.
  destruct offsets; [done|]. cbn [length] in Hlen. cbn in Hlen. lia.
Qed.

(** X6. [dump] writes before it validates: after the call the path holds
    the document of the file, also when the call raises; no other path is
    touched; and the call raises the validation error exactly when the
    document does not follow the DTD. *)
Theorem dump_writes_first (self : XMLOffsetFile) (path : string) (now : Z)
    (fs : filesystem) :
  let '(fs', r) := XMLOffsetFile_dump self path now fs in
  fs' !! path = Some (XMLOffsetFile_toxml self now) ∧
  (∀ p, p ≠ path → fs' !! p = fs !! p) ∧
  r = (if valid_document (XMLOffsetFile_toxml self now) then Ok tt
       else Raise XMLSyntaxError).
Proof.
  unfold XMLOffsetFile_dump, validate_dtd. rewrite lookup_insert_eq.
  split; [done|]. split; [|done]. intros p Hp. by rewrite lookup_insert_ne.
Qed.

End offsets_container.

Lemma add_len_size_witness :
  XMLOffsetFile_len (XMLOffsetFile_add empty_offsets example_offset).1 = 1 ∧
  (XMLOffsetFile_add empty_offsets early_offset).1 = empty_offsets.
Proof.
  split.
  - apply (@add_len_size Qc_float named_Passband empty_offsets _ example_offset
             (Ok tt)). reflexivity.
  - apply (@add_len_size Qc_float named_Passband empty_offsets _ early_offset
             (Raise ValueError)). reflexivity.
Defined.

Lemma add_getitem_earlier_witness :
  XMLOffsetFile_getitem two_offsets 0
    = XMLOffsetFile_getitem (XMLOffsetFile_add empty_offsets example_offset).1 0.
Proof.
  apply (@add_getitem_earlier Qc_float named_Passband
           (XMLOffsetFile_add empty_offsets example_offset).1 fine_offset 0).
  split; [done|reflexivity].
Defined.

Lemma getitem_negative_witness :
  XMLOffsetFile_getitem two_offsets (-1) = XMLOffsetFile_getitem two_offsets 1.
Proof.
  apply (@getitem_negative Qc_float named_Passband two_offsets (-1)).
  split; [discriminate|reflexivity].
Defined.

Lemma getitem_out_of_range_witness :
  XMLOffsetFile_getitem two_offsets 2 = Raise IndexError ∧
  XMLOffsetFile_getitem two_offsets (-3) = Raise IndexError.
Proof.
  split.
  - apply (@getitem_out_of_range Qc_float named_Passband two_offsets 2).
    right. discriminate.
  - apply (@getitem_out_of_range Qc_float named_Passband two_offsets (-3)).
    left. reflexivity.
Defined.

Lemma dump_after_add_witness :
  XMLOffsetFile_len two_offsets = 2 ∧
  XMLOffsetFile_dump two_offsets "offsets.xml" 0 ∅
    = (<["offsets.xml" := XMLOffsetFile_toxml two_offsets 0]> ∅, Ok tt).
Proof.
  apply (@dump_after_add Qc_float named_Passband [example_offset; fine_offset]
           two_offsets "offsets.xml" 0 ∅).
  - discriminate.
  - reflexivity.
Defined.

(** ** [CandidateAnnuli]: failing and repeated dumps *)

Section annuli_more.
Context `{PyFloat} `{PassbandAPI}.

#[local] Abbreviation annuli_dict := (gmap Passband (list CandidateAnnuli)).

(** the loop of [xml_dump] stops with [ValueError] at an empty list *)
Lemma dump_bands_empty_list (ks : list Passband) (annuli : annuli_dict) k :
  NoDup ks → (∀ k', k' ∈ ks → is_Some (annuli !! k')) →
  k ∈ ks → annuli !! k = Some [] →
  ∃ annuli', dump_bands ks annuli = (annuli', Raise ValueError).
Proof.
  intros Hnd. revert annuli.
  induction Hnd as [|k0 ks Hk0 Hnd IH]; intros annuli Hdom Hk Hempty.
  { by apply elem_of_nil in Hk. }
  cbn [dump_bands].
  destruct (Hdom k0) as [l Hl]; [by left|]. rewrite Hl.
  destruct (py_min stdev float_ltb l) as [best|] eqn:Hbest; [|by eauto].
  apply elem_of_cons in Hk as [->|Hk].
  { rewrite Hempty in Hl. injection Hl as <-. discriminate Hbest. }
  assert (k ≠ k0) as Hne by (by intros ->).
  destruct (IH (<[k0 := py_sorted sort_key pair_ltb l]> annuli)) as [annuli' ->].
  - intros k' Hk'. destruct (decide (k' = k0)) as [->|Hne'].
    + by rewrite lookup_insert_eq.
    + rewrite lookup_insert_ne by done. apply Hdom. by right.
  - done.
  - by rewrite lookup_insert_ne.
  - by eauto.
Qed.

(** X7. [xml_dump] raises [ValueError] when a filter of the mapping has an
    empty list ([min] of an empty sequence), and then writes no file. *)
Theorem xml_dump_empty_list (path : string) (annuli : annuli_dict) (now : Z)
    (fs : filesystem) (pfilter : Passband) :
  annuli !! pfilter = Some [] →
  ∃ annuli', xml_dump path annuli now fs = (annuli', fs, Raise ValueError).
Proof.
  intros Hempty.
  destruct (dump_bands_empty_list (sorted_filters annuli) annuli pfilter)
    as [annuli' Hdump].
  - apply sorted_filters_NoDup.
  - intros k. by rewrite elem_of_sorted_filters.
  - rewrite elem_of_sorted_filters. by eauto.
  - done.
  - exists annuli'. unfold xml_dump. by rewrite Hdump.
Qed.

Context (float_laws : PyFloatLaws).

(** X8. The mapping that a call of [xml_dump] leaves behind can be dumped
    again, to any path: the second call returns and leaves every list as
    it found it, the lists being in order already. *)
Theorem xml_dump_again (path path' : string) (annuli annuli' : annuli_dict)
    (now now' : Z) (fs fs' : filesystem) :
  xml_dump path annuli now fs = (annuli', fs', Ok tt) →
  ∃ fs'', xml_dump path' annuli' now' fs' = (annuli', fs'', Ok tt).
Proof.
  intros Hdump. pose proof Hdump as (Hsorted & bands & Hall & _)%xml_dump_spec.
  assert (∀ k l, annuli !! k = Some l → l ≠ []) as Hne.
  { intros k l Hl.
    assert (k ∈ sorted_filters annuli) as Hk by (rewrite elem_of_sorted_filters; eauto).
    clear -Hall Hk Hl. induction Hall as [|k' b ks bs Hb _ IH]; [by apply elem_of_nil in Hk|].
    apply elem_of_cons in Hk as [->|Hk]; [|by apply IH].
    unfold band_of in Hb. rewrite Hl in Hb. cbn [mbind option_bind] in Hb.
    by intros ->. }
  destruct (xml_dump_Ok path' annuli' now' fs') as (annuli'' & fs'' & Hagain).
  { intros k l'. rewrite Hsorted, lookup_fmap.
    destruct (annuli !! k) as [l|] eqn:Hl; [|done]. intros [= <-].
    intros Hnil%py_sorted_nil. by eapply Hne. }
  exists fs''. rewrite Hagain. do 2 f_equal.
  apply xml_dump_spec in Hagain as [-> _]. rewrite Hsorted.
  apply map_eq. intros k. rewrite !lookup_fmap.
  destruct (annuli !! k) as [l|]; [|done]. cbn [fmap option_fmap option_map].
  f_equal. apply py_sorted_Sorted_id. by apply sorted_candidates_Sorted.
Qed.

Context (Passband_name_new : ∀ pfilter, Passband_new (Passband_name pfilter) = Ok pfilter).

(** X9. [xml_load] returns the lists in the order of the file: loading
    what [xml_dump] wrote gives the mapping as [xml_dump] left it, every
    value read back from its decimals. *)
Theorem xml_load_in_order (path : string) (annuli annuli' : annuli_dict)
    (now : Z) (fs fs' : filesystem) :
  xml_dump path annuli now fs = (annuli', fs', Ok tt) →
  xml_load path false fs' = Ok ((λ candidates : list CandidateAnnuli, rounded_candidate <$> candidates)
          <$> annuli').
Proof.
  intros Hdump.
  rewrite (xml_load_dump float_laws Passband_name_new false _ _ _ _ _ _ Hdump).
  apply xml_dump_spec in Hdump as [-> _]. f_equal.
  apply map_eq. intros k. rewrite lookup_omap, !lookup_fmap.
  by destruct (annuli !! k).
Qed.

End annuli_more.

(** ** [CandidateAnnuli]: ties and duplicates *)

Section stable.
Context {A K : Type} `{EqDecision K} (key : A → K) (ltb : K → K → bool).
Hypothesis ltb_irrefl : ∀ x, ltb x x = false.

(** [sort] is stable: the elements with a given key keep their order *)
Lemma sort_insert_filter (k : K) (a : A) (l : list A) :
  filter (λ c, key c = k) (sort_insert key ltb a l)
  = filter (λ c, key c = k) (a :: l).
Proof.
  induction l as [|b l IH]; [done|]. cbn [sort_insert].
  destruct (ltb (key b) (key a)) eqn:Hba; [|done].
  rewrite filter_cons, IH, !filter_cons.
  destruct (decide (key b = k)) as [Hb|Hb], (decide (key a = k)) as [Ha|Ha]; try done.
  rewrite Hb, Ha, ltb_irrefl in Hba. discriminate Hba.
Qed.

Lemma py_sorted_filter (k : K) (l : list A) :
  filter (λ c, key c = k) (py_sorted key ltb l) = filter (λ c, key c = k) l.
Proof.
  induction l as [|a l IH]; [done|].
  cbn [py_sorted foldr]. fold (py_sorted key ltb l).
  by rewrite sort_insert_filter, !filter_cons, IH.
Qed.

Hypothesis ltb_trans : ∀ x y z, ltb x y = true → ltb y z = true → ltb x z = true.
Hypothesis ltb_total : ∀ x y, ltb x y = true ∨ x = y ∨ ltb y x = true.

(** [min] returns the first of the elements with the least key *)
Lemma fold_min_first (l : list A) (a : A) :
  ∃ l1 l2,
    a :: l = l1 ++ fold_left (λ best c, if ltb (key c) (key best) then c else best) l a
                   :: l2 ∧
    (∀ c, c ∈ l1 →
       ltb (key (fold_left (λ best c, if ltb (key c) (key best) then c else best) l a))
           (key c) = true) ∧
    (∀ c, c ∈ l2 →
       ltb (key c)
           (key (fold_left (λ best c, if ltb (key c) (key best) then c else best) l a))
       = false).
Proof.
  induction l as [|c l IH] using rev_ind.
  { exists [], []. split; [done|]. split; by intros c ?%elem_of_nil. }
  rewrite fold_left_app. cbn [fold_left].
  destruct IH as (l1 & l2 & Hsplit & Hbefore & Hafter).
  set (r := fold_left _ l a) in *.
  destruct (ltb (key c) (key r)) eqn:Hcr.
  - exists (l1 ++ r :: l2), []. split; [|split].
    + by rewrite app_comm_cons, Hsplit.
    + intros c' [Hc' | [-> | Hc']%elem_of_cons]%elem_of_app.
      * eapply ltb_trans; [exact Hcr|]. by apply Hbefore.
      * exact Hcr.
      * destruct (ltb_total (key r) (key c')) as [Hlt|[Heq|Hgt]].
        -- by eapply ltb_trans.
        -- by rewrite <- Heq.
        -- by rewrite (Hafter c' Hc') in Hgt.
    + by intros c' ?%elem_of_nil.
  - exists l1, (l2 ++ [c]). split; [|split].
    + by rewrite app_comm_cons, Hsplit, <- app_assoc.
    + exact Hbefore.
    + intros c' [Hc' | ->%list_elem_of_singleton]%elem_of_app; [by apply Hafter|done].
Qed.

Lemma py_min_first (l : list A) (best : A) :
  py_min key ltb l = Some best →
  ∃ l1 l2, l = l1 ++ best :: l2 ∧
    (∀ c, c ∈ l1 → ltb (key best) (key c) = true) ∧
    (∀ c, c ∈ l2 → ltb (key c) (key best) = false).
Proof.
  destruct l as [|a l]; [done|]. cbn [py_min]. intros [= <-]. apply fold_min_first.
Qed.

End stable.

Section annuli_order.
Context `{PyFloat} `{PassbandAPI}.
Context (float_laws : PyFloatLaws).

#[local] Abbreviation annuli_dict := (gmap Passband (list CandidateAnnuli)).

(** X11. The sort of [xml_dump] is stable: in the list it leaves for a
    filter, the candidates with one [(annulus, aperture)] key are in the
    order the caller had them in. *)
Theorem xml_dump_stable (path : string) (annuli annuli' : annuli_dict) (now : Z)
    (fs fs' : filesystem) (pfilter : Passband) (candidates : list CandidateAnnuli)
    (k : float * float) :
  xml_dump path annuli now fs = (annuli', fs', Ok tt) →
  annuli !! pfilter = Some candidates →
  ∃ sorted,
    annuli' !! pfilter = Some sorted ∧
    filter (λ c, sort_key c = k) sorted = filter (λ c, sort_key c = k) candidates.
Proof.
  intros [-> _]%xml_dump_spec Hl. exists (py_sorted sort_key pair_ltb candidates).
  split; [by rewrite lookup_fmap, Hl|].
  apply py_sorted_filter, pair_ltb_irrefl, float_laws.
Qed.

Lemma sorted_candidates_again (l : list CandidateAnnuli) :
  py_sorted sort_key pair_ltb (py_sorted sort_key pair_ltb l)
  = py_sorted sort_key pair_ltb l.
Proof. apply py_sorted_Sorted_id. by apply sorted_candidates_Sorted. Qed.

Lemma store_set_eq (store : nat → list CandidateAnnuli) object l :
  store_set store object l object = l.
Proof. unfold store_set. by rewrite decide_True. Qed.

Lemma store_set_ne (store : nat → list CandidateAnnuli) object object' l :
  object ≠ object' → store_set store object l object' = store object'.
Proof. intros Hne. unfold store_set. by rewrite decide_False. Qed.

(** the list that [min] sees for a filter: sorted already when an earlier
    filter has the same list object *)
Lemma dump_bands_shared_spec (ks : list Passband) (annuli : gmap Passband nat)
    (store store' : nat → list CandidateAnnuli) (bands : list Element) :
  dump_bands_shared ks annuli store = (store', Ok bands) →
  ∀ earlier k later object, ks = earlier ++ k :: later →
    annuli !! k = Some object →
    ∃ best,
      py_min stdev float_ltb
        (if decide (Exists (λ k', annuli !! k' = Some object) earlier)
         then py_sorted sort_key pair_ltb (store object) else store object)
        = Some best ∧
      bands !! length earlier
        = Some (band_element k best (py_sorted sort_key pair_ltb (store object))).
Proof.
  revert store store' bands.
  induction ks as [|k0 ks IH]; intros store store' bands Hdump earlier k later object
    Hsplit Hobject.
  { by destruct earlier. }
  cbn [dump_bands_shared] in Hdump.
  destruct (annuli !! k0) as [object0|] eqn:Hobject0; [|done].
  destruct (py_min stdev float_ltb (store object0)) as [best0|] eqn:Hbest0; [|done].
  destruct (dump_bands_shared ks annuli _) as [store1 [bands1|e]] eqn:Hrest; [|done].
  cbn [mbind result_bind] in Hdump. injection Hdump as <- <-.
  destruct earlier as [|k1 earlier]; cbn [app] in Hsplit; injection Hsplit as <- ->.
  - rewrite decide_False by (by intros ?%Exists_nil).
    rewrite Hobject in Hobject0. injection Hobject0 as <-.
    exists best0. by split.
  - destruct (IH _ _ _ Hrest earlier k later object eq_refl Hobject)
      as (best & Hbest & Hband).
    exists best. cbn [length]. rewrite lookup_cons. split; [|].
    + destruct (decide (object0 = object)) as [->|Hne].
      * rewrite store_set_eq, sorted_candidates_again in Hbest.
        rewrite decide_True by (by left).
        by destruct (decide (Exists _ earlier)).
      * rewrite store_set_ne in Hbest by done.
        destruct (decide (Exists _ earlier)) as [Hex|Hex].
        -- by rewrite decide_True by (by right).
        -- rewrite decide_False; [done|].
           intros [Hk0|?]%Exists_cons; [|done]. congruence.
    + rewrite Hband. do 2 f_equal.
      destruct (decide (object0 = object)) as [->|Hne].
      * by rewrite store_set_eq, sorted_candidates_again.
      * by rewrite store_set_ne.
Qed.

(** X12. In the loop of [xml_dump], lists being objects that filters may
    share: the band of a filter carries the first of the candidates with
    the lowest stdev in the order its list has when [min] runs, every
    candidate before it having a higher stdev and none after it a lower
    one. That order is the caller's, unless a filter that comes earlier in
    the sorted filters has the same list object: then the list has been
    sorted by [(annulus, aperture)] already. *)
Theorem dump_bands_first_best (annuli : gmap Passband nat)
    (store store' : nat → list CandidateAnnuli) (bands : list Element)
    (earlier later : list Passband) (pfilter : Passband) (object : nat) :
  dump_bands_shared (shared_filters annuli) annuli store = (store', Ok bands) →
  shared_filters annuli = earlier ++ pfilter :: later →
  annuli !! pfilter = Some object →
  ∃ band seen before best after,
    bands !! length earlier = Some band ∧
    Element_get band "name" = Some (Passband_name pfilter) ∧
    seen = (if decide (Exists (λ k, annuli !! k = Some object) earlier)
            then py_sorted sort_key pair_ltb (store object) else store object) ∧
    seen = before ++ best :: after ∧
    (∀ c, c ∈ before → float_ltb (stdev best) (stdev c) = true) ∧
    (∀ c, c ∈ after → float_ltb (stdev c) (stdev best) = false) ∧
    Element_get band "aperture" = Some (fmt_f 5 (aperture best)) ∧
    Element_get band "annulus" = Some (fmt_f 5 (annulus best)) ∧
    Element_get band "dannulus" = Some (fmt_f 5 (dannulus best)) ∧
    Element_get band "stdev" = Some (fmt_f 8 (stdev best)).
Proof.
  intros Hdump Hsplit Hobject.
  destruct (dump_bands_shared_spec _ _ _ _ _ Hdump _ _ _ _ Hsplit Hobject)
    as (best & Hbest & Hband).
  apply py_min_first in Hbest as (before & after & Hseen & Hbefore & Hafter);
    [|apply float_laws..].
  eexists _, _, before, best, after.
  split; [exact Hband|]. split; [reflexivity|]. split; [reflexivity|].
  split; [exact Hseen|]. by repeat split.
Qed.

End annuli_order.

(** X10. The text that [add] writes for a date within the years 1900 to
    9999 is read by [strptime] as the broken-down time that [gmtime] gave,
    weekday and day of the year included, but for the daylight-saving
    flag, which [strptime] leaves at -1 where [gmtime] has 0; and
    [timegm] turns that time back into the date. *)
Theorem date_text_roundtrip (date : Z) :
  -2208988800 ≤ date ≤ 253402300799 →
  ∃ text tm,
    Time.asctime (Time.gmtime date) = Ok text ∧
    Time.strptime (text +:+ " UTC") = Ok tm ∧
    tm = with_isdst (Time.gmtime date) (-1) ∧
    Time.tm_isdst (Time.gmtime date) = 0 ∧
    Time.timegm tm = Ok date.
Proof.
  intros Hdate. destruct (strptime_asctime_gmtime date Hdate) as [Htext Hparse].
  eexists _, _. split; [exact Htext|]. split; [exact Hparse|].
  split; [done|]. split.
  - unfold Time.gmtime. by destruct (Time.civil_from_days _) as [[y m] d].
  - by apply (timegm_gmtime date); [lia|..].
Qed.

Section load_groups.
Context `{PyFloat} `{PassbandAPI}.

#[local] Abbreviation annuli_dict := (gmap Passband (list CandidateAnnuli)).

Lemma dict_append_lookup (annuli : annuli_dict) (k k' : Passband) (c : CandidateAnnuli) :
  default [] (dict_append annuli k c !! k')
  = default [] (annuli !! k') ++ (if decide (k = k') then [c] else []).
Proof.
  unfold dict_append. destruct (decide (k = k')) as [<-|Hne].
  - by rewrite lookup_insert_eq.
  - by rewrite lookup_insert_ne, app_nil_r.
Qed.

Lemma load_bands_best_only (bands : list Element)
    (entries : list (Passband * CandidateAnnuli)) (acc : annuli_dict) :
  Forall2 band_entry bands entries →
  ∃ loaded, load_bands true bands acc = Ok loaded ∧
    ∀ k, default [] (loaded !! k)
         = default [] (acc !! k) ++ (filter (λ e, e.1 = k) entries).*2.
Proof.
  intros Hall. revert acc.
  induction Hall as [|band [k c] bands entries (name & Hname & Hnew & Hc) _ IH];
    intros acc.
  { exists acc. split; [done|]. intros k. by rewrite app_nil_r. }
  cbn [load_bands]. rewrite Hname. cbn [of_option mbind result_bind].
  cbn [fst snd] in Hnew, Hc. rewrite Hnew. cbn [mbind result_bind]. rewrite Hc.
  cbn [mbind result_bind].
  destruct (IH (dict_append acc k c)) as (loaded & -> & Hloaded).
  exists loaded. split; [done|]. intros k'.
  rewrite Hloaded, dict_append_lookup, filter_cons. cbn [fst].
  destruct (decide (k = k')) as [->|Hne].
  - by rewrite <- app_assoc.
  - by rewrite app_nil_r.
Qed.

(** X13. With [best_only], [xml_load] gives one candidate per band, and
    bands with the same filter go to one list in the order of the file,
    for any document whose bands have a name that [Passband] accepts and
    four attributes that [float] reads. *)
Theorem xml_load_best_only_groups (path : string) (fs : filesystem) (doc : XMLFile)
    (entries : list (Passband * CandidateAnnuli)) :
  fs !! path = Some doc →
  Forall2 band_entry (children (xml_root doc)) entries →
  ∃ loaded, xml_load path true fs = Ok loaded ∧
    ∀ pfilter, default [] (loaded !! pfilter)
               = (filter (λ e, e.1 = pfilter) entries).*2.
Proof.
  intros Hdoc Hall. unfold xml_load. rewrite Hdoc. cbn [of_option mbind result_bind].
  destruct (load_bands_best_only _ _ ∅ Hall) as (loaded & -> & Hloaded).
  exists loaded. split; [done|]. intros k. by rewrite Hloaded, lookup_empty.
Qed.

End load_groups.

Lemma xml_dump_empty_list_witness :
  ∃ annuli', xml_dump "annuli.xml" annuli_with_empty 0 ∅
             = (annuli', ∅, Raise ValueError).
Proof.
  apply (@xml_dump_empty_list Qc_float named_Passband "annuli.xml"
           annuli_with_empty 0 ∅ "V").
  apply lookup_insert_eq.
Defined.

Lemma xml_dump_again_witness :
  ∃ fs'', xml_dump "again.xml" (xml_dump "annuli.xml" example_annuli 0 ∅).1.1 1
            (xml_dump "annuli.xml" example_annuli 0 ∅).1.2
          = ((xml_dump "annuli.xml" example_annuli 0 ∅).1.1, fs'', Ok tt).
Proof.
  exact (@xml_dump_again Qc_float named_Passband Qc_float_laws "annuli.xml"
           "again.xml" example_annuli _ 0 1 ∅ _ example_annuli_dump).
Defined.

Lemma xml_load_in_order_witness :
  xml_load "annuli.xml" false (xml_dump "annuli.xml" example_annuli 0 ∅).1.2
  = Ok ((λ candidates : list CandidateAnnuli, rounded_candidate <$> candidates)
          <$> (xml_dump "annuli.xml" example_annuli 0 ∅).1.1).
Proof.
  exact (@xml_load_in_order Qc_float named_Passband Qc_float_laws
           (λ pfilter, eq_refl) "annuli.xml" example_annuli _ 0 ∅ _
           example_annuli_dump).
Defined.

Lemma tied_annuli_dump :
  xml_dump "annuli.xml" tied_annuli 0 ∅
  = ((xml_dump "annuli.xml" tied_annuli 0 ∅).1.1,
     (xml_dump "annuli.xml" tied_annuli 0 ∅).1.2, Ok tt).
Proof.
  destruct (xml_dump_Ok "annuli.xml" tied_annuli 0 ∅) as (annuli' & fs' & ->);
    [|reflexivity].
  unfold tied_annuli. by intros k l [_ <-]%lookup_singleton_Some.
Qed.

Lemma tied_annuli_key :
  filter (λ c : CandidateAnnuli, sort_key c = (decimal 4 1, decimal 3 1))
    [candidate_d; candidate_a; candidate_c]
  = [candidate_d; candidate_c].
Proof. reflexivity. Qed.

Lemma xml_dump_stable_witness :
  ∃ sorted,
    (xml_dump "annuli.xml" tied_annuli 0 ∅).1.1 !! "V" = Some sorted ∧
    filter (λ c, sort_key c = (decimal 4 1, decimal 3 1)) sorted
    = [candidate_d; candidate_c].
Proof.
  destruct (@xml_dump_stable Qc_float named_Passband Qc_float_laws "annuli.xml"
              tied_annuli _ 0 ∅ _ "V" _ (decimal 4 1, decimal 3 1)
              tied_annuli_dump (lookup_singleton_eq _ _))
    as (sorted & Hsorted & Hfilter).
  exists sorted. split; [exact Hsorted|].
  rewrite Hfilter. exact tied_annuli_key.
Defined.

(** the bands of the two filters that share a list: B has the first
    candidate of the caller's order, V the first of the sorted order *)
Lemma shared_annuli_bands :
  dump_bands_shared (shared_filters shared_annuli) shared_annuli shared_store
  = ((dump_bands_shared (shared_filters shared_annuli) shared_annuli
        shared_store).1,
     Ok [band_element "B" candidate_e [candidate_b; candidate_a; candidate_e];
         band_element "V" candidate_b [candidate_b; candidate_a; candidate_e]]).
Proof. reflexivity. Qed.

Lemma dump_bands_first_best_witness :
  ∃ band seen before best after,
    [band_element "B" candidate_e [candidate_b; candidate_a; candidate_e];
     band_element "V" candidate_b [candidate_b; candidate_a; candidate_e]]
      !! 1%nat = Some band ∧
    seen = [candidate_b; candidate_a; candidate_e] ∧
    seen = before ++ best :: after ∧
    Element_get band "stdev" = Some (fmt_f 8 (stdev best)).
Proof.
  destruct (@dump_bands_first_best Qc_float named_Passband Qc_float_laws
              shared_annuli shared_store _ _ ["B"] [] "V" 0%nat
              shared_annuli_bands eq_refl eq_refl)
    as (band & seen & before & best & after & Hband & _ & Hseen & Hsplit & _ & _
        & _ & _ & _ & Hstdev).
  exists band, seen, before, best, after.
  split; [exact Hband|]. split; [|split; [exact Hsplit|exact Hstdev]].
  rewrite Hseen. reflexivity.
Defined.

Lemma date_text_roundtrip_witness :
  ∃ text tm,
    Time.asctime (Time.gmtime 740618465) = Ok text ∧
    Time.strptime (text +:+ " UTC") = Ok tm ∧
    tm = with_isdst (Time.gmtime 740618465) (-1) ∧
    Time.tm_isdst (Time.gmtime 740618465) = 0 ∧
    Time.timegm tm = Ok 740618465.
Proof. apply (date_text_roundtrip 740618465). lia. Defined.

Lemma xml_load_best_only_groups_witness :
  ∃ loaded, @xml_load Qc_float named_Passband "annuli.xml" true
              {["annuli.xml" := two_bands]} = Ok loaded ∧
    ∀ pfilter : @Passband named_Passband, default [] (loaded !! pfilter)
      = (filter (λ e, e.1 = pfilter)
           [("V", rounded_candidate candidate_b);
            ("V", rounded_candidate candidate_c)]).*2.
Proof.
  apply (@xml_load_best_only_groups Qc_float named_Passband "annuli.xml"
           {["annuli.xml" := two_bands]} two_bands).
  - apply lookup_singleton_eq.
  - constructor; [|constructor; [|constructor]].
    + exists "V". split; [reflexivity|]. split; [reflexivity|].
      apply (candidate_of_attrs_band Qc_float_laws).
    + exists "V". split; [reflexivity|]. split; [reflexivity|].
      apply (candidate_of_attrs_band Qc_float_laws).
Defined.
